(** * App review analyzer: fetcher and analyzer, embedded and verified

    A shallow embedding of [app_reviews_fetcher.py] (class
    [AppReviewsFetcher]) and [review_analyzer.py] (class [ReviewAnalyzer]).

    - [Py] models the part of the Python runtime the two programs rely on:
      exceptions as an error monad, [str] operations, insertion-ordered
      dictionaries, [sorted], slices, the [statistics] module, [datetime]
      ordering and the dynamically typed JSON values of [json.loads].
    - [Fetcher] embeds [fetch_url], [extract_reviews], [get_next_page_url]
      and [fetch_all_reviews] over an explicit session state and a network
      oracle.
    - [Analyzer] embeds [load_reviews], [get_all_reviews],
      [analyze_ratings_distribution], [analyze_temporal_trends],
      [extract_keywords_and_issues], [analyze_positive_aspects] and
      [generate_summary_report].
    - [Reference] is an instance of the library functions the analyzer is
      parametric in, and [Samples] holds concrete feeds and reviews.
    - [PyFacts], [NumberFacts] and [TextFacts] have the lemmas on the
      runtime model; the modules after them prove the properties of the
      two programs, and [Scenarios] runs them on worked examples.

    Conventions.  A Python [str] is the [string] of the bytes that
    encode its code points in UTF-8, each code point on its own (so that
    every [str] has one encoding, a lone surrogate one of three bytes);
    substring search, replacement, splitting, comparison and order are
    the same on the bytes as on the code points, and lengths and slices
    count the bytes that start a code point.  A Python [int] is a [Z];
    lengths and counters that only grow from zero are [nat]; a [float]
    is the rational number it equals, and comes from [Py.to_float],
    which rounds to the nearest binary64 value as the interpreter does.
    A raised exception is the [Raise] case of [Py.result]. *)

From Stdlib Require Import ZArith QArith String Ascii List Lia Bool OrderedTypeEx.
From Stdlib Require Import DecimalString DecimalZ DecimalPos.
From stdpp Require Import base tactics option list sorting gmap strings.
Import ListNotations.

Open Scope string_scope.
Open Scope list_scope.
Open Scope Z_scope.

(* ===================================================================== *)
(** * The Python runtime model                                            *)
(* ===================================================================== *)

Module Py.

(** ** Exceptions *)

Inductive exn : Type :=
  | StatisticsError   (* statistics.mean / median of no data *)
  | OverflowError     (* a quotient too large for a float *)
  | ValueError        (* int() or fromisoformat() of a bad literal *)
  | TypeError
  | KeyError
  | AttributeError
  | OtherException.

Inductive result (A : Type) : Type :=
  | Ok (a : A)
  | Raise (e : exn).
Arguments Ok {A} a.
Arguments Raise {A} e.

#[global] Instance result_ret : MRet result := fun _ a => Ok a.
#[global] Instance result_bind : MBind result := fun _ _ f m =>
  match m with
  | Ok a => f a
  | Raise e => Raise e
  end.
#[global] Instance result_fmap : FMap result := fun _ _ f m =>
  match m with
  | Ok a => Ok (f a)
  | Raise e => Raise e
  end.

(** [[f(x) for x in l]] where [f] may raise: the first failure aborts. *)
Fixpoint map_result {A B} (f : A -> result B) (l : list A) : result (list B) :=
  match l with
  | [] => Ok []
  | x :: l' => y ← f x; ys ← map_result f l'; Ok (y :: ys)
  end.

(** A library function that returns [None] here raises [e] in Python. *)
Definition option_to_result {A} (e : exn) (o : option A) : result A :=
  match o with Some a => Ok a | None => Raise e end.

(** ** Strings *)

(** [sub in s] *)
Fixpoint contains (sub s : string) : bool :=
  String.prefix sub s ||
  match s with
  | EmptyString => false
  | String _ s' => contains sub s'
  end.

(** [any(keyword in content for keyword in keywords)] *)
Definition any_in (keywords : list string) (content : string) : bool :=
  existsb (fun keyword => contains keyword content) keywords.

(** [s.replace(old, new)] for a non-empty [old]: every non-overlapping
    occurrence, leftmost first.  [skip] counts the characters of an
    occurrence already replaced that are still to be dropped. *)
Fixpoint replace_from (old new s : string) (skip : nat) : string :=
  match s with
  | EmptyString => EmptyString
  | String c s' =>
      match skip with
      | S k => replace_from old new s' k
      | O =>
          if String.prefix old s
          then new ++ replace_from old new s' (String.length old - 1)
          else String c (replace_from old new s' 0)
      end
  end.

Definition str_replace (old new s : string) : string :=
  replace_from old new s 0.

(** [s.split(sep)[0]]: the part of [s] before the first [sep]. *)
Fixpoint split_head (sep s : string) : string :=
  if String.prefix sep s then EmptyString
  else match s with
       | EmptyString => EmptyString
       | String c s' => String c (split_head sep s')
       end.

(** A byte of the form 10xxxxxx goes on with the code point that the
    bytes before it started; every other byte starts one. *)
Definition is_continuation (c : ascii) : bool :=
  let n := nat_of_ascii c in (128 <=? n)%nat && (n <? 192)%nat.

(** [len(s)]: the code points of [s]. *)
Fixpoint char_length (s : string) : nat :=
  match s with
  | EmptyString => 0
  | String c s' =>
      if is_continuation c then char_length s' else S (char_length s')
  end.

(** [s[:n]]: the first [n] code points of [s], or all there are. *)
Fixpoint take_chars (n : nat) (s : string) : string :=
  match s with
  | EmptyString => EmptyString
  | String c s' =>
      if is_continuation c then String c (take_chars n s')
      else match n with
           | O => EmptyString
           | S n' => String c (take_chars n' s')
           end
  end.

(** The code points of [s], each as the [str] of that one character. *)
Fixpoint code_points (s : string) : list string :=
  match s with
  | EmptyString => []
  | String c s' =>
      let rest := code_points s' in
      match rest with
      | chunk :: chunks =>
          if match s' with
             | String c' _ => is_continuation c'
             | EmptyString => false
             end
          then String c chunk :: chunks
          else String c EmptyString :: rest
      | [] => [String c EmptyString]
      end
  end.

(** [s[:n] + '...' if len(s) > n else s] *)
Definition excerpt (n : nat) (s : string) : string :=
  if (n <? char_length s)%nat then take_chars n s ++ "..." else s.

(** [str(k)] for an [int]. *)
Definition str_of_int (k : Z) : string :=
  NilZero.string_of_int (Z.to_int k).

(** ** Insertion-ordered dictionaries with [str] keys *)

Definition dict (V : Type) : Type := list (string * V).

Fixpoint dict_get {V} (k : string) (d : dict V) : option V :=
  match d with
  | [] => None
  | (k', v) :: d' => if String.eqb k k' then Some v else dict_get k d'
  end.

(** [d[k] = v]: an existing key keeps its position, a new one goes last. *)
Fixpoint dict_set {V} (k : string) (v : V) (d : dict V) : dict V :=
  match d with
  | [] => [(k, v)]
  | (k', v') :: d' =>
      if String.eqb k k' then (k, v) :: d' else (k', v') :: dict_set k v d'
  end.

(** One access-and-update of a [defaultdict]: [d[k] = f(d[k])], where a
    missing key is first created with the default value. *)
Definition dict_upd {V} (default : V) (k : string) (f : V -> V) (d : dict V)
  : dict V :=
  dict_set k (f (from_option id default (dict_get k d))) d.

Definition dict_keys {V} (d : dict V) : list string := map fst d.
Definition dict_values {V} (d : dict V) : list V := map snd d.

(** [dict(items)]: later items overwrite earlier ones with the same key. *)
Definition dict_of_items {V} (items : list (string * V)) : dict V :=
  foldl (fun d kv => dict_set (fst kv) (snd kv) d) [] items.

(** ** [collections.Counter] over [int]s *)

Fixpoint counter_add (k : Z) (c : list (Z * nat)) : list (Z * nat) :=
  match c with
  | [] => [(k, 1%nat)]
  | (k', n) :: c' =>
      if k =? k' then (k', S n) :: c' else (k', n) :: counter_add k c'
  end.

Definition Counter (l : list Z) : list (Z * nat) :=
  foldl (fun c k => counter_add k c) [] l.

(** ** [sorted] and slices *)

Section Sorting.
Context {A : Type} (leb : A -> A -> bool).

Fixpoint insert_sorted (x : A) (l : list A) : list A :=
  match l with
  | [] => [x]
  | y :: l' => if leb x y then x :: l else y :: insert_sorted x l'
  end.

(** A stable sort: an element goes before the later ones it equals. *)
Definition sorted (l : list A) : list A := foldr insert_sorted [] l.

(** The order that [leb] decides. *)
Definition leR : relation A := fun a b => leb a b = true.

End Sorting.

(** [sorted] of a list of [str]: code-point lexicographic order. *)
Definition sorted_str : list string -> list string := sorted String.leb.

(** [sorted(d.items())] when the keys are pairwise distinct: the values
    are never compared. *)
Definition sorted_items {V} : dict V -> list (string * V) :=
  sorted (fun kv1 kv2 => String.leb (fst kv1) (fst kv2)).

(** A slice bound, as Python normalises it for a sequence of length [n]. *)
Definition slice_bound (n i : Z) : Z :=
  if i <? 0 then Z.max 0 (i + n) else Z.min i n.

(** [l[start:stop]]; [None] for an omitted bound. *)
Definition slice {A} (l : list A) (start stop : option Z) : list A :=
  let n := Z.of_nat (length l) in
  let a := slice_bound n (default 0 start) in
  let b := slice_bound n (default n stop) in
  take (Z.to_nat (b - a)) (drop (Z.to_nat a) l).

(** ** Numbers: [int], [float], the [statistics] module and [round] *)

Definition Qsum (l : list Q) : Q := foldr Qplus 0%Q l.

(** Nearest integer, ties to even. *)
Definition round_half_even (q : Q) : Z :=
  let n := Qnum q in
  let d := Z.pos (Qden q) in
  let fl := n / d in
  let r2 := 2 * (n mod d) in
  if r2 <? d then fl
  else if d <? r2 then fl + 1
  else if Z.even fl then fl else fl + 1.

(** The exponent of the leading bit of [n / d], for positive [n] and
    [d]: the integer [k] with [2 ^ k <= n / d < 2 ^ (k + 1)]. *)
Definition float_exponent (n d : Z) : Z :=
  if d <=? n then Z.log2 (n / d) else - Z.log2_up ((d + n - 1) / n).

(** The exponent of the last of the 53 bits of a binary64 value near
    [n / d]; below [2 ^ (-1022)] the values are [2 ^ (-1074)] apart. *)
Definition ulp_exponent (n d : Z) : Z :=
  Z.max (float_exponent n d - 52) (-1074).

(** [n / d] in units of [2 ^ e], to the nearest integer. *)
Definition float_mantissa (n d e : Z) : Z :=
  round_half_even (Qmake (n * 2 ^ Z.max 0 (- e)) (Z.to_pos (d * 2 ^ Z.max 0 e))).

(** The [float] nearest to the rational [q], ties to the even mantissa:
    what [n / d] gives for [int]s and [float(Fraction(n, d))] for a
    fraction, with [OverflowError] when the result would be [2 ** 1024]
    or more in magnitude. *)
Definition to_float (q : Q) : result Q :=
  let n := Z.abs (Qnum q) in
  let d := Z.pos (Qden q) in
  if n =? 0 then Ok 0%Q
  else
    let e := ulp_exponent n d in
    let m := float_mantissa n d e in
    if 2 ^ 1024 <=? m * 2 ^ Z.max 0 e then Raise OverflowError
    else Ok (Qred (Qmake (Z.sgn (Qnum q) * m * 2 ^ Z.max 0 e)
                         (Z.to_pos (2 ^ Z.max 0 (- e))))).

(** [sys.float_info.max]: the largest [float]. *)
Definition max_float : Z := (2 ^ 53 - 1) * 2 ^ 971.

(** A number that the analysis computes: an [int], or a [float] given
    by the rational it equals. *)
Inductive number : Type :=
  | PInt (z : Z)
  | PFloat (q : Q).

Definition value (x : number) : Q :=
  match x with
  | PInt z => inject_Z z
  | PFloat q => q
  end.

Definition is_int (x : number) : bool :=
  match x with PInt _ => true | PFloat _ => false end.

(** [statistics.mean(data)] of [int]s and [float]s: the exact mean as a
    fraction, converted to [int] when every datum is an [int] and the
    mean is whole, and to [float] otherwise; [StatisticsError] on no
    data. *)
Definition mean (data : list number) : result number :=
  match data with
  | [] => Raise StatisticsError
  | _ =>
      let exact := Qred (Qsum (map value data)
                         / inject_Z (Z.of_nat (length data))) in
      if forallb is_int data && (Z.pos (Qden exact) =? 1)
      then Ok (PInt (Qnum exact))
      else PFloat <$> to_float exact
  end.

(** [statistics.median(data)] of [int]s: the middle one, or the two in
    the middle added and divided by 2, which gives a [float]. *)
Definition median (data : list Z) : result number :=
  match data with
  | [] => Raise StatisticsError
  | _ =>
      let s := sorted Z.leb data in
      let n := length s in
      if Nat.odd n then Ok (PInt (nth (n / 2) s 0))
      else PFloat <$> to_float (inject_Z (nth (n / 2 - 1) s 0 + nth (n / 2) s 0)
                                / 2)
  end.

(** [round(x, 2)]: an [int] is returned as it is; a [float] is rounded
    to two decimals on its exact value, ties to even, and the decimal
    is converted to the nearest [float]. *)
Definition round2 (x : number) : result number :=
  match x with
  | PInt z => Ok (PInt z)
  | PFloat q => PFloat <$> to_float (inject_Z (round_half_even (q * 100)) / 100)
  end.

(** Not of the library: the number is at most the largest [float] in
    magnitude. *)
Definition finite (x : number) : Prop :=
  (inject_Z (- max_float) <= value x)%Q /\ (value x <= inject_Z max_float)%Q.

(** [x < y] *)
Definition Qltb (x y : Q) : bool := negb (Qle_bool y x).

(** [x < y] for numbers: [int]s and [float]s compare by value. *)
Definition number_ltb (x y : number) : bool := Qltb (value x) (value y).

(** ** The [re] module, for patterns without repetition

    [Lit s] is the literal text [s], [Seq r1 r2] is [r1r2], [Alt r1 r2]
    is [r1|r2] and [Opt r] is [r?]. *)
Inductive regex : Type :=
  | Lit (s : string)
  | Seq (r1 r2 : regex)
  | Alt (r1 r2 : regex)
  | Opt (r : regex).

Fixpoint drop_str (n : nat) (s : string) : string :=
  match n, s with
  | S n', String _ s' => drop_str n' s'
  | _, _ => s
  end.

(** Every way [r] matches a prefix of [s], as the rest of [s] after it. *)
Fixpoint match_prefix (r : regex) (s : string) : list string :=
  match r with
  | Lit l => if String.prefix l s then [drop_str (String.length l) s] else []
  | Seq r1 r2 => flat_map (match_prefix r2) (match_prefix r1 s)
  | Alt r1 r2 => match_prefix r1 s ++ match_prefix r2 s
  | Opt r' => match_prefix r' s ++ [s]
  end.

Definition matches_at (r : regex) (s : string) : bool :=
  match match_prefix r s with [] => false | _ => true end.

(** [re.search(r, s)] as a truth value: a match at some position. *)
Fixpoint re_search (r : regex) (s : string) : bool :=
  matches_at r s ||
  match s with
  | EmptyString => false
  | String _ s' => re_search r s'
  end.

(** Not of the library's code: the texts that a pattern matches in
    full, by the meaning of the pattern. *)
Inductive in_language : regex -> string -> Prop :=
  | lang_lit (s : string) : in_language (Lit s) s
  | lang_seq (r1 r2 : regex) (s1 s2 : string) :
      in_language r1 s1 -> in_language r2 s2 ->
      in_language (Seq r1 r2) (s1 ++ s2)
  | lang_alt_l (r1 r2 : regex) (s : string) :
      in_language r1 s -> in_language (Alt r1 r2) s
  | lang_alt_r (r1 r2 : regex) (s : string) :
      in_language r2 s -> in_language (Alt r1 r2) s
  | lang_opt_none (r : regex) : in_language (Opt r) ""
  | lang_opt_some (r : regex) (s : string) :
      in_language r s -> in_language (Opt r) s.

(** ** [datetime] *)

(** The fields of a [datetime]; [utcoffset] is [None] for a naive value
    and the offset east of UTC, in microseconds, for an aware one. *)
Record datetime : Type := {
  year : Z; month : Z; day : Z;
  hour : Z; minute : Z; second : Z; microsecond : Z;
  utcoffset : option Z
}.

(** What [datetime.fromisoformat] guarantees of the value it returns
    ([MINYEAR] to [MAXYEAR], a month of the calendar). *)
Definition valid_month (d : datetime) : Prop :=
  1 <= year d <= 9999 /\ 1 <= month d <= 12.

Definition is_leap (y : Z) : bool :=
  (y mod 4 =? 0) && (negb (y mod 100 =? 0) || (y mod 400 =? 0)).

Definition days_before_year (y : Z) : Z :=
  let p := y - 1 in p * 365 + p / 4 - p / 100 + p / 400.

Definition days_before_month (y m : Z) : Z :=
  nth (Z.to_nat (m - 1)) [0; 31; 59; 90; 120; 151; 181; 212; 243; 273; 304; 334] 0
  + (if (2 <? m) && is_leap y then 1 else 0).

Definition ymd2ord (y m d : Z) : Z :=
  days_before_year y + days_before_month y m + d.

(** Position on the time line in microseconds: local time for a naive
    value, UTC for an aware one.  Two values of the same kind compare as
    their positions do. *)
Definition instant (d : datetime) : Z :=
  (((ymd2ord (year d) (month d) (day d) * 24 + hour d) * 60 + minute d) * 60
   + second d) * 1000000 + microsecond d - default 0 (utcoffset d).

Definition aware (d : datetime) : bool :=
  match utcoffset d with Some _ => true | None => false end.

(** Ordering a naive against an aware [datetime] raises [TypeError]; a
    sort of a list that holds both kinds has to compare two of them. *)
Definition mixed_awareness {A} (l : list (datetime * A)) : bool :=
  match l with
  | [] => false
  | x :: l' => existsb (fun y => xorb (aware (fst x)) (aware (fst y))) l'
  end.

(** [l.sort(key=lambda x: x[0])] on (datetime, _) pairs. *)
Definition sort_by_date {A} (l : list (datetime * A))
  : result (list (datetime * A)) :=
  if mixed_awareness l then Raise TypeError
  else Ok (sorted (fun a b => instant (fst a) <=? instant (fst b)) l).

(** Decimal digits zero-padded on the left to [width]. *)
Definition zero_pad (width : nat) (s : string) : string :=
  Nat.iter (width - String.length s) (String "0") s.

(** ['%Y-%m'] for year [y] and month [m]: the year in decimal without
    padding, as the C library of the platform formats it, and the month
    in two digits. *)
Definition year_month (y m : Z) : string :=
  str_of_int y ++ "-" ++ zero_pad 2 (str_of_int m).

(** [d.strftime('%Y-%m')] *)
Definition month_key (d : datetime) : string :=
  year_month (year d) (month d).

(** The calendar position of [d]'s month, in months. *)
Definition month_index (d : datetime) : Z := year d * 12 + month d.

(** The key of the [n]-th month counted from January of year 1. *)
Definition nth_month_key (n : Z) : string :=
  year_month (n / 12 + 1) (n mod 12 + 1).

(** One step of a run through the months in order, which records
    whether each key was below the next one. *)
Definition next_month_above (p : Z * bool) : Z * bool :=
  (fst p + 1,
   snd p && String.ltb (nth_month_key (fst p)) (nth_month_key (fst p + 1))).

(** ** Library functions the embedding is parametric in

    [int_of_str s] is [int(s)] and [fromisoformat s] is
    [datetime.fromisoformat(s)], with [None] for the [ValueError] either
    raises on a literal it rejects; [lower s] is [s.lower()]. *)
Class Runtime : Type := {
  int_of_str : string -> option Z;
  fromisoformat : string -> option datetime;
  lower : string -> string
}.

(** ** JSON values, as [json.loads] returns them *)

#[local] Set Warnings "-register-all".
Inductive json : Type :=
  | JNull                                  (* None *)
  | JBool (b : bool)
  | JNum (q : Q)
  | JStr (s : string)
  | JArr (l : list json)
  | JObj (d : list (string * json)).

(** [bool(v)] *)
Definition truthy (v : json) : bool :=
  match v with
  | JNull => false
  | JBool b => b
  | JNum q => negb (Qeq_bool q 0)
  | JStr s => negb (String.eqb s "")
  | JArr l => match l with [] => false | _ => true end
  | JObj d => match d with [] => false | _ => true end
  end.

(** [v == s] for a [str] [s] *)
Definition eq_str (v : json) (s : string) : bool :=
  match v with
  | JStr s' => String.eqb s' s
  | _ => false
  end.

Definition is_dict (v : json) : bool :=
  match v with JObj _ => true | _ => false end.

(** [k in v] for a [str] [k]: key of a dict, element of a list, substring
    of a str; anything else is not iterable. *)
Definition py_in (k : string) (v : json) : result bool :=
  match v with
  | JObj d => Ok (bool_decide (is_Some (dict_get k d)))
  | JArr l => Ok (existsb (fun x => eq_str x k) l)
  | JStr s => Ok (contains k s)
  | _ => Raise TypeError
  end.

(** [v[k]] for a [str] [k] *)
Definition getitem (v : json) (k : string) : result json :=
  match v with
  | JObj d => option_to_result KeyError (dict_get k d)
  | _ => Raise TypeError
  end.

(** [v.get(k, dflt)]: only a dict has the method. *)
Definition get (v : json) (k : string) (dflt : json) : result json :=
  match v with
  | JObj d => Ok (default dflt (dict_get k d))
  | _ => Raise AttributeError
  end.

Definition chars (s : string) : list json :=
  map JStr (code_points s).

(** The elements [for x in v] runs over. *)
Definition iter (v : json) : result (list json) :=
  match v with
  | JArr l => Ok l
  | JObj d => Ok (map (fun kv => JStr (fst kv)) d)
  | JStr s => Ok (chars s)
  | _ => Raise TypeError
  end.

(** [v.replace(old, new)]: only a str has the method. *)
Definition replace (v : json) (old new : string) : result string :=
  match v with
  | JStr s => Ok (str_replace old new s)
  | _ => Raise AttributeError
  end.

End Py.

(* ===================================================================== *)
(** * app_reviews_fetcher.py                                              *)
(* ===================================================================== *)

Module Fetcher.
Import Py.

Definition BASE_URL : string :=
  "https://itunes.apple.com/us/rss/customerreviews".
Definition DELAY_BETWEEN_REQUESTS : Z := 1.
Definition MAX_RETRIES : nat := 3.

(** What one [urllib.request.urlopen(url)] followed by
    [json.loads(response.read().decode('utf-8'))] comes to. *)
Inductive response : Type :=
  | Payload (data : json)   (* a body that parses *)
  | TransportError          (* HTTPError or URLError *)
  | JSONDecodeError         (* a body that does not parse *)
  | OtherError.             (* any exception [fetch_url] does not catch *)

(** The remote end: the response to a request for [url] when it is the
    [n]-th request of the session (counting from 0). *)
Definition network : Type := string -> nat -> response.

Inductive event : Type :=
  | Request (url : string)
  | Sleep (seconds : Z).

(** [self.session_stats], with the requests made and the observable
    effects (requests and sleeps) in the order they happened. *)
Record session : Type := {
  pages_fetched : nat;
  total_reviews : nat;
  errors : nat;
  requests : nat;
  trace : list event
}.

Definition init_session : session :=
  {| pages_fetched := 0; total_reviews := 0; errors := 0;
     requests := 0; trace := [] |}.

Definition do_request (url : string) (st : session) : session :=
  {| pages_fetched := pages_fetched st; total_reviews := total_reviews st;
     errors := errors st; requests := S (requests st);
     trace := trace st ++ [Request url] |}.

Definition do_sleep (seconds : Z) (st : session) : session :=
  {| pages_fetched := pages_fetched st; total_reviews := total_reviews st;
     errors := errors st; requests := requests st;
     trace := trace st ++ [Sleep seconds] |}.

Definition count_page (st : session) : session :=
  {| pages_fetched := S (pages_fetched st); total_reviews := total_reviews st;
     errors := errors st; requests := requests st; trace := trace st |}.

Definition count_error (st : session) : session :=
  {| pages_fetched := pages_fetched st; total_reviews := total_reviews st;
     errors := S (errors st); requests := requests st; trace := trace st |}.

Definition count_reviews (n : nat) (st : session) : session :=
  {| pages_fetched := pages_fetched st;
     total_reviews := (total_reviews st + n)%nat;
     errors := errors st; requests := requests st; trace := trace st |}.

(** How the body of a loop ends: fall through to the next iteration, or
    leave the loop ([return] in [fetch_url], [break] in the walk). *)
Inductive control (A B : Type) : Type :=
  | Continue (a : A)
  | Leave (b : B).
Arguments Continue {A B} a.
Arguments Leave {A B} b.

(** ** fetch_url *)

(** One iteration of [for attempt in range(self.MAX_RETRIES)]. *)
Definition fetch_attempt (net : network) (url : string) (attempt : nat)
    (st : session) : result (control unit json) * session :=
  let st1 := do_request url st in
  match net url (requests st) with
  | Payload data => (Ok (Leave data), count_page st1)
  | TransportError =>
      let st2 := count_error st1 in
      if (attempt <? MAX_RETRIES - 1)%nat
      then (Ok (Continue ()), do_sleep (2 ^ Z.of_nat attempt) st2)
      else (Ok (Leave JNull), st2)
  | JSONDecodeError => (Ok (Leave JNull), count_error st1)
  | OtherError => (Raise OtherException, st1)
  end.

(** The [for] loop; running out of attempts returns [None] implicitly. *)
Fixpoint fetch_attempts (net : network) (url : string) (attempts : list nat)
    (st : session) : result json * session :=
  match attempts with
  | [] => (Ok JNull, st)
  | attempt :: rest =>
      match fetch_attempt net url attempt st with
      | (Ok (Continue _), st') => fetch_attempts net url rest st'
      | (Ok (Leave v), st') => (Ok v, st')
      | (Raise e, st') => (Raise e, st')
      end
  end.

(** [fetch_url(url)]; the result [None] is [JNull]. *)
Definition fetch_url (net : network) (url : string) (st : session)
  : result json * session :=
  fetch_attempts net url (seq 0 MAX_RETRIES) st.

(** ** extract_reviews *)

(** [entry.get(k, {}).get('label', dflt)] *)
Definition label (entry : json) (k : string) (dflt : json) : result json :=
  v ← get entry k (JObj []); get v "label" dflt.

Definition review_of_entry (entry : json) : result json :=
  id ← label entry "id" (JStr "");
  name ← get entry "author" (JObj []);
  author ← label name "name" (JStr "");
  rating ← label entry "im:rating" (JStr "");
  version ← label entry "im:version" (JStr "");
  title ← label entry "title" (JStr "");
  content ← label entry "content" (JStr "");
  updated ← label entry "updated" (JStr "");
  vote_sum ← label entry "im:voteSum" (JStr "0");
  vote_count ← label entry "im:voteCount" (JStr "0");
  Ok (JObj [("id", id); ("author", author); ("rating", rating);
            ("version", version); ("title", title); ("content", content);
            ("updated", updated); ("vote_sum", vote_sum);
            ("vote_count", vote_count)]).

(** [if isinstance(v, dict): v = [v]] *)
Definition as_list (v : json) : json :=
  if is_dict v then JArr [v] else v.

Definition extract_reviews (data : json) : result (list json) :=
  has_feed ← py_in "feed" data;
  if has_feed : bool then
    feed ← getitem data "feed";
    has_entry ← py_in "entry" feed;
    if has_entry : bool then
      entries ← getitem feed "entry";
      items ← iter (as_list entries);
      map_result review_of_entry items
    else Ok []
  else Ok [].

(** ** get_next_page_url *)

(** The body of [for link in links]; the loop returns at the first link
    whose relation is 'next'. *)
Fixpoint find_next (links : list json) : result json :=
  match links with
  | [] => Ok JNull
  | link :: rest =>
      attributes ← get link "attributes" (JObj []);
      rel ← get attributes "rel" JNull;
      if eq_str rel "next" then
        attributes ← getitem link "attributes";
        next_url ← getitem attributes "href";
        has_xml ← py_in "xml" next_url;
        if has_xml : bool then
          next_url ← replace next_url "/xml" "/json";
          Ok (JStr (if contains "?urlDesc=" next_url
                    then split_head "?urlDesc=" next_url
                    else next_url))
        else Ok next_url
      else find_next rest
  end.

Definition get_next_page_url (data : json) : result json :=
  has_feed ← py_in "feed" data;
  if has_feed : bool then
    feed ← getitem data "feed";
    has_link ← py_in "link" feed;
    if has_link : bool then
      links ← getitem feed "link";
      items ← iter (as_list links);
      find_next items
    else Ok JNull
  else Ok JNull.

(** ** fetch_all_reviews *)

Record metadata : Type := {
  app_id : string;
  sort_by : string;
  total_pages : nat;
  meta_total_reviews : nat;
  app_name : option string
}.

(** The variables of the [while url:] loop. *)
Record walk : Type := {
  url : json;
  page_num : nat;
  all_reviews : list json;
  walk_app_name : option string
}.

(** [metadata['app_name']] is set from the first page that has a feed
    title, as long as it is unset or empty. *)
Definition note_app_name (data : json) (name : option string)
  : result (option string) :=
  has_feed ← py_in "feed" data;
  if has_feed : bool then
    feed ← getitem data "feed";
    has_title ← py_in "title" feed;
    if has_title && negb (truthy (from_option JStr JNull name)) then
      title ← getitem feed "title";
      lbl ← get title "label" (JStr "");
      name' ← replace lbl " Customer Reviews" "";
      Ok (Some name')
    else Ok name
  else Ok name.

(** What follows a successful fetch in the loop body. *)
Definition after_fetch (w : walk) (u : string) (data : json)
  : result (control walk walk) :=
  reviews ← extract_reviews data;
  name ← note_app_name data (walk_app_name w);
  next_url ← get_next_page_url data;
  if truthy next_url && negb (eq_str next_url u)
  then Ok (Continue {| url := next_url; page_num := S (page_num w);
                       all_reviews := all_reviews w ++ reviews;
                       walk_app_name := name |})
  else Ok (Leave {| url := url w; page_num := page_num w;
                    all_reviews := all_reviews w ++ reviews;
                    walk_app_name := name |}).

(** [if page_num > 1: time.sleep(self.DELAY_BETWEEN_REQUESTS)] *)
Definition rate_limit (w : walk) (st : session) : session :=
  if (1 <? page_num w)%nat then do_sleep DELAY_BETWEEN_REQUESTS st else st.

(** One iteration of [while url:].  A cursor that is not a [str] makes
    [urlopen] raise inside [fetch_url], which does not catch it. *)
Definition walk_body (net : network) (w : walk) (st : session)
  : result (control walk walk) * session :=
  let st1 := rate_limit w st in
  match url w with
  | JStr u =>
      match fetch_url net u st1 with
      | (Raise e, st2) => (Raise e, st2)
      | (Ok data, st2) =>
          if negb (truthy data) then (Ok (Leave w), st2)
          else (after_fetch w u data, st2)
      end
  | _ => (Raise AttributeError, st1)
  end.

(** The [while] loop.  It need not end, so it runs on [fuel]: [None]
    means the loop is still running when the fuel is spent. *)
Fixpoint walk_loop (fuel : nat) (net : network) (w : walk) (st : session)
  : option (result walk * session) :=
  match fuel with
  | O => None
  | S fuel' =>
      if truthy (url w) then
        match walk_body net w st with
        | (Ok (Continue w'), st') => walk_loop fuel' net w' st'
        | (Ok (Leave w'), st') => Some (Ok w', st')
        | (Raise e, st') => Some (Raise e, st')
        end
      else Some (Ok w, st)
  end.

Definition first_url (app sort : string) : string :=
  BASE_URL ++ "/page=1/id=" ++ app ++ "/sortby=" ++ sort ++ "/json".

Definition fetch_all_reviews (fuel : nat) (net : network)
    (app sort : string) (st : session)
  : option (result (list json * metadata) * session) :=
  let start := {| url := JStr (first_url app sort); page_num := 1;
                  all_reviews := []; walk_app_name := None |} in
  match walk_loop fuel net start st with
  | None => None
  | Some (Raise e, st') => Some (Raise e, st')
  | Some (Ok w, st') =>
      let n := length (all_reviews w) in
      Some (Ok (all_reviews w,
                {| app_id := app; sort_by := sort;
                   total_pages := page_num w; meta_total_reviews := n;
                   app_name := walk_app_name w |}),
            count_reviews n st')
  end.

(** ** Vocabulary for stating what the walk does on a finite feed

    These are not in the source. *)

(** The network answers every request for the page's cursor with the
    page, and the page is one the loop body gets through: it is truthy,
    its reviews can be extracted and its title, if any, can be read. *)
Definition served (net : network) (page : string * json) : Prop :=
  (forall n, net (fst page) n = Payload (snd page))
  /\ truthy (snd page) = true
  /\ (exists reviews, extract_reviews (snd page) = Ok reviews)
  /\ (forall name, exists name', note_app_name (snd page) name = Ok name').

(** The cursor that follows the pages before [rest]: the cursor of the
    first of [rest], and [last] when there is none. *)
Definition next_of (rest : list (string * json)) (last : json) : json :=
  match rest with
  | [] => last
  | (u', _) :: _ => JStr u'
  end.

(** Each page's next cursor is the cursor of the page after it, which
    is not empty and not its own; the next cursor of the last page is
    [last]. *)
Fixpoint chained (pages : list (string * json)) (last : json) : Prop :=
  match pages with
  | [] => True
  | (u, data) :: rest =>
      get_next_page_url data = Ok (next_of rest last)
      /\ match rest with
         | [] => True
         | (u', _) :: _ => u' <> "" /\ u' <> u
         end
      /\ chained rest last
  end.

(** The cursor of the last of the pages [(u, data) :: rest]. *)
Definition final_cursor (u : string) (rest : list (string * json)) : string :=
  fst (List.last rest (u, JNull)).

(** The reviews of the pages, in order. *)
Fixpoint reviews_of (pages : list (string * json)) : list json :=
  match pages with
  | [] => []
  | (_, data) :: rest =>
      match extract_reviews data with
      | Ok reviews => reviews ++ reviews_of rest
      | Raise _ => reviews_of rest
      end
  end.

(** The app name after the pages, from [name] before them. *)
Fixpoint names_of (pages : list (string * json)) (name : option string)
  : option string :=
  match pages with
  | [] => name
  | (_, data) :: rest =>
      match note_app_name data name with
      | Ok name' => names_of rest name'
      | Raise _ => names_of rest name
      end
  end.

(** The requests and sleeps of a walk that gets each of the pages at
    the first attempt, the first of them being page number [p]. *)
Fixpoint page_events (p : nat) (pages : list (string * json)) : list event :=
  match pages with
  | [] => []
  | (u, _) :: rest =>
      (if (1 <? p)%nat then [Sleep DELAY_BETWEEN_REQUESTS] else [])
      ++ Request u :: page_events (S p) rest
  end.

(** ** Vocabulary for stating what [get_next_page_url] does

    These are not in the source. *)

(** The loop over the links passes this one: its relation is read
    without an exception and is not 'next'. *)
Definition other_link (link : json) : Prop :=
  exists attributes rel,
    get link "attributes" (JObj []) = Ok attributes
    /\ get attributes "rel" JNull = Ok rel
    /\ eq_str rel "next" = false.

(** A link with the relation 'next' and the address [href]. *)
Definition next_link (link : json) (href : json) : Prop :=
  exists a attributes,
    link = JObj a
    /\ dict_get "attributes" a = Some (JObj attributes)
    /\ dict_get "rel" attributes = Some (JStr "next")
    /\ dict_get "href" attributes = Some href.

(** How many of the events are requests. *)
Definition count_requests (events : list event) : nat :=
  length (List.filter (fun e => match e with Request _ => true | _ => false end)
                      events).

(** How many of the events are sleeps. *)
Definition count_sleeps (events : list event) : nat :=
  length (List.filter (fun e => match e with Sleep _ => true | _ => false end)
                      events).

End Fetcher.

(* ===================================================================== *)
(** * review_analyzer.py                                                  *)
(* ===================================================================== *)

Module Analyzer.
Import Py.

(** A review as the snapshot files hold it: every field is the label
    text of the feed; [source] is added by [get_all_reviews]. *)
Record Review : Type := {
  id : string;
  author : string;
  rating : string;
  version : string;
  title : string;
  content : string;
  updated : string;
  vote_sum : string;
  vote_count : string;
  source : option string
}.

(** [review['source'] = src] *)
Definition set_source (review : Review) (src : string) : Review :=
  {| id := id review; author := author review; rating := rating review;
     version := version review; title := title review;
     content := content review; updated := updated review;
     vote_sum := vote_sum review; vote_count := vote_count review;
     source := Some src |}.

(** A loaded snapshot file. *)
Record Snapshot : Type := {
  snapshot_app_name : option string;
  reviews : list Review
}.

(** [self.reviews_data]; a file that was not found leaves [None]. *)
Record ReviewsData : Type := {
  most_helpful : option Snapshot;
  most_recent : option Snapshot
}.

Definition reviews_data_get (rd : ReviewsData) (src : string)
  : option Snapshot :=
  if String.eqb src "most_helpful" then most_helpful rd
  else if String.eqb src "most_recent" then most_recent rd
  else None.

(** ** get_all_reviews *)

(** The inner loop over one source: [(all_reviews, seen_ids)] is the
    state. *)
Definition merge_source (src : string)
    (acc : list Review * gset string) (revs : list Review)
  : list Review * gset string :=
  foldl (fun '(all_reviews, seen_ids) review =>
           if bool_decide (id review ∈ seen_ids)
           then (all_reviews, seen_ids)
           else (all_reviews ++ [set_source review src],
                 {[id review]} ∪ seen_ids))
        acc revs.

Definition get_all_reviews (rd : ReviewsData) : list Review :=
  fst (foldl (fun acc src =>
                match reviews_data_get rd src with
                | Some snapshot => merge_source src acc (reviews snapshot)
                | None => acc
                end)
             ([], ∅) ["most_helpful"; "most_recent"]).

(** ** Vocabulary for stating what the merge does

    These are not in the source: they say "first seen", "exactly once"
    and "the ordering that first supplied it". *)

(** The first review of [l] whose id is [i]. *)
Definition first_with_id (i : string) (l : list Review) : option Review :=
  List.find (fun r => String.eqb (id r) i) l.

(** How many reviews of [l] have the id [i]. *)
Definition occurrences (i : string) (l : list Review) : nat :=
  length (List.filter (fun r => String.eqb (id r) i) l).

(** The ordering that is first to supply the id [i], the most helpful
    reviews [helpful] being read before the most recent ones. *)
Definition first_source (i : string) (helpful : list Review) : string :=
  if existsb (fun r => String.eqb (id r) i) helpful
  then "most_helpful" else "most_recent".

(** ** load_reviews *)

(** [len(v)] *)
Definition len (v : json) : result nat :=
  match v with
  | JArr l => Ok (length l)
  | JObj d => Ok (length d)
  | JStr s => Ok (char_length s)
  | _ => Raise TypeError
  end.



Section WithRuntime.
Context `{Runtime}.

(** [int(review['rating'])] *)
Definition int_rating (review : Review) : result Z :=
  option_to_result ValueError (int_of_str (rating review)).

(** ** analyze_ratings_distribution *)

Record RatingStats : Type := {
  distribution : dict nat;
  total_reviews : nat;
  average_rating : number;
  median_rating : number;
  low_ratings_count : nat;
  high_ratings_count : nat
}.

Definition analyze_ratings_distribution (revs : list Review)
  : result RatingStats :=
  ratings ← map_result int_rating revs;
  let rating_counts := Counter ratings in
  let distribution :=
    dict_of_items (map (fun kv => (str_of_int (fst kv), snd kv)) rating_counts) in
  average ← mean (map PInt ratings);
  average_rating ← round2 average;
  median_rating ← median ratings;
  Ok {| distribution := distribution;
        total_reviews := length ratings;
        average_rating := average_rating;
        median_rating := median_rating;
        low_ratings_count := length (List.filter (fun r => r <=? 3) ratings);
        high_ratings_count := length (List.filter (fun r => 4 <=? r) ratings) |}.

(** ** analyze_temporal_trends *)

Record MonthStats : Type := { stats_count : nat; stats_ratings : list Z }.
Record MonthTrend : Type := { count : nat; avg_rating : number }.

Record TrendStats : Type := {
  monthly_trends : dict MonthTrend;
  recent_trend : string;
  recent_avg_rating : number
}.

(** The body of the [try]: any exception in it skips the review. *)
Definition parse_dated (review : Review) : option (datetime * Z) :=
  date ← fromisoformat (str_replace "Z" "+00:00" (updated review));
  r ← int_of_str (rating review);
  Some (date, r).

Definition dated_reviews (revs : list Review) : list (datetime * Z) :=
  omap parse_dated revs.

(** Not in the source: the review gets through the [try], that is, its
    timestamp parses and its rating converts. *)
Definition datable (review : Review) : Prop :=
  is_Some (fromisoformat (str_replace "Z" "+00:00" (updated review)))
  /\ is_Some (int_of_str (rating review)).

Definition add_rating (r : Z) (stats : MonthStats) : MonthStats :=
  {| stats_count := S (stats_count stats);
     stats_ratings := stats_ratings stats ++ [r] |}.

Definition group_by_month (dated : list (datetime * Z)) : dict MonthStats :=
  foldl (fun monthly_stats dr =>
           dict_upd {| stats_count := 0; stats_ratings := [] |}
                    (month_key (fst dr)) (add_rating (snd dr)) monthly_stats)
        [] dated.

(** [for month, stats in monthly_stats.items(): monthly_trends[month] = ...] *)
Fixpoint monthly_averages (items : list (string * MonthStats))
    (monthly_trends : dict MonthTrend) : result (dict MonthTrend) :=
  match items with
  | [] => Ok monthly_trends
  | (month, stats) :: rest =>
      average ← mean (map PInt (stats_ratings stats));
      avg_rating ← round2 average;
      monthly_averages rest
        (dict_set month {| count := stats_count stats;
                           avg_rating := avg_rating |} monthly_trends)
  end.

(** [[monthly_trends[m]['avg_rating'] for m in months if m in monthly_trends]] *)
Definition avg_ratings (months : list string) (monthly_trends : dict MonthTrend)
  : list number :=
  omap (fun m => avg_rating <$> dict_get m monthly_trends) months.

Definition recent_months (monthly_trends : dict MonthTrend) : list string :=
  slice (sorted_str (dict_keys monthly_trends)) (Some (-3)) None.

Definition previous_months (monthly_trends : dict MonthTrend) : list string :=
  slice (sorted_str (dict_keys monthly_trends)) (Some (-6)) (Some (-3)).

(** [(recent_avg, previous_avg)] *)
Definition trend_windows (monthly_trends : dict MonthTrend)
  : result (number * number) :=
  recent_avg ← mean (avg_ratings (recent_months monthly_trends) monthly_trends);
  previous_avg ←
    match previous_months monthly_trends with
    | [] => Ok recent_avg
    | months => mean (avg_ratings months monthly_trends)
    end;
  Ok (recent_avg, previous_avg).

Definition classify (recent_avg previous_avg : number) : string :=
  if number_ltb previous_avg recent_avg then "improving"
  else if number_ltb recent_avg previous_avg then "declining"
  else "stable".

(** The function up to the monthly averages. *)
Definition monthly_trends_of (revs : list Review) : result (dict MonthTrend) :=
  dated ← sort_by_date (dated_reviews revs);
  monthly_averages (group_by_month dated) [].

Definition analyze_temporal_trends (revs : list Review) : result TrendStats :=
  monthly_trends ← monthly_trends_of revs;
  windows ← trend_windows monthly_trends;
  recent_avg_rating ← round2 (fst windows);
  Ok {| monthly_trends :=
          dict_of_items (slice (sorted_items monthly_trends) (Some (-12)) None);
        recent_trend := classify (fst windows) (snd windows);
        recent_avg_rating := recent_avg_rating |}.

(** ** extract_keywords_and_issues *)

Definition issue_categories : list (string * list string) :=
  [("crashes_bugs", ["crash"; "bug"; "freeze"; "frozen"; "stuck"; "error";
                     "broken"; "fix"; "glitch"]);
   ("performance", ["slow"; "lag"; "loading"; "performance"; "speed";
                    "responsive"]);
   ("ui_ux", ["interface"; "design"; "confusing"; "intuitive"; "navigation";
              "layout"; "ui"; "ux"; "user experience"]);
   ("features", ["feature"; "missing"; "need"; "want"; "wish"; "add";
                 "implement"; "functionality"]);
   ("sync_data", ["sync"; "data"; "lost"; "backup"; "restore"; "cloud";
                  "save"]);
   ("pricing", ["expensive"; "price"; "cost"; "subscription"; "free"; "pay";
                "premium"]);
   ("search_discovery", ["search"; "find"; "discover"; "filter"; "sort"]);
   ("social", ["friends"; "social"; "share"; "community"; "follow";
               "profile"])].

Definition one_of (a b c : string) : regex := Alt (Lit a) (Alt (Lit b) (Lit c)).

Definition feature_patterns : list regex :=
  [ (* would be (nice|great|good) if *)
    Seq (Lit "would be ") (Seq (one_of "nice" "great" "good") (Lit " if"));
    (* wish (it|this|the app) *)
    Seq (Lit "wish ") (one_of "it" "this" "the app");
    (* should (add|have|include) *)
    Seq (Lit "should ") (one_of "add" "have" "include");
    (* needs? (to|a|an) *)
    Seq (Lit "need") (Seq (Opt (Lit "s")) (Seq (Lit " ") (one_of "to" "a" "an")));
    Lit "missing";
    Lit "please add";
    Lit "feature request" ].

(** An entry of an example list: the review's rating and an excerpt. *)
Record Sample : Type := { sample_rating : string; sample_excerpt : string }.

Record CategoryCount : Type := { cat_count : nat; examples : list Sample }.

Record IssueStats : Type := {
  issue_categories_found : dict CategoryCount;
  total_issues_found : nat;
  feature_requests_count : nat;
  feature_request_samples : list Sample
}.

(** [(review['title'] + ' ' + review['content']).lower()] *)
Definition text_of (review : Review) : string :=
  lower (title review ++ " " ++ content review).

Definition sample_of (n : nat) (review : Review) : Sample :=
  {| sample_rating := rating review;
     sample_excerpt := excerpt n (content review) |}.

(** [[r for r in reviews if int(r['rating']) <= 3]] *)
Fixpoint low_rated (revs : list Review) : result (list Review) :=
  match revs with
  | [] => Ok []
  | r :: rest =>
      z ← int_rating r;
      low ← low_rated rest;
      Ok (if z <=? 3 then r :: low else low)
  end.

(** The two statements under [if any(...)]. *)
Definition note_issue (review : Review) (c : CategoryCount) : CategoryCount :=
  {| cat_count := S (cat_count c);
     examples := if (length (examples c) <? 3)%nat
                 then examples c ++ [sample_of 200 review]
                 else examples c |}.

(** [for category, keywords in issue_categories.items()] for one review. *)
Definition categorize (category_counts : dict CategoryCount) (review : Review)
  : dict CategoryCount :=
  foldl (fun counts ck =>
           if any_in (snd ck) (text_of review)
           then dict_upd {| cat_count := 0; examples := [] |}
                         (fst ck) (note_issue review) counts
           else counts)
        category_counts issue_categories.

(** [for pattern in feature_patterns] for one review: the first pattern
    found appends the sample and breaks out of the loop. *)
Fixpoint scan_patterns (patterns : list regex) (review : Review)
    (feature_requests : list Sample) : list Sample :=
  match patterns with
  | [] => feature_requests
  | pattern :: rest =>
      if re_search pattern (text_of review)
      then feature_requests ++ [sample_of 300 review]
      else scan_patterns rest review feature_requests
  end.

Definition extract_keywords_and_issues (revs : list Review)
  : result IssueStats :=
  low_rated_reviews ← low_rated revs;
  let category_counts := foldl categorize [] low_rated_reviews in
  let feature_requests :=
    foldl (fun frs review => scan_patterns feature_patterns review frs)
          [] revs in
  Ok {| issue_categories_found := category_counts;
        total_issues_found :=
          sum_list (map cat_count (dict_values category_counts));
        feature_requests_count := length feature_requests;
        feature_request_samples := slice feature_requests None (Some 5) |}.

(** ** analyze_positive_aspects *)

Definition positive_keywords : list (string * list string) :=
  [("stats_analytics", ["stats"; "statistics"; "data"; "analytics"; "track";
                        "progress"; "graphs"]);
   ("recommendations", ["recommend"; "suggestion"; "discover"; "find new"]);
   ("ui_design", ["beautiful"; "clean"; "intuitive"; "easy to use"; "simple";
                  "design"]);
   ("features", ["feature"; "love"; "great"; "amazing"; "perfect";
                 "excellent"]);
   ("community", ["community"; "friends"; "social"; "share"]);
   ("organization", ["organize"; "track"; "list"; "collection"; "library"])].

Record PositiveStats : Type := {
  top_positive_aspects : dict nat;
  total_positive_reviews : nat
}.

(** [[r for r in reviews if int(r['rating']) >= 4]] *)
Fixpoint high_rated (revs : list Review) : result (list Review) :=
  match revs with
  | [] => Ok []
  | r :: rest =>
      z ← int_rating r;
      high ← high_rated rest;
      Ok (if 4 <=? z then r :: high else high)
  end.

(** [for category, keywords in positive_keywords.items()] for one review;
    [positive_counts] is a [defaultdict(int)]. *)
Definition count_positive (positive_counts : dict nat) (review : Review)
  : dict nat :=
  foldl (fun counts ck =>
           if any_in (snd ck) (text_of review)
           then dict_upd 0%nat (fst ck) S counts
           else counts)
        positive_counts positive_keywords.

(** [sorted(items, key=lambda x: x[1], reverse=True)]: by count, largest
    first, equal counts in the order they had. *)
Definition sorted_by_count : dict nat -> list (string * nat) :=
  sorted (fun kv1 kv2 => (snd kv2 <=? snd kv1)%nat).

Definition analyze_positive_aspects (revs : list Review)
  : result PositiveStats :=
  high_rated_reviews ← high_rated revs;
  let positive_counts := foldl count_positive [] high_rated_reviews in
  Ok {| top_positive_aspects :=
          dict_of_items (slice (sorted_by_count positive_counts) None (Some 5));
        total_positive_reviews := length high_rated_reviews |}.

(** ** generate_summary_report *)

Record Report : Type := {
  report_app_id : string;
  analysis_date : string;
  total_reviews_analyzed : nat;
  ratings : RatingStats;
  trends : TrendStats;
  issues : IssueStats;
  positives : PositiveStats;
  llm_insights : option json;
  report_app_name : option string
}.

(** [now] is [datetime.now().isoformat()].  [llm_analyze_issues] stands
    for the method of that name, which asks an external program and
    returns its answer or [None]; it is called when [use_llm] is set. *)
Definition generate_summary_report (app now : string) (use_llm : bool)
    (llm_analyze_issues : list Review -> json) (rd : ReviewsData)
  : result Report :=
  let all_reviews := get_all_reviews rd in
  ratings ← analyze_ratings_distribution all_reviews;
  trends ← analyze_temporal_trends all_reviews;
  issues ← extract_keywords_and_issues all_reviews;
  positives ← analyze_positive_aspects all_reviews;
  let llm_results := if use_llm then llm_analyze_issues all_reviews else JNull in
  Ok {| report_app_id := app;
        analysis_date := now;
        total_reviews_analyzed := length all_reviews;
        ratings := ratings;
        trends := trends;
        issues := issues;
        positives := positives;
        llm_insights := if use_llm && truthy llm_results
                        then Some llm_results else None;
        report_app_name :=
          (fun snapshot => default "Unknown" (snapshot_app_name snapshot))
            <$> most_helpful rd |}.

(** ** Vocabulary for stating what the extraction does

    These are not in the source: they say which reviews a category or
    the feature requests are to count, and what a category is to hold. *)

(** The review is kept for the issues: its rating converts, to 3 or
    less. *)
Definition low_rating (review : Review) : bool :=
  from_option (fun z => z <=? 3) false (int_of_str (rating review)).

(** The review is kept for the positive aspects: its rating converts,
    to 4 or more. *)
Definition high_rating (review : Review) : bool :=
  from_option (fun z => 4 <=? z) false (int_of_str (rating review)).

(** Some keyword of the list occurs in the review's lower-cased text. *)
Definition mentions (keywords : list string) (review : Review) : bool :=
  any_in keywords (text_of review).

(** What a category is to hold when [hits] are the reviews counted for
    it, in order: nothing for none, else their number and the samples of
    the first three. *)
Definition tally (hits : list Review) : option CategoryCount :=
  match hits with
  | [] => None
  | _ => Some {| cat_count := length hits;
                 examples := take 3 (map (sample_of 200) hits) |}
  end.

(** Some pattern of [feature_patterns] is found in the review's
    lower-cased text. *)
Definition requests_feature (review : Review) : bool :=
  existsb (fun pattern => re_search pattern (text_of review)) feature_patterns.

End WithRuntime.

End Analyzer.

(* ===================================================================== *)
(** * A reference runtime                                                 *)
(* ===================================================================== *)

(** An instance of [Py.Runtime] to run the embedding on concrete reviews.
    [int_literal] accepts an optional sign followed by decimal digits,
    [iso_datetime] accepts [YYYY-MM-DDTHH:MM:SS] with an optional
    [+HH:MM] or [-HH:MM], and [ascii_lower] lowers the letters A to Z.
    Each accepts fewer texts than the function it stands for: [int]
    also takes blanks around the digits and underscores between them,
    [datetime.fromisoformat] also takes a date alone, fractions of a
    second and other offsets, and [str.lower] also lowers letters
    outside ASCII.  They do what CPython's [int],
    [datetime.fromisoformat] and [str.lower] do on the texts of
    [Samples]: runs of digits, the empty string, timestamps of that
    shape, and text whose capital letters are all in ASCII. *)

Module Reference.
Import Py.

Definition digit (c : ascii) : option Z :=
  let n := Z.of_nat (nat_of_ascii c) in
  if (48 <=? n) && (n <=? 57) then Some (n - 48) else None.

Fixpoint digits (s : string) (acc : Z) : option Z :=
  match s with
  | EmptyString => Some acc
  | String c s' => d ← digit c; digits s' (10 * acc + d)
  end.

Definition number (s : string) : option Z :=
  match s with
  | EmptyString => None
  | _ => digits s 0
  end.

Definition int_literal (s : string) : option Z :=
  match s with
  | String "-" s' => Z.opp <$> number s'
  | String "+" s' => number s'
  | _ => number s
  end.

(** The [len] digits of [s] from position [pos]. *)
Definition field (s : string) (pos len : nat) : option Z :=
  let f := substring pos len s in
  if (String.length f =? len)%nat then number f else None.

Definition char_at (s : string) (pos : nat) (c : ascii) : bool :=
  match String.get pos s with
  | Some c' => Ascii.eqb c c'
  | None => false
  end.

Definition days_in_month (y m : Z) : Z :=
  if m =? 2 then (if is_leap y then 29 else 28)
  else if (m =? 4) || (m =? 6) || (m =? 9) || (m =? 11) then 30
  else 31.

(** The offset suffix: nothing (a naive value) or a sign and [HH:MM]. *)
Definition iso_offset (s : string) : option (option Z) :=
  match s with
  | EmptyString => Some None
  | String sign rest =>
      h ← field rest 0 2;
      m ← field rest 3 2;
      let us := (h * 3600 + m * 60) * 1000000 in
      if (String.length rest =? 5)%nat && char_at rest 2 ":"
         && (h <? 24) && (m <? 60)
      then if Ascii.eqb sign "+" then Some (Some us)
           else if Ascii.eqb sign "-" then Some (Some (- us))
           else None
      else None
  end.

Definition iso_datetime (s : string) : option datetime :=
  y ← field s 0 4;
  mo ← field s 5 2;
  d ← field s 8 2;
  h ← field s 11 2;
  mi ← field s 14 2;
  sec ← field s 17 2;
  off ← iso_offset (drop_str 19 s);
  if char_at s 4 "-" && char_at s 7 "-" && char_at s 10 "T"
     && char_at s 13 ":" && char_at s 16 ":"
     && (1 <=? y) && (1 <=? mo) && (mo <=? 12)
     && (1 <=? d) && (d <=? days_in_month y mo)
     && (h <? 24) && (mi <? 60) && (sec <? 60)
  then Some {| year := y; month := mo; day := d; hour := h; minute := mi;
               second := sec; microsecond := 0; utcoffset := off |}
  else None.

Definition ascii_lower_char (c : ascii) : ascii :=
  let n := nat_of_ascii c in
  if (65 <=? n)%nat && (n <=? 90)%nat then ascii_of_nat (n + 32) else c.

Fixpoint ascii_lower (s : string) : string :=
  match s with
  | EmptyString => EmptyString
  | String c s' => String (ascii_lower_char c) (ascii_lower s')
  end.

Definition runtime : Runtime :=
  {| int_of_str := int_literal;
     fromisoformat := iso_datetime;
     lower := ascii_lower |}.

End Reference.


(* ===================================================================== *)
(** * Sample networks and reviews                                         *)
(* ===================================================================== *)

Module Samples.
Import Py Fetcher Analyzer.

(** A network on which nothing is reachable. *)
Definition unreachable : network := fun _ _ => TransportError.

(** A feed entry with an id and a rating. *)
Definition entry (i : string) : json :=
  JObj [("id", JObj [("label", JStr i)]);
        ("im:rating", JObj [("label", JStr "5")])].

(** An element of the feed's link collection. *)
Definition link (rel href : string) : json :=
  JObj [("attributes", JObj [("rel", JStr rel); ("href", JStr href)])].

(** A page of the feed with one entry and a next link. *)
Definition page (i next : string) : json :=
  JObj [("feed", JObj [("entry", JArr [entry i]);
                       ("link", JArr [link "first" "first"; link "next" next])])].

Definition page_one : string := first_url "1" "mostrecent".
Definition page_two : string :=
  BASE_URL ++ "/page=2/id=1/sortby=mostrecent/json".

(** The next links as the feed publishes them: the XML variant, with a
    description parameter. *)
Definition href_one : string :=
  BASE_URL ++ "/page=1/id=1/sortby=mostrecent/xml?urlDesc=/customerreviews/page=2/id=1/sortby=mostrecent/json".
Definition href_two : string :=
  BASE_URL ++ "/page=2/id=1/sortby=mostrecent/xml?urlDesc=/customerreviews/page=1/id=1/sortby=mostrecent/json".

(** A feed of one page, whose link collection has no next link. *)
Definition single_page : network :=
  fun _ _ =>
    Payload (JObj [("feed", JObj [("entry", entry "1");
                                  ("link", link "first" "first")])]).

(** A page of the feed with one entry and no next link. *)
Definition last_page (i : string) : json :=
  JObj [("feed", JObj [("entry", JArr [entry i]);
                       ("link", JArr [link "first" "first"])])].

(** A feed of two pages: the first links to the second, which is the
    last. *)
Definition two_pages : network :=
  fun url _ =>
    if String.eqb url page_one then Payload (page "1" href_two)
    else Payload (last_page "2").

(** A feed whose first page links to a second page that cannot be
    reached. *)
Definition second_page_down : network :=
  fun url _ =>
    if String.eqb url page_one then Payload (page "1" href_two)
    else TransportError.

(** A feed all of whose pages link back to themselves. *)
Definition self_linked : network :=
  fun url _ => Payload (page "1" url).

(** A feed of two pages that link to each other. *)
Definition two_cycle : network :=
  fun url _ =>
    if String.eqb url page_one then Payload (page "1" href_two)
    else Payload (page "2" href_one).

(** A review with the given id, rating, title, content and timestamp. *)
Definition review (i r t c u : string) : Review :=
  {| id := i; author := "a reader"; rating := r; version := "1.0";
     title := t; content := c; updated := u;
     vote_sum := "0"; vote_count := "0"; source := None |}.

(** What [extract_reviews] makes of a feed entry without [im:rating]:
    the rating is the empty string. *)
Definition unrated : Review :=
  review "11" "" "No stars" "forgot to rate" "2024-01-15T10:00:00Z".

Definition five_stars : Review :=
  review "12" "5" "Great" "love the clean design" "2024-01-15T10:00:00Z".

Definition two_stars : Review :=
  review "13" "2" "Bad" "app crashes constantly" "2024-02-15T10:00:00Z".

(** The same id in both orderings, with different titles. *)
Definition seven_helpful : Review := review "7" "4" "first seen" "" "".
Definition seven_recent : Review := review "7" "4" "seen again" "" "".

(** A rating of a one and four hundred zeros. *)
Definition off_the_scale : Review :=
  review "15" (String "1" (Nat.iter 400 (String "0") "")) "Off the scale" ""
         "2024-01-15T10:00:00Z".

(** A content of 201 characters of two bytes each, the letter e with
    an acute accent. *)
Definition e_acute : string :=
  String (ascii_of_nat 195) (String (ascii_of_nat 169) "").

Definition accents (n : nat) : string := Nat.iter n (String.append e_acute) "".

Definition long_accents : Review :=
  review "16" "2" "Accents" (accents 201) "2024-01-15T10:00:00Z".

(** A low rating, a crash and a wish, in capitals in part. *)
Definition crash_report : Review :=
  review "14" "1" "Crashes" "It CRASHES on launch. Please add an offline mode."
         "2024-03-15T10:00:00Z".

(** One review a month from January to April 2024: one star, then five
    stars three times. *)
Definition four_months : list Review :=
  [review "21" "1" "" "" "2024-01-15T10:00:00Z";
   review "22" "5" "" "" "2024-02-15T10:00:00Z";
   review "23" "5" "" "" "2024-03-15T10:00:00Z";
   review "24" "5" "" "" "2024-04-15T10:00:00Z"].


(** One review a month from January 2023 to January 2024. *)
Definition thirteen_months : list Review :=
  [review "51" "3" "" "" "2023-01-15T10:00:00Z";
   review "52" "4" "" "" "2023-02-15T10:00:00Z";
   review "53" "4" "" "" "2023-03-15T10:00:00Z";
   review "54" "4" "" "" "2023-04-15T10:00:00Z";
   review "55" "4" "" "" "2023-05-15T10:00:00Z";
   review "56" "4" "" "" "2023-06-15T10:00:00Z";
   review "57" "4" "" "" "2023-07-15T10:00:00Z";
   review "58" "4" "" "" "2023-08-15T10:00:00Z";
   review "59" "4" "" "" "2023-09-15T10:00:00Z";
   review "60" "4" "" "" "2023-10-15T10:00:00Z";
   review "61" "5" "" "" "2023-11-15T10:00:00Z";
   review "62" "5" "" "" "2023-12-15T10:00:00Z";
   review "63" "5" "" "" "2024-01-15T10:00:00Z"].

(** A review of December 999 and one of January 1000. *)
Definition years_999_1000 : list Review :=
  [review "41" "4" "" "" "0999-12-15T10:00:00Z";
   review "42" "4" "" "" "1000-01-15T10:00:00Z"].

(** A timestamp without an offset and one with an offset. *)
Definition mixed_zones : list Review :=
  [review "31" "4" "" "" "2024-01-15T10:00:00";
   review "32" "4" "" "" "2024-02-15T10:00:00Z"].

(** Two snapshots that share a review. *)
Definition two_snapshots : ReviewsData :=
  {| most_helpful := Some {| snapshot_app_name := Some "Sample";
                             reviews := [two_stars; five_stars] |};
     most_recent := Some {| snapshot_app_name := None;
                            reviews := [five_stars; crash_report] |} |}.

End Samples.
(* ===================================================================== *)
(** * Facts about the runtime model                                       *)
(* ===================================================================== *)

Module PyFacts.
Import Py.
#[local] Set Warnings "-clear-no-such-hyp".

(** ** The error monad *)

Lemma bind_ok {A B} (m : result A) (f : A -> result B) b :
  (m ≫= f) = Ok b -> exists a, m = Ok a /\ f a = Ok b.
Proof. destruct m as [a|e]; [eauto | discriminate]. Qed.

Lemma map_result_ok {A B} (f : A -> result B) l ys :
  map_result f l = Ok ys -> Forall2 (fun x y => f x = Ok y) l ys.
Proof.
  revert ys. induction l as [|x l IH]; intros ys Hm; simpl in Hm.
  - injection Hm as <-. constructor.
  - apply bind_ok in Hm as (y & Hy & Hm).
    apply bind_ok in Hm as (ys' & Hys & Hm).
    injection Hm as <-. constructor; auto.
Qed.

Lemma map_result_total {A B} (f : A -> result B) l :
  (forall x, x ∈ l -> exists y, f x = Ok y) ->
  exists ys, map_result f l = Ok ys.
Proof.
  induction l as [|x l IH]; intros Hall; simpl.
  - eauto.
  - destruct (Hall x) as [y Hy]; [left|]. rewrite Hy.
    destruct IH as [ys Hys]; [intros; apply Hall; now right|].
    rewrite Hys. simpl. eauto.
Qed.

Lemma map_result_raise {A B} (f : A -> result B) l x e :
  x ∈ l -> f x = Raise e ->
  (forall y e', y ∈ l -> f y = Raise e' -> e' = e) ->
  map_result f l = Raise e.
Proof.
  induction l as [|y l IH]; intros Hin Hx Huniq.
  - now apply elem_of_nil in Hin.
  - simpl. destruct (f y) as [b|e'] eqn:Hy.
    + apply elem_of_cons in Hin as [-> | Hin]; [congruence|].
      simpl. rewrite IH; [reflexivity | assumption..|].
      intros z e'' Hz. apply Huniq. now right.
    + simpl. f_equal. apply (Huniq y); [left | assumption].
Qed.

(** ** [str] of an [int] is injective *)

Lemma to_int_not_nil (z : Z) :
  Z.to_int z <> Decimal.Pos Decimal.Nil /\ Z.to_int z <> Decimal.Neg Decimal.Nil.
Proof.
  destruct z as [|p|p]; simpl; split; try discriminate;
    intros [= Hp]; now apply DecimalPos.Unsigned.to_uint_nonnil in Hp.
Qed.

#[global] Instance str_of_int_inj : Inj (=) (=) str_of_int.
Proof.
  intros a b Heq. unfold str_of_int in Heq.
  apply (f_equal NilZero.int_of_string) in Heq.
  destruct (to_int_not_nil a) as [Ha1 Ha2].
  destruct (to_int_not_nil b) as [Hb1 Hb2].
  rewrite !NilZero.isi in Heq by assumption.
  injection Heq as Heq. now apply DecimalZ.to_int_inj.
Qed.

(** ** Dictionaries *)

Lemma dict_get_None {V} k (d : dict V) :
  dict_get k d = None <-> k ∉ dict_keys d.
Proof.
  induction d as [|[k' v] d IH]; simpl.
  - split; [intros _; apply not_elem_of_nil | reflexivity].
  - rewrite not_elem_of_cons. destruct (String.eqb_spec k k') as [-> | Hne].
    + split; [discriminate | intros [Hne _]; contradiction].
    + rewrite IH. tauto.
Qed.

Lemma dict_get_is_Some {V} k (d : dict V) :
  is_Some (dict_get k d) <-> k ∈ dict_keys d.
Proof.
  rewrite <- not_eq_None_Some, dict_get_None.
  destruct (decide (k ∈ dict_keys d)); tauto.
Qed.

Lemma dict_get_Some_elem {V} k (v : V) (d : dict V) :
  dict_get k d = Some v -> (k, v) ∈ d.
Proof.
  induction d as [|[k' v'] d IH]; cbn [dict_get]; [discriminate|].
  destruct (String.eqb_spec k k') as [-> | Hne].
  - intros [= ->]. left.
  - intros Hget. right. auto.
Qed.

Lemma dict_set_fresh {V} k (v : V) d :
  k ∉ dict_keys d -> dict_set k v d = d ++ [(k, v)].
Proof.
  induction d as [|[k' v'] d IH]; simpl; [reflexivity|].
  rewrite not_elem_of_cons. intros [Hne Hni].
  destruct (String.eqb_spec k k'); [contradiction|]. now rewrite IH.
Qed.

Lemma dict_set_keys {V} k (v : V) d :
  dict_keys (dict_set k v d)
  = if bool_decide (k ∈ dict_keys d) then dict_keys d else dict_keys d ++ [k].
Proof.
  unfold dict_keys. induction d as [|[k' v'] d IH]; [reflexivity|].
  cbn [dict_set map fst].
  destruct (String.eqb_spec k k') as [-> | Hne].
  - rewrite bool_decide_eq_true_2 by left. reflexivity.
  - cbn [map fst]. rewrite IH.
    destruct (decide (k ∈ map fst d)) as [Hin | Hin].
    + rewrite !bool_decide_eq_true_2; [reflexivity | now right | assumption].
    + rewrite !bool_decide_eq_false_2; [reflexivity | | assumption].
      rewrite not_elem_of_cons. auto.
Qed.

Lemma dict_set_NoDup {V} k (v : V) d :
  NoDup (dict_keys d) -> NoDup (dict_keys (dict_set k v d)).
Proof.
  intros Hnd. rewrite dict_set_keys. case_bool_decide as Hin; [assumption|].
  apply NoDup_app. repeat split; [assumption | | apply NoDup_singleton].
  intros x Hx Hx'. apply list_elem_of_singleton in Hx'. now subst.
Qed.

Lemma dict_get_set {V} k k' (v : V) d :
  dict_get k' (dict_set k v d)
  = if String.eqb k' k then Some v else dict_get k' d.
Proof.
  induction d as [|[k0 v0] d IH]; simpl.
  - destruct (String.eqb k' k); reflexivity.
  - destruct (String.eqb_spec k k0) as [-> | Hne]; simpl.
    + destruct (String.eqb k' k0); reflexivity.
    + destruct (String.eqb_spec k' k0) as [-> | Hne'].
      * destruct (String.eqb_spec k0 k); [congruence | reflexivity].
      * apply IH.
Qed.

Lemma dict_set_elem {V} k (v : V) d kv :
  kv ∈ dict_set k v d -> kv ∈ d \/ kv = (k, v).
Proof.
  induction d as [|[k' v'] d IH]; simpl.
  - intros Hin. apply list_elem_of_singleton in Hin. now right.
  - destruct (String.eqb k k').
    + intros Hin. apply elem_of_cons in Hin as [-> | Hin]; [now right|].
      left. now right.
    + intros Hin. apply elem_of_cons in Hin as [-> | Hin]; [left; left|].
      destruct (IH Hin) as [Hd | ->]; [left; now right | now right].
Qed.

Lemma dict_upd_keys {V} (dflt : V) k f d :
  dict_keys (dict_upd dflt k f d)
  = if bool_decide (k ∈ dict_keys d) then dict_keys d else dict_keys d ++ [k].
Proof. apply dict_set_keys. Qed.

Lemma dict_upd_NoDup {V} (dflt : V) k f d :
  NoDup (dict_keys d) -> NoDup (dict_keys (dict_upd dflt k f d)).
Proof. apply dict_set_NoDup. Qed.

Lemma dict_upd_key_elem {V} (dflt : V) k f d k' :
  k' ∈ dict_keys (dict_upd dflt k f d) <-> k' ∈ dict_keys d \/ k' = k.
Proof.
  rewrite dict_upd_keys. case_bool_decide as Hin.
  - split; [auto | intros [? | ->]; assumption].
  - rewrite elem_of_app, list_elem_of_singleton. tauto.
Qed.

(** [dict] of items with pairwise distinct keys keeps them as they are. *)
Lemma dict_of_items_app {V} (items : list (string * V)) : forall d,
  NoDup (dict_keys d ++ map fst items) ->
  foldl (fun d kv => dict_set (fst kv) (snd kv) d) d items = d ++ items.
Proof.
  induction items as [|[k v] items IH]; intros d Hnd; simpl.
  - now rewrite app_nil_r.
  - simpl in Hnd. rewrite dict_set_fresh.
    + rewrite IH; [now rewrite <- app_assoc|].
      unfold dict_keys. rewrite map_app, <- app_assoc. exact Hnd.
    + apply NoDup_app in Hnd as (_ & Hdisj & _).
      intros Hin. apply (Hdisj k Hin). left.
Qed.

Lemma dict_of_items_NoDup {V} (items : list (string * V)) :
  NoDup (map fst items) -> dict_of_items items = items.
Proof. intros Hnd. unfold dict_of_items. now rewrite dict_of_items_app. Qed.

(** ** [Counter] *)

Lemma counter_add_keys k c :
  map fst (counter_add k c)
  = if bool_decide (k ∈ map fst c) then map fst c else map fst c ++ [k].
Proof.
  induction c as [|[k' n] c IH]; [reflexivity|].
  cbn [counter_add map fst].
  destruct (Z.eqb_spec k k') as [-> | Hne].
  - rewrite bool_decide_eq_true_2 by left. reflexivity.
  - cbn [map fst]. rewrite IH.
    destruct (decide (k ∈ map fst c)) as [Hin | Hin].
    + rewrite !bool_decide_eq_true_2; [reflexivity | now right | assumption].
    + rewrite !bool_decide_eq_false_2; [reflexivity | | assumption].
      rewrite not_elem_of_cons. auto.
Qed.

Lemma counter_add_total k c :
  sum_list (map snd (counter_add k c)) = S (sum_list (map snd c)).
Proof.
  induction c as [|[k' n] c IH]; simpl; [reflexivity|].
  destruct (Z.eqb k k'); simpl; [reflexivity|]. rewrite IH. lia.
Qed.

Lemma Counter_spec l :
  NoDup (map fst (Counter l))
  /\ sum_list (map snd (Counter l)) = length l.
Proof.
  unfold Counter.
  enough (Hgen : forall c, NoDup (map fst c) ->
            NoDup (map fst (foldl (fun c k => counter_add k c) c l))
            /\ sum_list (map snd (foldl (fun c k => counter_add k c) c l))
               = (sum_list (map snd c) + length l)%nat).
  { apply (Hgen []). constructor. }
  induction l as [|k l IH]; intros c Hnd; simpl.
  - split; [assumption | lia].
  - destruct (IH (counter_add k c)) as [Hnd' Hsum].
    + rewrite counter_add_keys. case_bool_decide as Hin; [assumption|].
      apply NoDup_app. repeat split; [assumption | | apply NoDup_singleton].
      intros x Hx Hx'. apply list_elem_of_singleton in Hx'. now subst.
    + split; [assumption|]. rewrite Hsum, counter_add_total. lia.
Qed.

(** ** [sorted] *)

Section SortedFacts.
Context {A : Type} (leb : A -> A -> bool).

Lemma insert_sorted_perm x l : insert_sorted leb x l ≡ₚ x :: l.
Proof.
  induction l as [|y l IH]; simpl; [reflexivity|].
  destruct (leb x y); [reflexivity|].
  rewrite IH. apply Permutation_swap.
Qed.

Lemma sorted_perm l : sorted leb l ≡ₚ l.
Proof.
  induction l as [|x l IH]; simpl; [reflexivity|].
  rewrite insert_sorted_perm. now rewrite IH.
Qed.

Lemma sorted_length l : length (sorted leb l) = length l.
Proof. apply Permutation_length, sorted_perm. Qed.

Hypothesis leb_total : forall a b, leb a b = true \/ leb b a = true.
Hypothesis leb_trans : Transitive (leR leb).

Lemma insert_sorted_sorted x l :
  StronglySorted (leR leb) l -> StronglySorted (leR leb) (insert_sorted leb x l).
Proof using leb_total leb_trans.
  induction l as [|y l IH]; simpl; intros Hs.
  - repeat constructor.
  - apply StronglySorted_cons in Hs as [Hy Hs].
    destruct (leb x y) eqn:Hxy.
    + apply StronglySorted_cons. split.
      * constructor; [exact Hxy|].
        eapply Forall_impl; [exact Hy|]. intros z Hz.
        now apply (leb_trans x y z).
      * now apply StronglySorted_cons.
    + apply StronglySorted_cons. split; [|auto].
      rewrite insert_sorted_perm. constructor; [|assumption].
      destruct (leb_total x y); [congruence | assumption].
Qed.

Lemma sorted_sorted l : StronglySorted (leR leb) (sorted leb l).
Proof using leb_total leb_trans.
  induction l as [|x l IH]; simpl; [constructor|].
  now apply insert_sorted_sorted.
Qed.

End SortedFacts.

Lemma StronglySorted_lookup {A} (R : relation A) (l : list A) :
  StronglySorted R l ->
  forall (i j : nat) (x y : A),
    l !! i = Some x -> l !! j = Some y -> (i < j)%nat -> R x y.
Proof.
  induction 1 as [|a l Hs IH Hall]; intros i j x y Hi Hj Hij.
  - discriminate.
  - destruct j as [|j]; [lia|]. destruct i as [|i]; cbn in Hi, Hj.
    + injection Hi as <-. rewrite Forall_forall in Hall.
      eapply Hall, list_elem_of_lookup_2, Hj.
    + eapply IH; [exact Hi | exact Hj | lia].
Qed.

(** ** The order of [str] *)

Lemma ltb_lt s1 s2 : String.ltb s1 s2 = true <-> String_as_OT.lt s1 s2.
Proof.
  unfold String.ltb. rewrite <- String_as_OT.cmp_lt.
  unfold String_as_OT.cmp. destruct (String.compare s1 s2); split; congruence.
Qed.

Lemma ltb_trans s1 s2 s3 :
  String.ltb s1 s2 = true -> String.ltb s2 s3 = true -> String.ltb s1 s3 = true.
Proof. rewrite !ltb_lt. apply String_as_OT.lt_trans. Qed.

Lemma ltb_irrefl s : String.ltb s s = false.
Proof.
  destruct (String.ltb s s) eqn:E; [|reflexivity].
  apply ltb_lt, String_as_OT.lt_not_eq in E. now destruct E.
Qed.

Lemma leb_ltb s1 s2 :
  String.leb s1 s2 = true <-> String.ltb s1 s2 = true \/ s1 = s2.
Proof.
  unfold String.leb, String.ltb.
  destruct (String.compare s1 s2) eqn:E.
  - apply String.compare_eq_iff in E. tauto.
  - tauto.
  - split; [discriminate|]. intros [? | ->]; [discriminate|].
    pose proof (String.compare_antisym s2 s2) as Ha. rewrite E in Ha.
    discriminate.
Qed.

Lemma leb_trans s1 s2 s3 :
  String.leb s1 s2 = true -> String.leb s2 s3 = true -> String.leb s1 s3 = true.
Proof.
  rewrite !leb_ltb. intros [H1 | ->] [H2 | ->]; eauto using ltb_trans.
Qed.

Lemma sorted_str_perm l : sorted_str l ≡ₚ l.
Proof. apply sorted_perm. Qed.

Lemma sorted_str_length l : length (sorted_str l) = length l.
Proof. apply sorted_length. Qed.

Lemma sorted_items_perm {V} (d : dict V) : sorted_items d ≡ₚ d.
Proof. apply sorted_perm. Qed.

Lemma sorted_items_length {V} (d : dict V) :
  length (sorted_items d) = length d.
Proof. apply sorted_length. Qed.

Lemma sorted_items_strict {V} (d : dict V) :
  NoDup (dict_keys d) ->
  StronglySorted (fun a b => String.ltb a b = true) (dict_keys (sorted_items d)).
Proof.
  intros Hnd.
  assert (Hs : StronglySorted
                 (leR (fun kv1 kv2 : string * V => String.leb (fst kv1) (fst kv2)))
                 (sorted_items d)).
  { apply sorted_sorted; [intros a b; apply String.leb_total|].
    intros a b c. apply leb_trans. }
  assert (Hnd' : NoDup (dict_keys (sorted_items d))).
  { unfold dict_keys. now rewrite sorted_items_perm. }
  unfold dict_keys in *.
  induction Hs as [|x k Hk IH Hall]; [constructor|].
  cbn [map] in *. apply NoDup_cons in Hnd' as [Hx Hnd'].
  constructor; [now apply IH|].
  apply Forall_forall. intros y Hy.
  apply list_elem_of_fmap in Hy as (kv & -> & Hkv).
  rewrite Forall_forall in Hall. specialize (Hall kv Hkv).
  apply leb_ltb in Hall as [Hlt | Heq]; [assumption|].
  exfalso. apply Hx. rewrite Heq. apply list_elem_of_fmap.
  exists kv. split; [reflexivity | assumption].
Qed.

(** ** Slices *)

Lemma slice_sublist {A} (l : list A) a b : slice l a b `sublist_of` l.
Proof.
  unfold slice. etransitivity; [apply sublist_take | apply sublist_drop].
Qed.

(** [l[-k:]] is the last [k] elements. *)
Lemma slice_last {A} (l : list A) (k : nat) :
  (0 < k)%nat ->
  slice l (Some (- Z.of_nat k)) None = drop (length l - k) l.
Proof.
  intros Hk. unfold slice, slice_bound. cbn [from_option id].
  destruct (Z.ltb_spec (- Z.of_nat k) 0); [|lia].
  destruct (Z.ltb_spec (Z.of_nat (length l)) 0); [lia|].
  replace (Z.to_nat (Z.max 0 (- Z.of_nat k + Z.of_nat (length l))))
    with (length l - k)%nat by lia.
  apply take_ge. rewrite length_drop. lia.
Qed.

(** [l[:k]] is the first [k] elements. *)
Lemma slice_first {A} (l : list A) (k : nat) :
  slice l None (Some (Z.of_nat k)) = take k l.
Proof.
  unfold slice, slice_bound. cbn [from_option id].
  destruct (Z.ltb_spec 0 0); [lia|].
  destruct (Z.ltb_spec (Z.of_nat k) 0); [lia|].
  replace (Z.to_nat (Z.min 0 (Z.of_nat (length l)))) with 0%nat by lia.
  rewrite drop_0.
  destruct (decide (k <= length l)%nat).
  - f_equal. lia.
  - rewrite !take_ge by lia. reflexivity.
Qed.

(** [l[-2k:-k]] is empty when [l] has at most [k] elements. *)
Lemma slice_before_last_nil {A} (l : list A) (k : nat) :
  (0 < k)%nat -> (length l <= k)%nat ->
  slice l (Some (- Z.of_nat (2 * k))) (Some (- Z.of_nat k)) = [].
Proof.
  intros Hk Hlen. unfold slice, slice_bound. cbn [from_option id].
  destruct (Z.ltb_spec (- Z.of_nat (2 * k)) 0); [|lia].
  destruct (Z.ltb_spec (- Z.of_nat k) 0); [|lia].
  replace (Z.to_nat _) with 0%nat by lia. reflexivity.
Qed.

End PyFacts.
(* ===================================================================== *)
(** * Facts about numbers                                                 *)
(* ===================================================================== *)

Module NumberFacts.
Import Py PyFacts.
#[local] Set Warnings "-clear-no-such-hyp".

(** ** Rounding to the nearest integer *)

Lemma round_half_even_lower (n d lo : Z) :
  0 < d -> lo * d <= n -> lo <= round_half_even (Qmake n (Z.to_pos d)).
Proof.
  intros Hd Hlo. unfold round_half_even. cbn [Qnum Qden].
  rewrite Z2Pos.id by assumption.
  pose proof (Z.div_mod n d ltac:(lia)) as Hdiv.
  pose proof (Z.mod_pos_bound n d Hd) as Hmod.
  set (fl := n / d) in *. set (r := n mod d) in *.
  assert (lo <= fl) by nia.
  destruct (Z.ltb_spec (2 * r) d); [lia|].
  destruct (Z.ltb_spec d (2 * r)); [lia|].
  destruct (Z.even fl); lia.
Qed.

Lemma round_half_even_upper (n d hi : Z) :
  0 < d -> n <= hi * d -> round_half_even (Qmake n (Z.to_pos d)) <= hi.
Proof.
  intros Hd Hhi. unfold round_half_even. cbn [Qnum Qden].
  rewrite Z2Pos.id by assumption.
  pose proof (Z.div_mod n d ltac:(lia)) as Hdiv.
  pose proof (Z.mod_pos_bound n d Hd) as Hmod.
  set (fl := n / d) in *. set (r := n mod d) in *.
  assert (fl <= hi) by nia.
  destruct (Z.ltb_spec (2 * r) d); [lia|].
  assert (fl + 1 <= hi) by nia.
  destruct (Z.ltb_spec d (2 * r)); [lia|].
  destruct (Z.even fl); lia.
Qed.

Lemma float_exponent_spec (n d : Z) :
  0 < n -> 0 < d ->
  let k := float_exponent n d in
  d * 2 ^ Z.max 0 k <= n * 2 ^ Z.max 0 (- k)
  /\ n * 2 ^ Z.max 0 (- (k + 1)) < d * 2 ^ Z.max 0 (k + 1).
Proof.
  intros Hn Hd. unfold float_exponent.
  destruct (Z.leb_spec d n) as [Hle | Hlt]; cbv zeta.
  - assert (0 < n / d) as Hq by (apply Z.div_str_pos; lia).
    pose proof (Z.log2_spec (n / d) Hq) as [Hlow Hup].
    pose proof (Z.log2_nonneg (n / d)) as Hk.
    pose proof (Z.div_mod n d ltac:(lia)) as Hdiv.
    pose proof (Z.mod_pos_bound n d Hd) as Hmod.
    set (k := Z.log2 (n / d)) in *.
    rewrite (Z.max_r 0 k), (Z.max_l 0 (- k)), (Z.max_l 0 (- (k + 1))),
      (Z.max_r 0 (k + 1)) by lia.
    change (Z.succ k) with (k + 1) in Hup. rewrite !Z.pow_0_r.
    set (p := 2 ^ k) in *. set (p' := 2 ^ (k + 1)) in *.
    set (q := n / d) in *. clearbody p p' q.
    assert (d * p <= d * q) by (apply Z.mul_le_mono_nonneg_l; lia).
    assert (d * (q + 1) <= d * p') by (apply Z.mul_le_mono_nonneg_l; lia).
    split; lia.
  - set (c := (d + n - 1) / n).
    pose proof (Z.div_mod (d + n - 1) n ltac:(lia)) as Hdiv.
    pose proof (Z.mod_pos_bound (d + n - 1) n Hn) as Hmod.
    fold c in Hdiv.
    assert (1 < c) as Hc by nia.
    pose proof (Z.log2_up_spec c Hc) as [Hlow Hup].
    assert (0 < Z.log2_up c) as Hj by (apply Z.log2_up_pos; lia).
    set (j := Z.log2_up c) in *.
    replace (- - j) with j by lia.
    replace (- (- j + 1)) with (Z.pred j) by lia.
    rewrite (Z.max_l 0 (- j)) by lia. rewrite (Z.max_r 0 j) by lia.
    rewrite (Z.max_r 0 (Z.pred j)) by lia. rewrite (Z.max_l 0 (- j + 1)) by lia.
    rewrite !Z.pow_0_r.
    set (p := 2 ^ j) in *. set (p' := 2 ^ Z.pred j) in *.
    clearbody p p' c.
    assert (n * c <= n * p) by (apply Z.mul_le_mono_nonneg_l; lia).
    assert (n * (p' + 1) <= n * c) by (apply Z.mul_le_mono_nonneg_l; lia).
    split; lia.
Qed.

(** ** The nearest [float]

    [n / d < 2 ^ a] and [a <= b] give [n / d < 2 ^ b], in integers. *)
Lemma scale_lt (n d a b : Z) :
  0 < n -> 0 < d -> a <= b ->
  n * 2 ^ Z.max 0 (- a) < d * 2 ^ Z.max 0 a ->
  n * 2 ^ Z.max 0 (- b) < d * 2 ^ Z.max 0 b.
Proof.
  intros Hn Hd Hab.
  destruct (Z.le_gt_cases 0 a) as [Ha | Ha], (Z.le_gt_cases 0 b) as [Hb | Hb];
    try lia.
  - rewrite (Z.max_l 0 (- a)), (Z.max_r 0 a), (Z.max_l 0 (- b)), (Z.max_r 0 b)
      by lia.
    rewrite !Z.pow_0_r. pose proof (Z.pow_le_mono_r 2 a b ltac:(lia) Hab).
    pose proof (Z.pow_pos_nonneg 2 a ltac:(lia) Ha). nia.
  - rewrite (Z.max_r 0 (- a)), (Z.max_l 0 a), (Z.max_l 0 (- b)), (Z.max_r 0 b)
      by lia.
    rewrite !Z.pow_0_r.
    pose proof (Z.pow_pos_nonneg 2 (- a) ltac:(lia) ltac:(lia)).
    pose proof (Z.pow_pos_nonneg 2 b ltac:(lia) Hb). nia.
  - rewrite (Z.max_r 0 (- a)), (Z.max_l 0 a), (Z.max_r 0 (- b)), (Z.max_l 0 b)
      by lia.
    rewrite !Z.pow_0_r.
    pose proof (Z.pow_le_mono_r 2 (- b) (- a) ltac:(lia) ltac:(lia)).
    pose proof (Z.pow_pos_nonneg 2 (- b) ltac:(lia) ltac:(lia)). nia.
Qed.

(** [n / d < 2 ^ (e + 53)] gives [n / 2 ^ e < 2 ^ 53 * d]. *)
Lemma scale_53 (n d e : Z) :
  0 < n -> 0 < d ->
  n * 2 ^ Z.max 0 (- (e + 53)) < d * 2 ^ Z.max 0 (e + 53) ->
  n * 2 ^ Z.max 0 (- e) < 2 ^ 53 * (d * 2 ^ Z.max 0 e).
Proof.
  intros Hn Hd.
  destruct (Z.le_gt_cases 0 e) as [He | He].
  - rewrite (Z.max_l 0 (- (e + 53))), (Z.max_r 0 (e + 53)), (Z.max_l 0 (- e)),
      (Z.max_r 0 e) by lia.
    rewrite Z.pow_add_r, !Z.pow_0_r by lia. lia.
  - destruct (Z.le_gt_cases 0 (e + 53)) as [He' | He'].
    + rewrite (Z.max_l 0 (- (e + 53))), (Z.max_r 0 (e + 53)), (Z.max_r 0 (- e)),
        (Z.max_l 0 e) by lia.
      rewrite !Z.pow_0_r. intros Hlt.
      assert (2 ^ 53 = 2 ^ (e + 53) * 2 ^ (- e)) as ->
        by (rewrite <- Z.pow_add_r by lia; f_equal; lia).
      pose proof (Z.pow_pos_nonneg 2 (- e) ltac:(lia) ltac:(lia)).
      set (p := 2 ^ (e + 53)) in *. set (p' := 2 ^ (- e)) in *.
      clearbody p p'. nia.
    + rewrite (Z.max_r 0 (- (e + 53))), (Z.max_l 0 (e + 53)), (Z.max_r 0 (- e)),
        (Z.max_l 0 e) by lia.
      rewrite !Z.pow_0_r. intros Hlt.
      assert (2 ^ (- e) = 2 ^ (- (e + 53)) * 2 ^ 53) as ->
        by (rewrite <- Z.pow_add_r by lia; f_equal; lia).
      set (p := 2 ^ (- (e + 53))) in *. clearbody p. lia.
Qed.

Lemma float_mantissa_lower (n d e lo : Z) :
  0 < d ->
  lo * (d * 2 ^ Z.max 0 e) <= n * 2 ^ Z.max 0 (- e) ->
  lo <= float_mantissa n d e.
Proof.
  intros Hd Hlo. unfold float_mantissa.
  apply round_half_even_lower; [|assumption].
  pose proof (Z.pow_pos_nonneg 2 (Z.max 0 e) ltac:(lia) ltac:(lia)). nia.
Qed.

Lemma float_mantissa_upper (n d e hi : Z) :
  0 < d ->
  n * 2 ^ Z.max 0 (- e) <= hi * (d * 2 ^ Z.max 0 e) ->
  float_mantissa n d e <= hi.
Proof.
  intros Hd Hhi. unfold float_mantissa.
  apply round_half_even_upper; [|assumption].
  pose proof (Z.pow_pos_nonneg 2 (Z.max 0 e) ltac:(lia) ltac:(lia)). nia.
Qed.

(** The mantissa has at most 53 bits. *)
Lemma float_mantissa_53 (n d : Z) :
  0 < n -> 0 < d ->
  0 <= float_mantissa n d (ulp_exponent n d) <= 2 ^ 53.
Proof.
  intros Hn Hd. destruct (float_exponent_spec n d Hn Hd) as [_ Hup].
  cbv zeta in Hup. set (e := ulp_exponent n d).
  assert (float_exponent n d + 1 <= e + 53) as He by (unfold e, ulp_exponent; lia).
  pose proof (scale_53 n d e Hn Hd (scale_lt n d _ _ Hn Hd He Hup)) as Hlt.
  pose proof (Z.pow_pos_nonneg 2 (Z.max 0 e) ltac:(lia) ltac:(lia)).
  pose proof (Z.pow_pos_nonneg 2 (Z.max 0 (- e)) ltac:(lia) ltac:(lia)).
  split; [apply float_mantissa_lower | apply float_mantissa_upper];
    try assumption; nia.
Qed.

(** [to_float] returns for magnitudes below 2^1023. *)
Lemma to_float_total (q : Q) :
  Z.abs (Qnum q) < 2 ^ 1023 * Z.pos (Qden q) ->
  exists r, to_float q = Ok r.
Proof.
  intros Hq. unfold to_float. cbv zeta.
  destruct (Z.eqb_spec (Z.abs (Qnum q)) 0) as [|Hnz]; [eauto|].
  set (n := Z.abs (Qnum q)) in *. set (d := Z.pos (Qden q)) in *.
  assert (0 < n) as Hn by lia. assert (0 < d) as Hd by (unfold d; lia).
  destruct (float_exponent_spec n d Hn Hd) as [Hlow _]. cbv zeta in Hlow.
  pose proof (float_mantissa_53 n d Hn Hd) as Hm.
  set (k := float_exponent n d) in *.
  assert (k <= 1022) as Hk.
  { destruct (Z.le_gt_cases k 1022) as [|Hbig]; [assumption|]. exfalso.
    rewrite (Z.max_r 0 k), (Z.max_l 0 (- k)), Z.pow_0_r in Hlow by lia.
    pose proof (Z.pow_le_mono_r 2 1023 k ltac:(lia) ltac:(lia)).
    set (p := 2 ^ k) in *. set (p' := 2 ^ 1023) in *. clearbody p p'. nia. }
  set (e := ulp_exponent n d) in *.
  assert (e <= 970) as He by (unfold e, ulp_exponent; fold k; lia).
  destruct (Z.leb_spec (2 ^ 1024) (float_mantissa n d e * 2 ^ Z.max 0 e))
    as [Hover|]; [|eauto].
  exfalso.
  pose proof (Z.pow_le_mono_r 2 (Z.max 0 e) 970 ltac:(lia) ltac:(lia)) as Hp.
  pose proof (Z.pow_pos_nonneg 2 (Z.max 0 e) ltac:(lia) ltac:(lia)).
  assert (2 ^ 1024 = 2 ^ 53 * 2 ^ 970 * 2) as Heq by reflexivity.
  assert (0 < 2 ^ 53) by reflexivity. assert (0 < 2 ^ 970) by reflexivity.
  set (m := float_mantissa n d e) in *. set (p := 2 ^ Z.max 0 e) in *.
  set (a := 2 ^ 53) in *. set (b := 2 ^ 970) in *. set (c := 2 ^ 1024) in *.
  clearbody m p a b c.
  assert (m * p <= a * b) by (apply Z.mul_le_mono_nonneg; lia). nia.
Qed.

(** Rounding does not cross an integer of at most 53 bits. *)
Lemma to_float_magnitude (n d b : Z) :
  0 < n -> 0 < d -> 0 <= b <= 2 ^ 53 ->
  let e := ulp_exponent n d in
  let m := float_mantissa n d e in
  (b * d <= n -> b * 2 ^ Z.max 0 (- e) <= m * 2 ^ Z.max 0 e)
  /\ (n <= b * d -> m * 2 ^ Z.max 0 e <= b * 2 ^ Z.max 0 (- e)).
Proof.
  intros Hn Hd Hb e m.
  destruct (Z.le_gt_cases e 0) as [He | He].
  - pose proof (Z.pow_pos_nonneg 2 (- e) ltac:(lia) ltac:(lia)) as Hp.
    split; intros Hbn.
    + rewrite (Z.max_l 0 e), (Z.max_r 0 (- e)), Z.pow_0_r, Z.mul_1_r by lia.
      apply float_mantissa_lower; [assumption|].
      rewrite (Z.max_l 0 e), (Z.max_r 0 (- e)), Z.pow_0_r by lia. nia.
    + rewrite (Z.max_l 0 e), (Z.max_r 0 (- e)), Z.pow_0_r, Z.mul_1_r by lia.
      apply float_mantissa_upper; [assumption|].
      rewrite (Z.max_l 0 e), (Z.max_r 0 (- e)), Z.pow_0_r by lia. nia.
  - destruct (float_exponent_spec n d Hn Hd) as [Hlow _]. cbv zeta in Hlow.
    assert (float_exponent n d = e + 52) as Hk
      by (unfold e, ulp_exponent in *; lia).
    rewrite Hk in Hlow.
    rewrite (Z.max_r 0 (e + 52)), (Z.max_l 0 (- (e + 52))), Z.pow_0_r,
      Z.mul_1_r in Hlow by lia.
    rewrite Z.pow_add_r in Hlow by lia.
    rewrite (Z.max_r 0 e), (Z.max_l 0 (- e)), Z.pow_0_r, Z.mul_1_r by lia.
    pose proof (Z.pow_le_mono_r 2 1 e ltac:(lia) ltac:(lia)) as Hp.
    change (2 ^ 1) with 2 in Hp.
    assert (2 ^ 53 = 2 ^ 52 * 2) as H53 by reflexivity.
    assert (0 < 2 ^ 52) as H52 by reflexivity.
    assert (2 ^ 52 <= m) as Hm.
    { apply float_mantissa_lower; [assumption|].
      rewrite (Z.max_r 0 e), (Z.max_l 0 (- e)), Z.pow_0_r by lia. lia. }
    split; intros Hbn.
    + set (p := 2 ^ e) in *. set (a := 2 ^ 52) in *. set (c := 2 ^ 53) in *.
      clearbody p a c m. nia.
    + assert (2 ^ e = 2) as Hp2.
      { set (p := 2 ^ e) in *. set (a := 2 ^ 52) in *. set (c := 2 ^ 53) in *.
        clearbody p a c m.
        assert (b * d <= c * d) by (apply Z.mul_le_mono_nonneg_r; lia).
        assert (d * (p * a) <= d * (2 * a)) as Hda by lia.
        apply Z.mul_le_mono_pos_l in Hda; [|assumption].
        rewrite (Z.mul_comm p a), (Z.mul_comm 2 a) in Hda.
        apply Z.mul_le_mono_pos_l in Hda; [|assumption]. lia. }
      rewrite Hp2 in *.
      assert (m <= 2 ^ 52) as Hm'.
      { apply float_mantissa_upper; [assumption|].
        rewrite (Z.max_r 0 e), (Z.max_l 0 (- e)), Z.pow_0_r, Hp2 by lia.
        set (a := 2 ^ 52) in *. set (c := 2 ^ 53) in *. clearbody a c. nia. }
      set (a := 2 ^ 52) in *. set (c := 2 ^ 53) in *. clearbody a c m. nia.
Qed.

Lemma to_float_bounds (q r : Q) (lo hi : Z) :
  - 2 ^ 53 <= lo -> hi <= 2 ^ 53 ->
  (inject_Z lo <= q)%Q -> (q <= inject_Z hi)%Q ->
  to_float q = Ok r ->
  (inject_Z lo <= r)%Q /\ (r <= inject_Z hi)%Q.
Proof.
  intros Hlo Hhi Hql Hqh. unfold to_float. cbv zeta.
  unfold Qle in Hql, Hqh. cbn [Qnum Qden inject_Z] in Hql, Hqh.
  rewrite Z.mul_1_r in Hql, Hqh.
  set (d := Z.pos (Qden q)) in *. assert (0 < d) as Hd by (unfold d; lia).
  destruct (Z.eqb_spec (Z.abs (Qnum q)) 0) as [Hz | Hnz].
  - intros [= <-]. unfold Qle. cbn. nia.
  - set (n := Z.abs (Qnum q)) in *. assert (0 < n) as Hn by lia.
    set (e := ulp_exponent n d). set (m := float_mantissa n d e).
    destruct (Z.leb_spec (2 ^ 1024) (m * 2 ^ Z.max 0 e)); [discriminate|].
    intros Heq. assert (Hr := f_equal (fun o => match o with Ok x => x | Raise _ => r end) Heq).
    cbv beta iota in Hr. rewrite <- Hr. clear Heq Hr. rewrite Qred_correct.
    unfold Qle. cbn [Qnum Qden inject_Z]. rewrite !Z.mul_1_r.
    pose proof (Z.pow_pos_nonneg 2 (Z.max 0 (- e)) ltac:(lia) ltac:(lia)) as Hdown.
    pose proof (Z.pow_pos_nonneg 2 (Z.max 0 e) ltac:(lia) ltac:(lia)) as Hup.
    rewrite Z2Pos.id by assumption.
    pose proof (float_mantissa_53 n d Hn Hd) as Hm. fold e in Hm. fold m in Hm.
    set (up := 2 ^ Z.max 0 e) in *. set (down := 2 ^ Z.max 0 (- e)) in *.
    destruct (Z.lt_trichotomy (Qnum q) 0) as [Hneg | [Hzero | Hpos]]; [|lia|].
    + assert (Z.sgn (Qnum q) = -1) as -> by (apply Z.sgn_neg; lia).
      assert (n = - Qnum q) as Hnq by lia.
      split.
      * destruct (to_float_magnitude n d (- lo) Hn Hd ltac:(nia)) as [_ Hupper].
        fold e m up down in Hupper. specialize (Hupper ltac:(nia)). nia.
      * destruct (Z.le_gt_cases 0 hi) as [Hh | Hh]; [nia|].
        destruct (to_float_magnitude n d (- hi) Hn Hd ltac:(nia)) as [Hlower _].
        fold e m up down in Hlower. specialize (Hlower ltac:(nia)). nia.
    + assert (Z.sgn (Qnum q) = 1) as -> by (apply Z.sgn_pos; lia).
      assert (n = Qnum q) as Hnq by lia.
      split.
      * destruct (Z.le_gt_cases lo 0) as [Hl | Hl]; [nia|].
        destruct (to_float_magnitude n d lo Hn Hd ltac:(nia)) as [Hlower _].
        fold e m up down in Hlower. specialize (Hlower ltac:(nia)). nia.
      * destruct (to_float_magnitude n d hi Hn Hd ltac:(nia)) as [_ Hupper].
        fold e m up down in Hupper. specialize (Hupper ltac:(nia)). nia.
Qed.

(** Within 53 bits the conversion returns, and does not leave a range
    of integers. *)
Lemma to_float_in_range (q : Q) (lo hi : Z) :
  - 2 ^ 53 <= lo -> hi <= 2 ^ 53 ->
  (inject_Z lo <= q)%Q -> (q <= inject_Z hi)%Q ->
  exists r, to_float q = Ok r /\ (inject_Z lo <= r)%Q /\ (r <= inject_Z hi)%Q.
Proof.
  intros Hlo Hhi Hql Hqh.
  destruct (to_float_total q) as [r Hr].
  - unfold Qle in Hql, Hqh. cbn [Qnum Qden inject_Z] in Hql, Hqh.
    rewrite Z.mul_1_r in Hql, Hqh.
    assert (2 ^ 1023 = 2 ^ 53 * 2 ^ 970) as -> by reflexivity.
    assert (1 < 2 ^ 970) by reflexivity. assert (0 < 2 ^ 53) by reflexivity.
    set (a := 2 ^ 53) in *. set (b := 2 ^ 970) in *.
    set (d := Z.pos (Qden q)) in *. assert (0 < d) by (unfold d; lia).
    clearbody a b d.
    assert (hi * d <= a * d) by (apply Z.mul_le_mono_nonneg_r; lia).
    assert (- a * d <= lo * d) by (apply Z.mul_le_mono_nonneg_r; lia).
    assert (0 < a * d) by lia.
    assert (a * d < a * d * b) by nia.
    replace (a * b * d) with (a * d * b) by ring. lia.
  - exists r. split; [exact Hr|].
    exact (to_float_bounds q r lo hi Hlo Hhi Hql Hqh Hr).
Qed.

(** Up to the largest [float] the conversion returns, and does not
    exceed it. *)
Lemma to_float_finite (q : Q) :
  (inject_Z (- max_float) <= q)%Q -> (q <= inject_Z max_float)%Q ->
  exists r, to_float q = Ok r
            /\ (inject_Z (- max_float) <= r)%Q /\ (r <= inject_Z max_float)%Q.
Proof.
  intros Hql Hqh.
  unfold Qle in Hql, Hqh. cbn [Qnum Qden inject_Z] in Hql, Hqh.
  rewrite Z.mul_1_r in Hql, Hqh.
  unfold to_float. cbv zeta.
  destruct (Z.eqb_spec (Z.abs (Qnum q)) 0) as [|Hnz].
  { exists 0%Q. split; [reflexivity|]. split; discriminate. }
  set (n := Z.abs (Qnum q)) in *. set (d := Z.pos (Qden q)) in *.
  assert (0 < n) as Hn by lia. assert (0 < d) as Hd by (unfold d; lia).
  assert (n <= max_float * d) as Hnd by lia.
  destruct (float_exponent_spec n d Hn Hd) as [Hlow _]. cbv zeta in Hlow.
  pose proof (float_mantissa_53 n d Hn Hd) as Hm.
  set (k := float_exponent n d) in *.
  assert (max_float < 2 ^ 1024) as Hmax by reflexivity.
  assert (0 < max_float) as Hmax0 by reflexivity.
  assert (k <= 1023) as Hk.
  { destruct (Z.le_gt_cases k 1023) as [|Hbig]; [assumption|]. exfalso.
    rewrite (Z.max_r 0 k), (Z.max_l 0 (- k)), Z.pow_0_r in Hlow by lia.
    pose proof (Z.pow_le_mono_r 2 1024 k ltac:(lia) ltac:(lia)).
    set (p := 2 ^ k) in *. set (p' := 2 ^ 1024) in *.
    set (mx := max_float) in *. clearbody p p' mx.
    assert (d * p' <= d * p) by (apply Z.mul_le_mono_nonneg_l; lia).
    assert (mx * d < p' * d) by (apply Z.mul_lt_mono_pos_r; lia). lia. }
  set (e := ulp_exponent n d) in *.
  assert (e <= 971) as He by (unfold e, ulp_exponent; fold k; lia).
  set (m := float_mantissa n d e) in *.
  pose proof (Z.pow_pos_nonneg 2 (Z.max 0 e) ltac:(lia) ltac:(lia)) as Hup.
  pose proof (Z.pow_pos_nonneg 2 (Z.max 0 (- e)) ltac:(lia) ltac:(lia)) as Hdown.
  assert (m * 2 ^ Z.max 0 e <= max_float) as Hfit.
  { destruct (Z.le_gt_cases e 970) as [He' | He'].
    - pose proof (Z.pow_le_mono_r 2 (Z.max 0 e) 970 ltac:(lia) ltac:(lia)) as Hp.
      assert (2 ^ 53 * 2 ^ 970 <= max_float) as Hle by (vm_compute; discriminate).
      assert (0 < 2 ^ 53) by reflexivity. assert (0 < 2 ^ 970) by reflexivity.
      set (p := 2 ^ Z.max 0 e) in *. set (a := 2 ^ 53) in *.
      set (b := 2 ^ 970) in *. set (mx := max_float) in *.
      clearbody m p a b mx.
      assert (m * p <= a * b) by (apply Z.mul_le_mono_nonneg; lia). lia.
    - assert (e = 971) as He971 by lia.
      assert (m <= 2 ^ 53 - 1) as Hm'.
      { apply float_mantissa_upper; [assumption|]. fold e.
        rewrite He971. change (Z.max 0 (- 971)) with 0.
        change (Z.max 0 971) with 971. rewrite Z.pow_0_r, Z.mul_1_r.
        unfold max_float in Hnd. lia. }
      rewrite He971. change (Z.max 0 971) with 971. unfold max_float.
      apply Z.mul_le_mono_nonneg_r; [|assumption].
      apply Z.pow_nonneg. lia. }
  destruct (Z.leb_spec (2 ^ 1024) (m * 2 ^ Z.max 0 e)) as [Hover|_]; [lia|].
  eexists. split; [reflexivity|].
  rewrite Qred_correct. unfold Qle. cbn [Qnum Qden inject_Z].
  rewrite !Z.mul_1_r. rewrite Z2Pos.id by assumption.
  set (up := 2 ^ Z.max 0 e) in *. set (down := 2 ^ Z.max 0 (- e)) in *.
  set (mx := max_float) in *.
  assert (0 <= m * up) by (apply Z.mul_nonneg_nonneg; lia).
  assert (m * up <= mx * down) by (clearbody m up down mx; nia).
  replace (Z.sgn (Qnum q) * m * up) with (Z.sgn (Qnum q) * (m * up)) by ring.
  set (v := m * up) in *.
  destruct (Z.sgn_spec (Qnum q)) as [[_ ->] | [[_ ->] | [_ ->]]];
    clearbody v mx down; lia.
Qed.

(** ** [round], [statistics.mean] and [statistics.median] within a range *)

Lemma decimal_round_bounds (x : Q) (lo hi : Z) :
  (inject_Z lo <= x)%Q -> (x <= inject_Z hi)%Q ->
  (inject_Z lo <= inject_Z (round_half_even (x * 100)) / 100)%Q
  /\ (inject_Z (round_half_even (x * 100)) / 100 <= inject_Z hi)%Q.
Proof.
  intros Hlo Hhi.
  assert (lo * 100 <= round_half_even (x * 100) <= hi * 100) as [Hl Hh].
  { destruct (x * 100)%Q as [n d] eqn:Hx.
    assert (inject_Z (lo * 100) <= n # d)%Q as Hl.
    { rewrite <- Hx, inject_Z_mult.
      apply Qmult_le_compat_r; [exact Hlo | discriminate]. }
    assert (n # d <= inject_Z (hi * 100))%Q as Hh.
    { rewrite <- Hx, inject_Z_mult.
      apply Qmult_le_compat_r; [exact Hhi | discriminate]. }
    unfold Qle in Hl, Hh. cbn [Qnum Qden inject_Z] in Hl, Hh.
    rewrite Z.mul_1_r in Hl, Hh.
    rewrite <- (Pos2Z.id d) at 1 2. change (Z.to_pos (Z.pos d)) with d.
    replace (n # d) with (n # Z.to_pos (Z.pos d)) by reflexivity.
    split; [apply round_half_even_lower | apply round_half_even_upper]; lia. }
  split.
  - apply Qle_shift_div_l; [reflexivity|].
    change 100%Q with (inject_Z 100). rewrite <- inject_Z_mult.
    now rewrite <- Zle_Qle.
  - apply Qle_shift_div_r; [reflexivity|].
    change 100%Q with (inject_Z 100). rewrite <- inject_Z_mult.
    now rewrite <- Zle_Qle.
Qed.

Lemma Qsum_in_range (l : list Q) (lo hi : Z) :
  (forall q, q ∈ l -> (inject_Z lo <= q)%Q /\ (q <= inject_Z hi)%Q) ->
  (inject_Z (lo * Z.of_nat (length l)) <= Qsum l)%Q
  /\ (Qsum l <= inject_Z (hi * Z.of_nat (length l)))%Q.
Proof.
  induction l as [|q l IH]; intros Hall.
  - cbn. rewrite !Z.mul_0_r. split; apply Qle_refl.
  - destruct IH as [IHlo IHhi]; [intros; apply Hall; now right|].
    destruct (Hall q) as [Hlo Hhi]; [left|].
    cbn [Qsum foldr length].
    replace (lo * Z.of_nat (S (length l))) with (lo + lo * Z.of_nat (length l))
      by lia.
    replace (hi * Z.of_nat (S (length l))) with (hi + hi * Z.of_nat (length l))
      by lia.
    rewrite !inject_Z_plus. split; now apply Qplus_le_compat.
Qed.

Lemma nth_sorted_in_range (zs : list Z) (lo hi : Z) (i : nat) :
  (forall z, z ∈ zs -> lo <= z <= hi) ->
  (i < length zs)%nat ->
  lo <= nth i (sorted Z.leb zs) 0 <= hi.
Proof.
  intros Hall Hi. apply Hall.
  assert (nth i (sorted Z.leb zs) 0 ∈ sorted Z.leb zs) as Hin
    by (apply list_elem_of_In, nth_In; now rewrite sorted_length).
  set (x := nth i (sorted Z.leb zs) 0) in *. clearbody x.
  now rewrite sorted_perm in Hin.
Qed.

(** In a range that the conversion to [float] does not leave, neither
    do the mean, the median and the rounding. *)
Section Range.
Variables lo hi : Z.
Hypothesis to_float_closed : forall q : Q,
  (inject_Z lo <= q)%Q -> (q <= inject_Z hi)%Q ->
  exists r, to_float q = Ok r /\ (inject_Z lo <= r)%Q /\ (r <= inject_Z hi)%Q.

Lemma round2_in_range (x : number) :
  (inject_Z lo <= value x)%Q -> (value x <= inject_Z hi)%Q ->
  exists y, round2 x = Ok y
            /\ (inject_Z lo <= value y)%Q /\ (value y <= inject_Z hi)%Q.
Proof.
  intros Hxl Hxh. destruct x as [z | q]; cbn [round2 value] in *.
  - exists (PInt z). auto.
  - destruct (decimal_round_bounds q lo hi Hxl Hxh) as [Hl Hh].
    destruct (to_float_closed _ Hl Hh) as (r & -> & Hrl & Hrh).
    exists (PFloat r). auto.
Qed.

Lemma mean_in_range (data : list number) :
  data <> [] ->
  (forall x, x ∈ data ->
     (inject_Z lo <= value x)%Q /\ (value x <= inject_Z hi)%Q) ->
  exists m, mean data = Ok m
            /\ (inject_Z lo <= value m)%Q /\ (value m <= inject_Z hi)%Q.
Proof.
  intros Hne Hall.
  assert (mean data =
          let exact :=
            Qred (Qsum (map value data) / inject_Z (Z.of_nat (length data))) in
          if forallb is_int data && (Z.pos (Qden exact) =? 1)
          then Ok (PInt (Qnum exact)) else PFloat <$> to_float exact) as ->
    by (destruct data; [contradiction | reflexivity]).
  assert (0 < length data)%nat as Hdata
    by (destruct data; [contradiction | cbn; lia]).
  cbv zeta.
  set (exact := Qred (Qsum (map value data) / inject_Z (Z.of_nat (length data)))).
  assert ((inject_Z lo <= exact)%Q /\ (exact <= inject_Z hi)%Q) as [Hel Heh].
  { unfold exact. rewrite Qred_correct.
    destruct (Qsum_in_range (map value data) lo hi) as [Hsl Hsh].
    { intros q Hq. apply list_elem_of_fmap in Hq as (x & -> & Hx). auto. }
    rewrite length_map in Hsl, Hsh.
    assert (0 < inject_Z (Z.of_nat (length data)))%Q as Hpos.
    { change 0%Q with (inject_Z 0). rewrite <- Zlt_Qlt. lia. }
    split.
    - apply Qle_shift_div_l; [exact Hpos|]. now rewrite <- inject_Z_mult.
    - apply Qle_shift_div_r; [exact Hpos|]. now rewrite <- inject_Z_mult. }
  destruct (forallb is_int data && (Z.pos (Qden exact) =? 1)) eqn:Hint.
  - apply andb_true_iff in Hint as [_ Hden]. apply Z.eqb_eq in Hden.
    exists (PInt (Qnum exact)). split; [reflexivity|]. cbn [value].
    assert (inject_Z (Qnum exact) == exact)%Q as Heq.
    { unfold Qeq. cbn [Qnum Qden inject_Z]. rewrite Hden. lia. }
    rewrite Heq. auto.
  - destruct (to_float_closed exact Hel Heh) as (r & -> & Hrl & Hrh).
    exists (PFloat r). auto.
Qed.

Lemma median_in_range (zs : list Z) :
  zs <> [] ->
  (forall z, z ∈ zs -> lo <= z <= hi) ->
  exists m, median zs = Ok m
            /\ (inject_Z lo <= value m)%Q /\ (value m <= inject_Z hi)%Q.
Proof.
  intros Hne Hall. unfold median.
  destruct zs as [|z0 zs0]; [contradiction|]. cbv beta iota zeta.
  set (zs := z0 :: zs0) in *.
  assert (0 < length zs)%nat as Hlen by (cbn; lia).
  clearbody zs. rewrite sorted_length.
  assert (length zs / 2 < length zs)%nat as Hhalf by (apply Nat.div_lt; lia).
  pose proof (nth_sorted_in_range zs lo hi (length zs / 2) Hall Hhalf) as Hb.
  pose proof (nth_sorted_in_range zs lo hi (length zs / 2 - 1) Hall ltac:(lia))
    as Ha.
  set (b := nth (length zs / 2) (sorted Z.leb zs) 0) in *.
  set (a := nth (length zs / 2 - 1) (sorted Z.leb zs) 0) in *.
  clearbody a b.
  destruct (Nat.odd (length zs)).
  - exists (PInt b). split; [reflexivity|]. cbn [value].
    rewrite <- !Zle_Qle. lia.
  - destruct (to_float_closed (inject_Z (a + b) / 2))
      as (r & -> & Hrl & Hrh).
    + apply Qle_shift_div_l; [reflexivity|].
      change 2%Q with (inject_Z 2). rewrite <- inject_Z_mult, <- Zle_Qle. lia.
    + apply Qle_shift_div_r; [reflexivity|].
      change 2%Q with (inject_Z 2). rewrite <- inject_Z_mult, <- Zle_Qle. lia.
    + exists (PFloat r). auto.
Qed.

End Range.

(** ** Numbers up to the largest [float] *)

Lemma finite_int (z : Z) : - max_float <= z <= max_float -> finite (PInt z).
Proof. intros Hz. unfold finite. cbn [value]. rewrite <- !Zle_Qle. lia. Qed.

Lemma mean_finite (data : list number) :
  data <> [] -> (forall x, x ∈ data -> finite x) ->
  exists m, mean data = Ok m /\ finite m.
Proof. apply (mean_in_range (- max_float) max_float to_float_finite). Qed.

Lemma round2_finite (x : number) :
  finite x -> exists y, round2 x = Ok y /\ finite y.
Proof.
  intros [Hl Hh].
  apply (round2_in_range (- max_float) max_float to_float_finite x Hl Hh).
Qed.

Lemma median_finite (zs : list Z) :
  zs <> [] -> (forall z, z ∈ zs -> - max_float <= z <= max_float) ->
  exists m, median zs = Ok m /\ finite m.
Proof. apply (median_in_range (- max_float) max_float to_float_finite). Qed.


End NumberFacts.
(* ===================================================================== *)
(** * Facts about text                                                    *)
(* ===================================================================== *)

Module TextFacts.
Import Py PyFacts.
#[local] Set Warnings "-clear-no-such-hyp".

(** ** Concatenation *)

Lemma append_nil (b : string) : ("" ++ b)%string = b.
Proof. reflexivity. Qed.

Lemma append_cons (c : ascii) (a b : string) :
  (String c a ++ b)%string = String c (a ++ b)%string.
Proof. reflexivity. Qed.

Lemma append_assoc (a b c : string) :
  ((a ++ b) ++ c)%string = (a ++ (b ++ c))%string.
Proof.
  induction a as [|x a IH]; [reflexivity|].
  now rewrite !append_cons, IH.
Qed.

(** ** Substrings *)

Lemma prefix_spec (sub s : string) :
  String.prefix sub s = true <-> exists post, s = (sub ++ post)%string.
Proof.
  revert s. induction sub as [|x sub IH]; intros s.
  - split; [intros _; now exists s | intros _; now destruct s].
  - destruct s as [|y s]; cbn [String.prefix].
    + split; [discriminate | intros [post Hpost]].
      rewrite append_cons in Hpost. discriminate.
    + destruct (ascii_dec x y) as [-> | Hne].
      * rewrite IH. split; intros [post Hpost]; exists post;
          rewrite append_cons in *; [now rewrite Hpost | now injection Hpost].
      * split; [discriminate | intros [post Hpost]].
        rewrite append_cons in Hpost. injection Hpost as Hxy _.
        now symmetry in Hxy.
Qed.

Lemma prefix_drop_str (sub s : string) :
  String.prefix sub s = true ->
  s = (sub ++ drop_str (String.length sub) s)%string.
Proof.
  revert s. induction sub as [|x sub IH]; intros s.
  - now destruct s.
  - destruct s as [|y s]; cbn [String.prefix String.length drop_str];
      [discriminate|].
    destruct (ascii_dec x y) as [-> | Hne]; [|discriminate].
    intros Hp. rewrite append_cons. f_equal. now apply IH.
Qed.

Lemma drop_str_append (a b : string) :
  drop_str (String.length a) (a ++ b)%string = b.
Proof.
  induction a as [|x a IH]; [now destruct b|].
  rewrite append_cons. exact IH.
Qed.

(** [sub in s] holds when [s] has [sub] between some text and some
    text. *)
Lemma contains_spec (sub s : string) :
  contains sub s = true
  <-> exists pre post, s = (pre ++ sub ++ post)%string.
Proof.
  split.
  - induction s as [|c s IH]; cbn [contains]; intros Hc;
      apply orb_true_iff in Hc as [Hp | Hc]; try discriminate.
    + apply prefix_spec in Hp as [post ->]. now exists ""%string, post.
    + apply prefix_spec in Hp as [post ->]. now exists ""%string, post.
    + destruct (IH Hc) as (pre & post & ->). now exists (String c pre), post.
  - intros (pre & post & ->). induction pre as [|c pre IH].
    + rewrite append_nil.
      assert (String.prefix sub (sub ++ post) = true) as Hp
        by (apply prefix_spec; eauto).
      destruct (sub ++ post)%string; cbn [contains]; now rewrite Hp.
    + rewrite append_cons. cbn [contains]. rewrite IH. apply orb_true_r.
Qed.

Lemma any_in_spec (keywords : list string) (text : string) :
  any_in keywords text = true
  <-> exists keyword pre post,
        keyword ∈ keywords /\ text = (pre ++ keyword ++ post)%string.
Proof.
  unfold any_in. rewrite existsb_exists. split.
  - intros (keyword & Hin & Hc). apply contains_spec in Hc as (pre & post & ->).
    exists keyword, pre, post. split; [now apply list_elem_of_In | reflexivity].
  - intros (keyword & pre & post & Hin & ->). exists keyword.
    split; [now apply list_elem_of_In | apply contains_spec; eauto].
Qed.

(** ** Patterns *)

(** The ways a pattern matches at the start of a text are the texts of
    the pattern that the text starts with. *)
Lemma match_prefix_spec (r : regex) : forall s rest : string,
  rest ∈ match_prefix r s
  <-> exists m, in_language r m /\ s = (m ++ rest)%string.
Proof.
  induction r as [l | r1 IH1 r2 IH2 | r1 IH1 r2 IH2 | r IH]; intros s rest;
    cbn [match_prefix].
  - destruct (String.prefix l s) eqn:Hp.
    + rewrite list_elem_of_singleton. split.
      * intros ->. exists l. split; [constructor | now apply prefix_drop_str].
      * intros (m & Hm & ->). inversion Hm; subst.
        now rewrite drop_str_append.
    + split; [intros Hin; now apply elem_of_nil in Hin|].
      intros (m & Hm & ->). inversion Hm; subst.
      rewrite (proj2 (prefix_spec _ _)) in Hp by eauto. discriminate.
  - rewrite list_elem_of_In, in_flat_map. split.
    + intros (mid & Hmid & Hrest).
      apply list_elem_of_In, IH1 in Hmid as (m1 & Hm1 & ->).
      apply list_elem_of_In, IH2 in Hrest as (m2 & Hm2 & ->).
      exists (m1 ++ m2)%string. split; [now constructor|].
      now rewrite append_assoc.
    + intros (m & Hm & ->). inversion Hm as [| ? ? m1 m2 Hm1 Hm2 | | | |]; subst.
      exists (m2 ++ rest)%string. split.
      * apply list_elem_of_In, IH1. exists m1.
        split; [assumption | apply append_assoc].
      * apply list_elem_of_In, IH2. eauto.
  - rewrite elem_of_app, IH1, IH2. split.
    + intros [(m & Hm & ->) | (m & Hm & ->)]; exists m;
        (split; [|reflexivity]); [now apply lang_alt_l | now apply lang_alt_r].
    + intros (m & Hm & ->). inversion Hm; subst; eauto.
  - rewrite elem_of_app, IH, list_elem_of_singleton. split.
    + intros [(m & Hm & ->) | ->].
      * exists m. split; [now apply lang_opt_some | reflexivity].
      * exists ""%string. split; [apply lang_opt_none | reflexivity].
    + intros (m & Hm & ->). inversion Hm; subst; [now right | left; eauto].
Qed.

Lemma matches_at_spec (r : regex) (s : string) :
  matches_at r s = true
  <-> exists m post, in_language r m /\ s = (m ++ post)%string.
Proof.
  unfold matches_at. split.
  - destruct (match_prefix r s) as [|rest rests] eqn:Hm; [discriminate|].
    intros _. assert (rest ∈ match_prefix r s) as Hin by (rewrite Hm; left).
    apply match_prefix_spec in Hin as (m & Hlang & ->). eauto.
  - intros (m & post & Hlang & ->).
    assert (post ∈ match_prefix r (m ++ post)) as Hin
      by (apply match_prefix_spec; eauto).
    destruct (match_prefix r (m ++ post)); [now apply elem_of_nil in Hin|].
    reflexivity.
Qed.

(** [re.search] finds a pattern when the text has a text of the pattern
    between some text and some text. *)
Lemma re_search_spec (r : regex) (s : string) :
  re_search r s = true
  <-> exists pre m post, in_language r m /\ s = (pre ++ m ++ post)%string.
Proof.
  split.
  - induction s as [|c s IH]; cbn [re_search]; intros Hs;
      apply orb_true_iff in Hs as [Hm | Hs]; try discriminate.
    + apply matches_at_spec in Hm as (m & post & Hlang & ->).
      now exists ""%string, m, post.
    + apply matches_at_spec in Hm as (m & post & Hlang & ->).
      now exists ""%string, m, post.
    + destruct (IH Hs) as (pre & m & post & Hlang & ->).
      now exists (String c pre), m, post.
  - intros (pre & m & post & Hlang & ->). induction pre as [|c pre IH].
    + rewrite append_nil.
      assert (matches_at r (m ++ post) = true) as Hm
        by (apply matches_at_spec; eauto).
      destruct (m ++ post)%string; cbn [re_search]; now rewrite Hm.
    + rewrite append_cons. cbn [re_search]. rewrite IH. apply orb_true_r.
Qed.

(** ** Excerpts *)

(** A text of more than [n] characters is the [n] characters that
    [take_chars] gives followed by a rest that starts a character. *)
Lemma take_chars_spec (s : string) : forall n : nat,
  (n < char_length s)%nat ->
  exists c rest,
    s = (take_chars n s ++ String c rest)%string
    /\ char_length (take_chars n s) = n
    /\ is_continuation c = false.
Proof.
  induction s as [|x s IH]; intros n Hn; cbn [char_length take_chars] in *;
    [lia|].
  destruct (is_continuation x) eqn:Hx.
  - destruct (IH n Hn) as (c & rest & Hs & Hlen & Hc).
    exists c, rest. rewrite append_cons. cbn [char_length].
    rewrite Hx, <- Hs. auto.
  - destruct n as [|n].
    + exists x, s. auto.
    + destruct (IH n ltac:(lia)) as (c & rest & Hs & Hlen & Hc).
      exists c, rest. rewrite append_cons. cbn [char_length].
      rewrite Hx, <- Hs. auto.
Qed.

(** An excerpt is the whole text up to [n] characters, and past that the
    first [n] characters followed by three dots. *)
Lemma excerpt_spec (n : nat) (s : string) :
  ((char_length s <= n)%nat -> excerpt n s = s)
  /\ ((n < char_length s)%nat ->
      exists cut c rest,
        s = (cut ++ String c rest)%string
        /\ char_length cut = n
        /\ is_continuation c = false
        /\ excerpt n s = (cut ++ "...")%string).
Proof.
  unfold excerpt. destruct (Nat.ltb_spec n (char_length s)); split;
    intros; try lia; auto.
  destruct (take_chars_spec s n) as (c & rest & Hs & Hlen & Hc); [assumption|].
  exists (take_chars n s), c, rest. auto.
Qed.

End TextFacts.
(* ===================================================================== *)
(** * Properties of the fetcher                                           *)
(* ===================================================================== *)

Module FetcherSpec.
Import Py Fetcher.

(** ** The retry budget of [fetch_url] *)

Lemma fetch_attempt_down net u attempt st :
  net u (requests st) = TransportError ->
  fetch_attempt net u attempt st =
    if (attempt <? MAX_RETRIES - 1)%nat
    then (Ok (Continue ()),
          do_sleep (2 ^ Z.of_nat attempt) (count_error (do_request u st)))
    else (Ok (Leave JNull), count_error (do_request u st)).
Proof. intros Hnet. unfold fetch_attempt. now rewrite Hnet. Qed.

(** C2.  When every request for [u] fails at the transport level,
    [fetch_url] makes exactly three requests, sleeps [2 ^ 0] seconds after
    the first and [2 ^ 1] after the second, counts three errors and no
    page, and returns [None] without raising. *)
Theorem fetch_url_retry_budget (net : network) (u : string) (st : session)
    (Hdown : forall n, net u n = TransportError) :
  fetch_url net u st =
    (Ok JNull,
     {| pages_fetched := pages_fetched st;
        total_reviews := total_reviews st;
        errors := 3 + errors st;
        requests := 3 + requests st;
        trace := trace st ++ [Request u; Sleep (2 ^ 0); Request u;
                              Sleep (2 ^ 1); Request u] |}).
Proof.
  unfold fetch_url, MAX_RETRIES. cbn [seq fetch_attempts].
  rewrite fetch_attempt_down by apply Hdown.
  cbn -[Z.pow]. rewrite fetch_attempt_down by apply Hdown.
  cbn -[Z.pow]. rewrite fetch_attempt_down by apply Hdown.
  cbn -[Z.pow]. f_equal.
  unfold count_error, do_request, do_sleep. cbn -[Z.pow]. f_equal.
  rewrite <- !app_assoc. reflexivity.
Qed.

Lemma fetch_url_retry_budget_witness :
  fetch_url Samples.unreachable "https://example.invalid/json" init_session =
    (Ok JNull,
     {| pages_fetched := 0; total_reviews := 0; errors := 3; requests := 3;
        trace := [Request "https://example.invalid/json"; Sleep 1;
                  Request "https://example.invalid/json"; Sleep 2;
                  Request "https://example.invalid/json"] |}).
Proof.
  apply (fetch_url_retry_budget Samples.unreachable
           "https://example.invalid/json" init_session).
  intros n. reflexivity.
Defined.

End FetcherSpec.
(* ===================================================================== *)
(** * Properties of the pagination walk                                   *)
(* ===================================================================== *)

Module WalkSpec.
Import Py PyFacts Fetcher.
#[local] Set Warnings "-clear-no-such-hyp".

Lemma eq_str_true (v : json) (u : string) : eq_str v u = true <-> v = JStr u.
Proof.
  destruct v; simpl; try (split; [discriminate | intros [=]]).
  rewrite String.eqb_eq. split; [now intros -> | now intros [= ->]].
Qed.

(** What the loop body does after a fetch whose page links back to the
    cursor [u]: it leaves the loop, or an exception does. *)
Lemma after_fetch_self_link (w : walk) (u : string) (data : json) :
  get_next_page_url data = Ok (JStr u) ->
  (exists e, after_fetch w u data = Raise e)
  \/ (exists w', after_fetch w u data = Ok (Leave w')
                 /\ url w' = url w /\ page_num w' = page_num w).
Proof.
  intros Hnext. unfold after_fetch.
  destruct (extract_reviews data) as [reviews|e]; [|left; eauto].
  cbn [mbind result_bind].
  destruct (note_app_name data (walk_app_name w)) as [name|e]; [|left; eauto].
  cbn [mbind result_bind]. rewrite Hnext. cbn [mbind result_bind].
  replace (eq_str (JStr u) u) with true by (symmetry; now apply eq_str_true).
  rewrite andb_false_r. right. eexists. split; [reflexivity|]. split; reflexivity.
Qed.

(** C3, as the code has it.  (1) When the next cursor of the page just
    fetched is the cursor [u] it was fetched from, the walk ends in that
    iteration: the session it ends with is the one that fetch leaves, so
    nothing more is requested, and the cursor and page number are those
    of the iteration.  (2) An iteration that goes on does so with a
    non-empty cursor different from the one just fetched, and one page
    further. *)
Theorem walk_cycle_guard (net : network) (w : walk) (st : session) :
  (forall (u : string) (data : json) (st' : session) (fuel : nat),
     url w = JStr u -> u <> "" ->
     fetch_url net u (rate_limit w st) = (Ok data, st') ->
     get_next_page_url data = Ok (JStr u) ->
     exists r, walk_loop (S fuel) net w st = Some (r, st')
               /\ (forall w', r = Ok w' ->
                     url w' = JStr u /\ page_num w' = page_num w))
  /\ (forall (w' : walk) (st' : session),
        walk_body net w st = (Ok (Continue w'), st') ->
        truthy (url w') = true /\ url w' <> url w
        /\ page_num w' = S (page_num w)).
Proof.
  split.
  - intros u data st' fuel Hurl Hu Hfetch Hnext.
    cbn [walk_loop]. rewrite Hurl. cbn [truthy].
    destruct (String.eqb_spec u "") as [|_]; [contradiction|]. cbn [negb].
    unfold walk_body. rewrite Hurl, Hfetch.
    destruct (truthy data) eqn:Hdata; cbn [negb].
    + destruct (after_fetch_self_link w u data Hnext)
        as [[e ->] | (w' & -> & Hu' & Hp')].
      * eexists. split; [reflexivity|]. discriminate.
      * eexists. split; [reflexivity|]. intros w'' [= <-].
        split; [congruence | assumption].
    + eexists. split; [reflexivity|]. intros w'' [= <-]. auto.
  - intros w' st'. unfold walk_body.
    destruct (url w) as [| | |u| |] eqn:Hurl; try discriminate.
    destruct (fetch_url net u (rate_limit w st)) as [[data|e] st2];
      [|discriminate].
    destruct (truthy data); cbn [negb]; [|discriminate].
    unfold after_fetch.
    destruct (extract_reviews data) as [reviews|e]; [|discriminate].
    cbn [mbind result_bind].
    destruct (note_app_name data (walk_app_name w)) as [name|e];
      [|discriminate].
    cbn [mbind result_bind].
    destruct (get_next_page_url data) as [next_url|e]; [|discriminate].
    cbn [mbind result_bind].
    destruct (truthy next_url && negb (eq_str next_url u)) eqn:Hgo;
      [|discriminate].
    intros [= <- <-]. cbn [url page_num].
    apply andb_true_iff in Hgo as [Htruthy Hne].
    split; [assumption|]. split; [|reflexivity].
    intros Heq. apply eq_str_true in Heq. rewrite Heq in Hne. discriminate.
Qed.

(** ** A feed that is walked forever *)

Lemma fetch_url_payload (net : network) (u : string) (st : session) data :
  net u (requests st) = Payload data ->
  fetch_url net u st = (Ok data, count_page (do_request u st)).
Proof.
  intros Hnet. unfold fetch_url, MAX_RETRIES. cbn [seq fetch_attempts].
  unfold fetch_attempt. now rewrite Hnet.
Qed.

Lemma two_cycle_page_one (n : nat) :
  Samples.two_cycle Samples.page_one n
  = Payload (Samples.page "1" Samples.href_two).
Proof. vm_compute. reflexivity. Qed.

Lemma two_cycle_page_two (n : nat) :
  Samples.two_cycle Samples.page_two n
  = Payload (Samples.page "2" Samples.href_one).
Proof. vm_compute. reflexivity. Qed.

(** What follows the fetch of a page of [two_cycle], whose next link
    [href] is rewritten to a cursor [next] other than [u]. *)
Lemma after_fetch_linked (w : walk) (u i href next : string) :
  get_next_page_url (Samples.page i href) = Ok (JStr next) ->
  String.eqb next "" = false -> String.eqb next u = false ->
  exists reviews,
    after_fetch w u (Samples.page i href)
    = Ok (Continue {| url := JStr next; page_num := S (page_num w);
                      all_reviews := all_reviews w ++ reviews;
                      walk_app_name := walk_app_name w |}).
Proof.
  intros Hnext Hne Hu. unfold after_fetch.
  assert (Hreviews : exists reviews,
            extract_reviews (Samples.page i href) = Ok reviews)
    by (eexists; reflexivity).
  destruct Hreviews as [reviews ->]. cbn [mbind result_bind].
  assert (Hname : note_app_name (Samples.page i href) (walk_app_name w)
                  = Ok (walk_app_name w)) by reflexivity.
  rewrite Hname, Hnext. cbn [mbind result_bind truthy eq_str].
  rewrite Hne, Hu. cbn [negb andb]. eauto.
Qed.

Lemma two_cycle_step (w : walk) (st : session) :
  url w = JStr Samples.page_one \/ url w = JStr Samples.page_two ->
  exists w' st',
    walk_body Samples.two_cycle w st = (Ok (Continue w'), st')
    /\ (url w' = JStr Samples.page_one \/ url w' = JStr Samples.page_two).
Proof.
  intros [Hurl | Hurl]; unfold walk_body; rewrite Hurl.
  - rewrite (fetch_url_payload _ _ _ _ (two_cycle_page_one _)).
    cbn [truthy Samples.page negb].
    destruct (after_fetch_linked w Samples.page_one "1" Samples.href_two
                Samples.page_two) as [reviews Hafter];
      [vm_compute; reflexivity..|].
    fold (Samples.page "1" Samples.href_two). rewrite Hafter.
    do 2 eexists. split; [reflexivity | right; reflexivity].
  - rewrite (fetch_url_payload _ _ _ _ (two_cycle_page_two _)).
    cbn [truthy Samples.page negb].
    destruct (after_fetch_linked w Samples.page_two "2" Samples.href_one
                Samples.page_one) as [reviews Hafter];
      [vm_compute; reflexivity..|].
    fold (Samples.page "2" Samples.href_one). rewrite Hafter.
    do 2 eexists. split; [reflexivity | left; reflexivity].
Qed.

Lemma two_cycle_runs_on (fuel : nat) : forall (w : walk) (st : session),
  url w = JStr Samples.page_one \/ url w = JStr Samples.page_two ->
  walk_loop fuel Samples.two_cycle w st = None.
Proof.
  induction fuel as [|fuel IH]; intros w st Hurl; [reflexivity|].
  cbn [walk_loop].
  replace (truthy (url w)) with true by (destruct Hurl as [-> | ->]; reflexivity).
  destruct (two_cycle_step w st Hurl) as (w' & st' & -> & Hurl').
  now apply IH.
Qed.

(** On the feed of two pages that link to each other every iteration
    goes on to a cursor different from the one just fetched, and no
    amount of fuel lets the walk return.  On the feed whose page links
    back to itself the walk returns after one request. *)
Lemma walk_two_cycle_counterexample :
  (~ exists fuel r,
       fetch_all_reviews fuel Samples.two_cycle "1" "mostrecent" init_session
       = Some r)
  /\ (exists reviews meta st,
        fetch_all_reviews 1 Samples.self_linked "1" "mostrecent" init_session
        = Some (Ok (reviews, meta), st)
        /\ total_pages meta = 1%nat
        /\ requests st = 1%nat).
Proof.
  split.
  - intros (fuel & r & Hr). unfold fetch_all_reviews in Hr.
    rewrite two_cycle_runs_on in Hr; [discriminate | left; reflexivity].
  - do 3 eexists. split; [vm_compute; reflexivity|]. split; reflexivity.
Qed.

Lemma walk_cycle_guard_witness :
  exists r st',
    walk_loop 1 Samples.self_linked
      {| url := JStr Samples.page_one; page_num := 1; all_reviews := [];
         walk_app_name := None |} init_session = Some (r, st')
    /\ requests st' = 1%nat.
Proof.
  destruct (proj1 (walk_cycle_guard Samples.self_linked
              {| url := JStr Samples.page_one; page_num := 1;
                 all_reviews := []; walk_app_name := None |} init_session)
              Samples.page_one
              (Samples.page "1" Samples.page_one)
              (count_page (do_request Samples.page_one init_session))
              0%nat)
    as (r & Hwalk & _).
  - reflexivity.
  - discriminate.
  - vm_compute. reflexivity.
  - vm_compute. reflexivity.
  - exists r. eexists. split; [exact Hwalk | reflexivity].
Defined.

End WalkSpec.
(* ===================================================================== *)
(** * Properties of the analyzer                                          *)
(* ===================================================================== *)

Module MergeSpec.
Import Py Analyzer.
#[local] Set Warnings "-clear-no-such-hyp".

(** ** [get_all_reviews] keeps the first review of every id *)

Lemma first_with_id_skip i r l :
  id r <> i -> first_with_id i (r :: l) = first_with_id i l.
Proof.
  intros Hne. unfold first_with_id. simpl.
  destruct (String.eqb_spec (id r) i); [contradiction | reflexivity].
Qed.

Lemma first_with_id_here r l : first_with_id (id r) (r :: l) = Some r.
Proof. unfold first_with_id. simpl. now rewrite String.eqb_refl. Qed.

Lemma first_with_id_elem i l r :
  first_with_id i l = Some r -> r ∈ l /\ id r = i.
Proof.
  unfold first_with_id. intros Hf. apply find_some in Hf as [Hin Heq].
  split; [now apply list_elem_of_In | now apply String.eqb_eq].
Qed.

Lemma first_with_id_app_l i l1 l2 r :
  first_with_id i l1 = Some r -> first_with_id i (l1 ++ l2) = Some r.
Proof.
  unfold first_with_id. induction l1 as [|x l1 IH]; simpl; [discriminate|].
  destruct (String.eqb (id x) i); auto.
Qed.

Lemma first_with_id_app_r i l1 l2 :
  i ∉ map id l1 -> first_with_id i (l1 ++ l2) = first_with_id i l2.
Proof.
  induction l1 as [|x l1 IH]; [reflexivity|].
  intros Hni. rewrite <- app_comm_cons.
  rewrite first_with_id_skip; [apply IH|]; set_solver.
Qed.

Lemma id_set_source r src : id (set_source r src) = id r.
Proof. reflexivity. Qed.

Lemma first_source_helpful i l : i ∈ map id l -> first_source i l = "most_helpful".
Proof.
  intros Hin. unfold first_source.
  replace (existsb _ l) with true; [reflexivity|].
  symmetry. apply existsb_exists.
  apply list_elem_of_fmap in Hin as (r & -> & Hr).
  exists r. split; [now apply list_elem_of_In | apply String.eqb_refl].
Qed.

Lemma first_source_recent i l : i ∉ map id l -> first_source i l = "most_recent".
Proof.
  intros Hni. unfold first_source.
  destruct (existsb _ l) eqn:E; [|reflexivity].
  apply existsb_exists in E as (r & Hr & Heq).
  apply String.eqb_eq in Heq. subst i.
  exfalso. apply Hni. apply list_elem_of_fmap. exists r.
  split; [reflexivity | now apply list_elem_of_In].
Qed.

(** The loop over one source appends, in order, the first review of each
    id that was not seen before, tagged with the source. *)
Lemma merge_source_spec src revs : forall all_reviews seen_ids,
  exists new,
    merge_source src (all_reviews, seen_ids) revs
      = (all_reviews ++ new, seen_ids ∪ list_to_set (map id revs))
    /\ NoDup (map id new)
    /\ (forall r, r ∈ new ->
          (id r ∉ seen_ids) /\
          exists r0, first_with_id (id r) revs = Some r0
                     /\ r = set_source r0 src)
    /\ (forall i, i ∈ map id revs -> i ∉ seen_ids -> i ∈ map id new).
Proof.
  induction revs as [|r revs IH]; intros all_reviews seen_ids.
  - exists []. simpl. rewrite app_nil_r.
    split; [f_equal; set_solver|].
    split; [constructor|]. split; set_solver.
  - unfold merge_source. cbn [foldl]. case_bool_decide as Hseen.
    + destruct (IH all_reviews seen_ids) as (new & Heq & Hnd & Hnew & Hall).
      exists new. unfold merge_source in Heq. rewrite Heq.
      split; [f_equal; set_solver|]. split; [assumption|]. split.
      * intros r' Hr'. destruct (Hnew r' Hr') as (Hns & r1 & Hf & ->).
        split; [assumption|]. exists r1. split; [|reflexivity].
        rewrite first_with_id_skip; [assumption|].
        rewrite id_set_source in *. congruence.
      * intros i Hi Hni. apply Hall; [|assumption]. set_solver.
    + destruct (IH (all_reviews ++ [set_source r src]) ({[id r]} ∪ seen_ids))
        as (new & Heq & Hnd & Hnew & Hall).
      exists (set_source r src :: new). unfold merge_source in Heq.
      rewrite Heq. rewrite <- app_assoc. cbn [app map].
      split; [f_equal; set_solver|]. split; [|split].
      * constructor; [|assumption].
        intros Hin. apply list_elem_of_fmap in Hin as (r' & Hid & Hr').
        destruct (Hnew r' Hr') as [Hns _]. set_solver.
      * intros r' Hr'. apply elem_of_cons in Hr' as [-> | Hin].
        { split; [assumption|]. exists r.
          split; [exact (first_with_id_here r revs) | reflexivity]. }
        destruct (Hnew r' Hin) as (Hns & r1 & Hf & ->).
        split; [set_solver|]. exists r1. split; [|reflexivity].
        rewrite first_with_id_skip; [assumption|].
        rewrite id_set_source in *. set_solver.
      * intros i Hi Hni.
        destruct (decide (i = id r)) as [-> | Hne]; [set_solver|].
        apply elem_of_cons. right. apply Hall; set_solver.
Qed.

Lemma occurrences_absent i l : i ∉ map id l -> occurrences i l = 0%nat.
Proof.
  unfold occurrences. induction l as [|r l IH]; [reflexivity|].
  intros Hni. cbn [map] in Hni. apply not_elem_of_cons in Hni as [Hne Hni].
  cbn [List.filter].
  destruct (String.eqb_spec (id r) i) as [Heq | _]; [congruence | auto].
Qed.

Lemma occurrences_once i l :
  NoDup (map id l) -> i ∈ map id l -> occurrences i l = 1%nat.
Proof.
  induction l as [|r l IH]; cbn [map]; intros Hnd Hin.
  - now apply elem_of_nil in Hin.
  - apply NoDup_cons in Hnd as [Hni Hnd]. unfold occurrences.
    cbn [List.filter].
    destruct (String.eqb_spec (id r) i) as [Heq | Hne].
    + cbn [length]. f_equal. apply occurrences_absent. now rewrite <- Heq.
    + apply IH; [assumption|].
      apply elem_of_cons in Hin as [Heq | Hin]; [congruence | assumption].
Qed.

(** C1.  With both orderings loaded, every id of either ordering occurs
    exactly once in the merged list, and every merged review is the first
    review with its id in "most helpful followed by most recent": it has
    all nine fields of that review unchanged, and its [source] is
    "most_helpful" when the most helpful ordering has a review with that
    id and "most_recent" otherwise, which is the ordering that first
    supplied it. *)
Theorem get_all_reviews_first_seen (helpful recent : Snapshot) :
  let A := reviews helpful in
  let B := reviews recent in
  let merged := get_all_reviews {| most_helpful := Some helpful;
                                   most_recent := Some recent |} in
  (forall i, i ∈ map id (A ++ B) -> occurrences i merged = 1%nat) /\
  (forall r, r ∈ merged ->
     exists r0, first_with_id (id r) (A ++ B) = Some r0
                /\ r = set_source r0 (first_source (id r) A)
                /\ source r = Some (if bool_decide (id r ∈ map id A)
                                    then "most_helpful" else "most_recent")
                /\ id r = id r0 /\ author r = author r0
                /\ rating r = rating r0 /\ version r = version r0
                /\ title r = title r0 /\ content r = content r0
                /\ updated r = updated r0 /\ vote_sum r = vote_sum r0
                /\ vote_count r = vote_count r0).
Proof.
  intros A B merged. subst merged. unfold get_all_reviews. simpl.
  fold A B.
  destruct (merge_source_spec "most_helpful" A [] ∅)
    as (newA & HeqA & HndA & HnewA & HallA).
  rewrite HeqA.
  destruct (merge_source_spec "most_recent" B ([] ++ newA)
              (∅ ∪ list_to_set (map id A)))
    as (newB & HeqB & HndB & HnewB & HallB).
  rewrite HeqB. simpl.
  assert (HsubA : forall r, r ∈ newA -> id r ∈ map id A).
  { intros r Hr. destruct (HnewA r Hr) as (_ & r0 & Hf & ->).
    apply first_with_id_elem in Hf as [Hin Hid].
    rewrite id_set_source, Hid. apply list_elem_of_fmap. exists r0.
    split; [congruence | assumption]. }
  assert (HnsB : forall r, r ∈ newB -> id r ∉ map id A).
  { intros r Hr. destruct (HnewB r Hr) as (Hns & _). set_solver. }
  split.
  - intros i Hi. apply occurrences_once.
    + rewrite map_app. apply NoDup_app. repeat split; [assumption | | assumption].
      intros j Hj Hj'.
      apply list_elem_of_fmap in Hj as (r & -> & Hr).
      apply list_elem_of_fmap in Hj' as (r' & Heq & Hr').
      apply (HnsB r' Hr'). rewrite <- Heq. now apply HsubA.
    + rewrite map_app in *. apply elem_of_app.
      destruct (decide (i ∈ map id A)) as [HiA | HiA].
      * left. apply HallA; [assumption | set_solver].
      * right. apply HallB; set_solver.
  - intros r Hr. apply elem_of_app in Hr as [Hr | Hr].
    + pose proof (HsubA _ Hr) as HinA.
      destruct (HnewA r Hr) as (_ & r0 & Hf & ->).
      rewrite id_set_source in *.
      exists r0. split; [now apply first_with_id_app_l|].
      rewrite first_source_helpful by assumption.
      rewrite bool_decide_eq_true_2 by assumption.
      repeat split; reflexivity.
    + destruct (HnewB r Hr) as (_ & r0 & Hf & ->).
      pose proof (HnsB _ Hr) as Hns. rewrite id_set_source in *.
      exists r0. split; [now rewrite first_with_id_app_r|].
      rewrite first_source_recent by assumption.
      rewrite bool_decide_eq_false_2 by assumption.
      repeat split; reflexivity.
Qed.

End MergeSpec.
(* ===================================================================== *)
(** * Properties of the rating aggregation                                *)
(* ===================================================================== *)

Module RatingsSpec.
Import Py PyFacts NumberFacts Analyzer.
#[local] Set Warnings "-clear-no-such-hyp".

Section Ratings.
Context `{Runtime}.

Lemma int_rating_ok (r : Review) z :
  int_rating r = Ok z <-> int_of_str (rating r) = Some z.
Proof.
  unfold int_rating. destruct (int_of_str (rating r)); simpl;
    split; congruence.
Qed.

Lemma int_rating_raise (r : Review) e :
  int_rating r = Raise e -> int_of_str (rating r) = None /\ e = ValueError.
Proof.
  unfold int_rating. destruct (int_of_str (rating r)); simpl;
    [discriminate | intros [= <-]; auto].
Qed.

Lemma ratings_total (revs : list Review) :
  (forall r, r ∈ revs -> is_Some (int_of_str (rating r))) ->
  exists ratings, map_result int_rating revs = Ok ratings
                  /\ length ratings = length revs.
Proof.
  intros Hall.
  destruct (map_result_total int_rating revs) as [ratings Hr].
  - intros r Hr. destruct (Hall r Hr) as [z Hz]. exists z.
    now apply int_rating_ok.
  - exists ratings. split; [assumption|].
    apply map_result_ok in Hr. symmetry. eapply Forall2_length, Hr.
Qed.

(** Ratings that convert to integers up to the largest [float]. *)
Lemma ratings_finite (revs : list Review) :
  (forall r, r ∈ revs ->
     exists z, int_of_str (rating r) = Some z
               /\ - max_float <= z <= max_float) ->
  exists ratings, map_result int_rating revs = Ok ratings
                  /\ length ratings = length revs
                  /\ (forall z, z ∈ ratings -> - max_float <= z <= max_float).
Proof.
  induction revs as [|r revs IH]; intros Hall.
  - exists []. split; [reflexivity|]. split; [reflexivity|].
    intros z Hz. now apply elem_of_nil in Hz.
  - destruct (Hall r) as (z & Hz & Hb); [left|].
    destruct IH as (ratings & Hrun & Hlen & Hbs);
      [intros r' Hr'; apply Hall; now right|].
    exists (z :: ratings). cbn [map_result].
    rewrite (proj2 (int_rating_ok r z) Hz), Hrun. split; [reflexivity|]. split; [cbn; now f_equal|].
    intros z' Hz'. apply elem_of_cons in Hz' as [-> | Hz']; auto.
Qed.

Lemma low_high_partition (ratings : list Z) :
  (length (List.filter (fun r => (r <=? 3)%Z) ratings)
   + length (List.filter (fun r => (4 <=? r)%Z) ratings))%nat = length ratings.
Proof.
  induction ratings as [|r ratings IH]; [reflexivity|]. simpl.
  destruct (Z.leb_spec r 3), (Z.leb_spec 4 r); simpl; lia.
Qed.

Lemma distribution_total (ratings : list Z) :
  sum_list (dict_values
    (dict_of_items (map (fun kv => (str_of_int (fst kv), snd kv))
                        (Counter ratings)))) = length ratings.
Proof.
  destruct (Counter_spec ratings) as [Hnd Hsum].
  rewrite dict_of_items_NoDup.
  - unfold dict_values. rewrite map_map. simpl. exact Hsum.
  - rewrite map_map. simpl.
    rewrite <- (map_map fst str_of_int).
    apply (NoDup_fmap_2 str_of_int). exact Hnd.
Qed.

(** C4, as the code has it.  Aggregating no review raises
    [StatisticsError] (the mean of no data), which nothing catches; a
    non-empty list whose ratings all convert with [int], to integers
    that are at most the largest [float] in magnitude, is aggregated
    normally; a rating that [int] rejects raises [ValueError]. *)
Theorem ratings_raise_or_return :
  analyze_ratings_distribution [] = Raise StatisticsError
  /\ (forall revs : list Review,
        revs <> [] ->
        (forall r, r ∈ revs ->
           exists z, int_of_str (rating r) = Some z
                     /\ - max_float <= z <= max_float) ->
        exists stats, analyze_ratings_distribution revs = Ok stats)
  /\ (forall (revs : list Review) (r : Review),
        r ∈ revs -> int_of_str (rating r) = None ->
        analyze_ratings_distribution revs = Raise ValueError).
Proof.
  split; [reflexivity|]. split.
  - intros revs Hne Hall. unfold analyze_ratings_distribution.
    destruct (ratings_finite revs Hall) as (ratings & -> & Hlen & Hbs).
    assert (Hr : ratings <> []).
    { intros ->. destruct revs; [contradiction | discriminate]. }
    cbn [mbind result_bind].
    destruct (mean_in_range (- max_float) max_float to_float_finite
                (map PInt ratings)) as (m & -> & Hml & Hmh).
    { destruct ratings; [contradiction | discriminate]. }
    { intros x Hx. apply list_elem_of_fmap in Hx as (z' & -> & Hz).
      cbn [value]. rewrite <- !Zle_Qle. auto. }
    cbn [mbind result_bind].
    destruct (round2_in_range (- max_float) max_float to_float_finite m Hml Hmh)
      as (a & -> & _).
    destruct (median_in_range (- max_float) max_float to_float_finite
                ratings Hr Hbs) as (md & -> & _).
    cbn [mbind result_bind]. eauto.
  - intros revs r Hin Hnone. unfold analyze_ratings_distribution.
    rewrite (map_result_raise int_rating revs r ValueError); [reflexivity | assumption | |].
    + unfold int_rating. now rewrite Hnone.
    + intros y e' _ Hy. now apply int_rating_raise in Hy.
Qed.

(** C6.  When the aggregation returns, the counts of the distribution
    add up to [total_reviews], which is the number of reviews, and, the
    ratings being integers from 1 to 5, so do the low and high counts. *)
Theorem ratings_counts_add_up (revs : list Review) (stats : RatingStats) :
  analyze_ratings_distribution revs = Ok stats ->
  sum_list (dict_values (distribution stats)) = total_reviews stats
  /\ total_reviews stats = length revs
  /\ ((forall r, r ∈ revs ->
         exists z, int_of_str (rating r) = Some z /\ 1 <= z <= 5) ->
      (low_ratings_count stats + high_ratings_count stats)%nat
      = total_reviews stats).
Proof.
  unfold analyze_ratings_distribution. intros Hok.
  apply bind_ok in Hok as (ratings & Hratings & Hok).
  apply bind_ok in Hok as (average & _ & Hok).
  apply bind_ok in Hok as (rounded & _ & Hok).
  apply bind_ok in Hok as (med & _ & Hok).
  injection Hok as <-. cbn [distribution total_reviews low_ratings_count
                            high_ratings_count].
  split; [apply distribution_total|]. split.
  - apply map_result_ok in Hratings. symmetry. eapply Forall2_length, Hratings.
  - intros _. apply low_high_partition.
Qed.

End Ratings.

(** A list with one review whose rating is the empty string is not
    empty, and aggregating it raises [ValueError]; nor is a list with a
    rating of a one and four hundred zeros and a rating of five, and
    aggregating it raises [OverflowError]. *)
Lemma ratings_unrated_counterexample :
  [Samples.unrated] <> []
  /\ @analyze_ratings_distribution Reference.runtime [Samples.unrated]
     = Raise ValueError
  /\ [Samples.off_the_scale; Samples.five_stars] <> []
  /\ @analyze_ratings_distribution Reference.runtime
       [Samples.off_the_scale; Samples.five_stars]
     = Raise OverflowError.
Proof.
  split; [discriminate|]. split; [reflexivity|]. split; [discriminate|].
  vm_compute. reflexivity.
Qed.

Lemma ratings_raise_or_return_witness :
  exists stats,
    @analyze_ratings_distribution Reference.runtime
      [Samples.two_stars; Samples.five_stars] = Ok stats.
Proof.
  apply (proj1 (proj2 (@ratings_raise_or_return Reference.runtime))).
  - discriminate.
  - intros r Hr. apply elem_of_cons in Hr as [-> | Hr].
    + exists 2. split; [reflexivity | split; vm_compute; discriminate].
    + apply list_elem_of_singleton in Hr as ->.
      exists 5. split; [reflexivity | split; vm_compute; discriminate].
Defined.

Lemma ratings_counts_add_up_witness :
  match @analyze_ratings_distribution Reference.runtime
          [Samples.two_stars; Samples.five_stars] with
  | Ok stats =>
      sum_list (dict_values (distribution stats)) = total_reviews stats
      /\ total_reviews stats = 2%nat
      /\ (low_ratings_count stats + high_ratings_count stats)%nat
         = total_reviews stats
  | Raise _ => False
  end.
Proof.
  destruct (@analyze_ratings_distribution Reference.runtime
              [Samples.two_stars; Samples.five_stars])
    as [stats|e] eqn:Hrun; [|vm_compute in Hrun; discriminate].
  destruct (@ratings_counts_add_up Reference.runtime
              [Samples.two_stars; Samples.five_stars] stats Hrun)
    as (Hsum & Htotal & Hlowhigh).
  split; [exact Hsum|]. split; [exact Htotal|]. apply Hlowhigh.
  intros r Hr. apply elem_of_cons in Hr as [-> | Hr].
  - exists 2. split; [reflexivity | lia].
  - apply list_elem_of_singleton in Hr as ->.
    exists 5. split; [reflexivity | lia].
Defined.

End RatingsSpec.
(* ===================================================================== *)
(** * Properties of the trend analysis                                    *)
(* ===================================================================== *)

Module TrendsSpec.
Import Py PyFacts NumberFacts Analyzer.
#[local] Set Warnings "-clear-no-such-hyp".

(** ** Month keys follow the calendar *)

Lemma month_key_nth (d : datetime) :
  valid_month d -> month_key d = nth_month_key (month_index d - 13).
Proof.
  intros [Hy Hm]. unfold month_key, nth_month_key, month_index.
  assert (Hq : (year d * 12 + month d - 13) / 12 = year d - 1).
  { symmetry. apply (Z.div_unique_pos _ 12 _ (month d - 1)); lia. }
  assert (Hr : (year d * 12 + month d - 13) mod 12 = month d - 1).
  { symmetry. apply (Z.mod_unique_pos _ 12 (year d - 1)); lia. }
  rewrite Hq, Hr. f_equal; lia.
Qed.

(** From January of the year 1000 on, every key is below the next. *)
Lemma nth_month_key_checked :
  Pos.iter next_month_above (11988, true) 107999 = (119987, true).
Proof. vm_compute. reflexivity. Qed.

Lemma nth_month_key_next (n : Z) :
  11988 <= n < 119987 ->
  String.ltb (nth_month_key n) (nth_month_key (n + 1)) = true.
Proof.
  pose (Inv := fun p : Z * bool =>
          11988 <= fst p /\ (snd p = true -> forall k, 11988 <= k < fst p ->
            String.ltb (nth_month_key k) (nth_month_key (k + 1)) = true)).
  assert (Hinv : Inv (Pos.iter next_month_above (11988, true) 107999)).
  { apply Pos.iter_invariant.
    - intros [m ok] [Hm Hok]. unfold Inv, next_month_above.
      cbn [fst snd] in *. split; [lia|]. intros Hand k Hk.
      apply andb_true_iff in Hand as [Hok' Hstep].
      destruct (decide (k = m)) as [-> | Hne]; [assumption|].
      apply Hok; [assumption | lia].
    - split; [cbn; lia|]. intros _ k Hk. cbn in Hk. lia. }
  rewrite nth_month_key_checked in Hinv. destruct Hinv as [_ Hall].
  intros Hn. now apply Hall.
Qed.

Lemma nth_month_key_mono (a b : Z) :
  11988 <= a < b -> b < 9999 * 12 ->
  String.ltb (nth_month_key a) (nth_month_key b) = true.
Proof.
  intros [Ha Hab] Hb.
  replace b with (a + 1 + Z.of_nat (Z.to_nat (b - a - 1))) in * by lia.
  induction (Z.to_nat (b - a - 1)) as [|k IH].
  - rewrite Z.add_0_r. apply nth_month_key_next. lia.
  - eapply ltb_trans; [apply IH; lia|].
    replace (a + 1 + Z.of_nat (S k)) with (a + 1 + Z.of_nat k + 1) by lia.
    apply nth_month_key_next. lia.
Qed.

(** Month keys of valid dates with a year of four digits are ordered as
    the months are. *)
Lemma month_key_chronological (d1 d2 : datetime) :
  valid_month d1 -> valid_month d2 ->
  1000 <= year d1 -> 1000 <= year d2 ->
  (String.ltb (month_key d1) (month_key d2) = true
   <-> month_index d1 < month_index d2).
Proof.
  intros Hv1 Hv2 Hy1 Hy2.
  rewrite (month_key_nth d1 Hv1), (month_key_nth d2 Hv2).
  assert (Hr1 : 11988 <= month_index d1 - 13 < 9999 * 12)
    by (destruct Hv1; unfold month_index; lia).
  assert (Hr2 : 11988 <= month_index d2 - 13 < 9999 * 12)
    by (destruct Hv2; unfold month_index; lia).
  split.
  - intros Hlt. destruct (Z.lt_trichotomy (month_index d1) (month_index d2))
      as [Hc | [Hc | Hc]]; [assumption | |].
    + rewrite Hc, ltb_irrefl in Hlt. discriminate.
    + assert (Hgt : String.ltb (nth_month_key (month_index d2 - 13))
                               (nth_month_key (month_index d1 - 13)) = true)
        by (apply nth_month_key_mono; lia).
      pose proof (ltb_trans _ _ _ Hlt Hgt) as Hcyc.
      rewrite ltb_irrefl in Hcyc. discriminate.
  - intros Hlt. apply nth_month_key_mono; lia.
Qed.

(** ** The pipeline of [analyze_temporal_trends] *)

Section Trends.
Context `{Runtime}.

Lemma datable_parse (r : Review) : datable r <-> is_Some (parse_dated r).
Proof.
  unfold datable, parse_dated.
  destruct (fromisoformat _) as [d|], (int_of_str _) as [z|]; simpl;
    split; try (intros [[? ?] [? ?]]); try (intros [? ?]);
    try discriminate; eauto.
Qed.

Lemma dated_reviews_nil (revs : list Review) :
  (forall r, r ∈ revs -> ~ datable r) -> dated_reviews revs = [].
Proof.
  intros Hnone. apply elem_of_nil_inv. intros dr Hdr.
  apply list_elem_of_omap in Hdr as (r & Hr & Hp).
  apply (Hnone r Hr). apply datable_parse. now rewrite Hp.
Qed.

Lemma sort_by_date_ok {A} (l : list (datetime * A)) :
  mixed_awareness l = false ->
  exists l', sort_by_date l = Ok l' /\ l' ≡ₚ l.
Proof.
  intros Hm. unfold sort_by_date. rewrite Hm.
  eexists. split; [reflexivity | apply sorted_perm].
Qed.

Lemma sort_by_date_perm {A} (l l' : list (datetime * A)) :
  sort_by_date l = Ok l' -> l' ≡ₚ l.
Proof.
  unfold sort_by_date. destruct (mixed_awareness l); [discriminate|].
  intros [= <-]. apply sorted_perm.
Qed.

(** Every month of the grouping has a rating, and the months are those
    of the dated reviews, each once. *)
Lemma group_by_month_spec (dated : list (datetime * Z)) :
  NoDup (dict_keys (group_by_month dated))
  /\ Forall (fun ks => stats_ratings (snd ks) <> []) (group_by_month dated)
  /\ (forall k, k ∈ dict_keys (group_by_month dated)
                <-> exists dr, dr ∈ dated /\ k = month_key (fst dr)).
Proof.
  unfold group_by_month.
  set (step := fun (monthly_stats : dict MonthStats) (dr : datetime * Z) =>
                 dict_upd {| stats_count := 0; stats_ratings := [] |}
                   (month_key (fst dr)) (add_rating (snd dr)) monthly_stats).
  enough (Hgen : forall d0,
            NoDup (dict_keys d0) ->
            Forall (fun ks => stats_ratings (snd ks) <> []) d0 ->
            NoDup (dict_keys (foldl step d0 dated))
            /\ Forall (fun ks => stats_ratings (snd ks) <> [])
                      (foldl step d0 dated)
            /\ (forall k, k ∈ dict_keys (foldl step d0 dated)
                   <-> k ∈ dict_keys d0
                       \/ exists dr, dr ∈ dated /\ k = month_key (fst dr))).
  { destruct (Hgen []) as (Hnd & Hall & Hkeys); [constructor..|].
    split; [assumption|]. split; [assumption|].
    intros k. rewrite Hkeys. split; [|auto].
    intros [Hin | ?]; [now apply elem_of_nil in Hin | assumption]. }
  induction dated as [|dr dated IH]; intros d0 Hnd Hall; cbn [foldl].
  - split; [assumption|]. split; [assumption|].
    intros k. split; [auto|]. intros [? | (dr & Hdr & _)]; [assumption|].
    now apply elem_of_nil in Hdr.
  - destruct (IH (step d0 dr)) as (Hnd' & Hall' & Hkeys).
    + apply dict_upd_NoDup, Hnd.
    + apply Forall_forall. intros ks Hks. unfold step, dict_upd in Hks.
      apply dict_set_elem in Hks as [Hks | ->].
      * rewrite Forall_forall in Hall. now apply Hall.
      * cbn [snd add_rating stats_ratings]. intros Hnil.
        now apply app_eq_nil in Hnil as [_ ?].
    + split; [assumption|]. split; [assumption|].
      intros k. rewrite Hkeys. unfold step at 1. rewrite dict_upd_key_elem.
      split.
      * intros [[Hin | ->] | (dr' & Hdr' & ->)]; [now left | right..].
        -- exists dr. split; [left | reflexivity].
        -- exists dr'. split; [now right | reflexivity].
      * intros [Hin | (dr' & Hdr' & ->)]; [now left; left|].
        apply elem_of_cons in Hdr' as [-> | Hdr']; [left; now right|].
        right. eauto.
Qed.

(** The ratings of every month are ratings of dated reviews. *)
Lemma group_by_month_ratings (P : Z -> Prop) (dated : list (datetime * Z)) :
  (forall dr, dr ∈ dated -> P (snd dr)) ->
  Forall (fun ks => forall z, z ∈ stats_ratings (snd ks) -> P z)
         (group_by_month dated).
Proof.
  unfold group_by_month.
  set (step := fun (monthly_stats : dict MonthStats) (dr : datetime * Z) =>
                 dict_upd {| stats_count := 0; stats_ratings := [] |}
                   (month_key (fst dr)) (add_rating (snd dr)) monthly_stats).
  enough (Hgen : forall d0,
            Forall (fun ks => forall z, z ∈ stats_ratings (snd ks) -> P z) d0 ->
            (forall dr, dr ∈ dated -> P (snd dr)) ->
            Forall (fun ks => forall z, z ∈ stats_ratings (snd ks) -> P z)
                   (foldl step d0 dated)).
  { intros Hall. apply Hgen; [constructor | assumption]. }
  induction dated as [|dr dated IH]; intros d0 Hd0 Hall; cbn [foldl];
    [assumption|].
  apply IH; [|intros dr' Hdr'; apply Hall; now right].
  apply Forall_forall. intros ks Hks. unfold step, dict_upd in Hks.
  rewrite Forall_forall in Hd0.
  apply dict_set_elem in Hks as [Hks | ->]; [now apply Hd0|].
  cbn [snd add_rating stats_ratings]. intros z Hz.
  apply elem_of_app in Hz as [Hz | Hz].
  - destruct (dict_get (month_key (fst dr)) d0) as [stats|] eqn:Hget;
      cbn [from_option id stats_ratings] in Hz.
    + apply dict_get_Some_elem in Hget. exact (Hd0 _ Hget z Hz).
    + now apply elem_of_nil in Hz.
  - apply list_elem_of_singleton in Hz as ->. apply Hall. left.
Qed.

Lemma monthly_averages_total (items : list (string * MonthStats)) :
  Forall (fun ks => stats_ratings (snd ks) <> []) items ->
  Forall (fun ks => forall z, z ∈ stats_ratings (snd ks) ->
                      - max_float <= z <= max_float) items ->
  forall acc,
    Forall (fun kt => finite (avg_rating (snd kt))) acc ->
    exists mt, monthly_averages items acc = Ok mt
               /\ Forall (fun kt => finite (avg_rating (snd kt))) mt.
Proof.
  induction 1 as [|[k s] items Hs Hall IH]; intros Hfin acc Hacc;
    cbn [monthly_averages].
  - eauto.
  - cbn [snd] in Hs. apply Forall_cons in Hfin as [Hks Hfin]. cbn [snd] in Hks.
    destruct (mean_finite (map PInt (stats_ratings s))) as (m & -> & Hm).
    { destruct (stats_ratings s); [contradiction | discriminate]. }
    { intros x Hx. apply list_elem_of_fmap in Hx as (z & -> & Hz).
      apply finite_int. auto. }
    cbn [mbind result_bind].
    destruct (round2_finite m Hm) as (a & -> & Ha).
    cbn [mbind result_bind]. apply IH; [assumption|].
    apply Forall_forall. intros kt Hkt. rewrite Forall_forall in Hacc.
    apply dict_set_elem in Hkt as [Hkt | ->]; [now apply Hacc | exact Ha].
Qed.

Lemma monthly_averages_keys (items : list (string * MonthStats)) :
  forall acc mt,
    monthly_averages items acc = Ok mt ->
    (NoDup (dict_keys acc) -> NoDup (dict_keys mt))
    /\ (forall k, k ∈ dict_keys mt <-> k ∈ dict_keys acc \/ k ∈ map fst items).
Proof.
  induction items as [|[k s] items IH]; intros acc mt; cbn [monthly_averages].
  - intros [= <-]. split; [auto|]. intros k. cbn [map]. split; [auto|].
    intros [? | Hin]; [assumption | now apply elem_of_nil in Hin].
  - intros Hm. apply bind_ok in Hm as (average & _ & Hm).
    apply bind_ok in Hm as (rounded & _ & Hm).
    apply IH in Hm as [Hnd Hkeys]. split.
    + intros Hacc. apply Hnd. now apply dict_set_NoDup.
    + intros k'. rewrite Hkeys. cbn [map fst].
      rewrite dict_set_keys, elem_of_cons.
      case_bool_decide as Hin.
      * split; [tauto|]. intros [? | [-> | ?]]; auto.
      * rewrite elem_of_app, list_elem_of_singleton. tauto.
Qed.

Lemma avg_ratings_length (months : list string) (mt : dict MonthTrend) :
  (forall m, m ∈ months -> m ∈ dict_keys mt) ->
  length (avg_ratings months mt) = length months.
Proof.
  unfold avg_ratings. induction months as [|m months IH]; intros Hsub.
  - reflexivity.
  - cbn [omap list_omap].
    destruct (proj2 (dict_get_is_Some m mt)) as [t Ht]; [apply Hsub; left|].
    rewrite Ht. cbn. f_equal. apply IH. intros m' Hm'. apply Hsub. now right.
Qed.

Lemma sorted_keys_slice_elem (mt : dict MonthTrend) a b m :
  m ∈ slice (sorted_str (dict_keys mt)) a b -> m ∈ dict_keys mt.
Proof.
  intros Hm. apply (sublist_subseteq _ _ (slice_sublist _ a b)) in Hm.
  now rewrite sorted_str_perm in Hm.
Qed.

Lemma avg_ratings_finite (months : list string) (mt : dict MonthTrend) :
  Forall (fun kt => finite (avg_rating (snd kt))) mt ->
  forall x, x ∈ avg_ratings months mt -> finite x.
Proof.
  intros Hmt x Hx. unfold avg_ratings in Hx.
  apply list_elem_of_omap in Hx as (m & _ & Hget).
  destruct (dict_get m mt) as [t|] eqn:Ht; [|discriminate].
  injection Hget as <-. apply dict_get_Some_elem in Ht.
  rewrite Forall_forall in Hmt. exact (Hmt _ Ht).
Qed.

Lemma not_nil_of_length {A} (l : list A) : (0 < length l)%nat -> l <> [].
Proof. destruct l; [cbn; lia | discriminate]. Qed.

Lemma recent_months_length (mt : dict MonthTrend) :
  length (recent_months mt) = Nat.min 3 (length mt).
Proof.
  unfold recent_months. change (-3) with (- Z.of_nat 3).
  rewrite slice_last by lia. rewrite length_drop, sorted_str_length.
  unfold dict_keys. rewrite length_map. lia.
Qed.


Lemma trend_windows_total (mt : dict MonthTrend) :
  mt <> [] ->
  Forall (fun kt => finite (avg_rating (snd kt))) mt ->
  exists w, trend_windows mt = Ok w /\ finite (fst w).
Proof.
  intros Hne Hfin. unfold trend_windows.
  destruct (mean_finite (avg_ratings (recent_months mt) mt))
    as (recent_avg & -> & Hrecent).
  { apply not_nil_of_length. rewrite avg_ratings_length
      by (intros m; unfold recent_months; apply sorted_keys_slice_elem).
    rewrite recent_months_length. destruct mt; [contradiction | simpl; lia]. }
  { now apply avg_ratings_finite. }
  cbn [mbind result_bind].
  destruct (previous_months mt) as [|m months] eqn:Hprev.
  - cbn [mbind result_bind]. eauto.
  - destruct (mean_finite (avg_ratings (m :: months) mt))
      as (previous_avg & -> & _).
    { apply not_nil_of_length. rewrite avg_ratings_length; [simpl; lia|].
      intros m'. rewrite <- Hprev. unfold previous_months.
      apply sorted_keys_slice_elem. }
    { now apply avg_ratings_finite. }
    cbn [mbind result_bind]. eauto.
Qed.


(** With at most three months there is no previous window, and the
    previous average is the recent one. *)
Lemma trend_windows_no_previous (mt : dict MonthTrend) w :
  (length mt <= 3)%nat -> trend_windows mt = Ok w -> fst w = snd w.
Proof.
  intros Hlen. unfold trend_windows, previous_months.
  change (-6) with (- Z.of_nat (2 * 3)). change (-3) with (- Z.of_nat 3).
  rewrite (slice_before_last_nil _ 3)
    by (try (rewrite sorted_str_length; unfold dict_keys; rewrite length_map);
        lia).
  intros Hw. apply bind_ok in Hw as (recent_avg & _ & Hw).
  cbn [mbind result_bind] in Hw. now injection Hw as <-.
Qed.


(** The monthly averages: their months are those of the dated reviews. *)
Lemma monthly_trends_of_spec (revs : list Review) (mt : dict MonthTrend) :
  monthly_trends_of revs = Ok mt ->
  NoDup (dict_keys mt)
  /\ (forall k, k ∈ dict_keys mt
                <-> exists dr, dr ∈ dated_reviews revs /\ k = month_key (fst dr)).
Proof.
  unfold monthly_trends_of. intros Hm.
  apply bind_ok in Hm as (dated & Hsort & Hm).
  apply sort_by_date_perm in Hsort.
  destruct (group_by_month_spec dated) as (Hnd & _ & Hkeys).
  apply monthly_averages_keys in Hm as [Hnd' Hkeys'].
  split; [apply Hnd'; constructor|].
  intros k. rewrite Hkeys'. fold (dict_keys (group_by_month dated)).
  rewrite Hkeys. setoid_rewrite Hsort. split; [|auto].
  intros [Hin | ?]; [now apply elem_of_nil in Hin | assumption].
Qed.

Lemma monthly_trends_of_total (revs : list Review) :
  mixed_awareness (dated_reviews revs) = false ->
  (forall dr, dr ∈ dated_reviews revs -> - max_float <= snd dr <= max_float) ->
  exists mt, monthly_trends_of revs = Ok mt
             /\ Forall (fun kt => finite (avg_rating (snd kt))) mt.
Proof.
  intros Hm Hfin. unfold monthly_trends_of.
  destruct (sort_by_date_ok _ Hm) as (dated & -> & Hperm).
  cbn [mbind result_bind]. apply monthly_averages_total.
  - apply group_by_month_spec.
  - apply (group_by_month_ratings (fun z => - max_float <= z <= max_float)).
    intros dr Hdr. apply Hfin. now rewrite <- Hperm.
  - constructor.
Qed.
(** ** When the analysis raises and when it returns *)

Lemma monthly_trends_not_nil (revs : list Review) (mt : dict MonthTrend) r :
  monthly_trends_of revs = Ok mt -> r ∈ revs -> datable r -> mt <> [].
Proof.
  intros Hm Hr Hd Hnil. apply monthly_trends_of_spec in Hm as [_ Hkeys].
  apply datable_parse in Hd as [dr Hdr].
  assert (Hin : month_key (fst dr) ∈ dict_keys mt).
  { apply Hkeys. exists dr. split; [|reflexivity].
    apply list_elem_of_omap. eauto. }
  rewrite Hnil in Hin. now apply elem_of_nil in Hin.
Qed.

(** A dated review is a datable review with its rating converted. *)
Lemma dated_reviews_rating (revs : list Review) (dr : datetime * Z) :
  dr ∈ dated_reviews revs ->
  exists r, r ∈ revs /\ datable r /\ int_of_str (rating r) = Some (snd dr).
Proof.
  intros Hdr. apply list_elem_of_omap in Hdr as (r & Hr & Hp).
  exists r. split; [assumption|].
  split; [apply datable_parse; now rewrite Hp|].
  unfold parse_dated in Hp.
  destruct (fromisoformat _) as [date|]; [|discriminate]. cbn in Hp.
  destruct (int_of_str (rating r)) as [z|]; [|discriminate].
  cbn in Hp. now injection Hp as <-.
Qed.

(** C10, as the code has it.  When no review has both a timestamp that
    parses and a rating that converts (so also for no review at all), the
    analysis raises [StatisticsError]: the recent months are none.  When
    some review has both, the parsed timestamps are all naive or all
    aware, and the ratings of the reviews that have both are at most the
    largest [float] in magnitude, it returns.  When naive and aware
    timestamps are mixed, the sort raises [TypeError]. *)
Theorem trends_raise_or_return :
  (forall revs : list Review,
     (forall r, r ∈ revs -> ~ datable r) ->
     analyze_temporal_trends revs = Raise StatisticsError)
  /\ (forall revs : list Review,
        (exists r, r ∈ revs /\ datable r) ->
        mixed_awareness (dated_reviews revs) = false ->
        (forall r z, r ∈ revs -> datable r ->
           int_of_str (rating r) = Some z -> - max_float <= z <= max_float) ->
        exists stats, analyze_temporal_trends revs = Ok stats)
  /\ (forall revs : list Review,
        mixed_awareness (dated_reviews revs) = true ->
        analyze_temporal_trends revs = Raise TypeError).
Proof.
  split; [|split].
  - intros revs Hnone.
    unfold analyze_temporal_trends, monthly_trends_of.
    now rewrite (dated_reviews_nil revs Hnone).
  - intros revs (r & Hr & Hd) Hmixed Hfin. unfold analyze_temporal_trends.
    destruct (monthly_trends_of_total revs Hmixed) as (mt & Hmt & Hall).
    { intros dr Hdr.
      apply dated_reviews_rating in Hdr as (r' & Hr' & Hd' & Hz). eauto. }
    rewrite Hmt. cbn [mbind result_bind].
    destruct (trend_windows_total mt) as (w & -> & Hw);
      [eapply monthly_trends_not_nil; eassumption | assumption |].
    cbn [mbind result_bind].
    destruct (round2_finite (fst w) Hw) as (a & -> & _).
    cbn [mbind result_bind]. eauto.
  - intros revs Hmixed.
    unfold analyze_temporal_trends, monthly_trends_of, sort_by_date.
    now rewrite Hmixed.
Qed.

(** ** The neutral default of the trend *)

Lemma analyze_temporal_trends_eq (revs : list Review) (stats : TrendStats) :
  analyze_temporal_trends revs = Ok stats ->
  exists mt recent_avg previous_avg,
    monthly_trends_of revs = Ok mt
    /\ trend_windows mt = Ok (recent_avg, previous_avg)
    /\ round2 recent_avg = Ok (recent_avg_rating stats)
    /\ recent_trend stats = classify recent_avg previous_avg
    /\ monthly_trends stats
       = dict_of_items (slice (sorted_items mt) (Some (-12)) None).
Proof.
  unfold analyze_temporal_trends. intros Hok.
  apply bind_ok in Hok as (mt & Hmt & Hok).
  apply bind_ok in Hok as ([recent_avg previous_avg] & Hw & Hok).
  apply bind_ok in Hok as (rounded & Hround & Hok).
  assert (Hstats := f_equal (fun o => match o with
                                      | Ok s => s
                                      | Raise _ => stats
                                      end) Hok).
  cbv beta iota in Hstats. subst stats.
  exists mt, recent_avg, previous_avg. cbn [fst snd] in *.
  repeat split; assumption || reflexivity.
Qed.



(** ** The monthly series *)

Lemma monthly_series_eq (revs : list Review) (stats : TrendStats) :
  analyze_temporal_trends revs = Ok stats ->
  exists mt,
    monthly_trends_of revs = Ok mt
    /\ monthly_trends stats
       = drop (length mt - 12) (sorted_items mt).
Proof.
  intros Hok.
  destruct (analyze_temporal_trends_eq revs stats Hok)
    as (mt & recent_avg & previous_avg & Hmt & _ & _ & _ & ->).
  exists mt. split; [assumption|].
  destruct (monthly_trends_of_spec revs mt Hmt) as [Hnd _].
  change (-12) with (- Z.of_nat 12). rewrite slice_last by lia.
  rewrite sorted_items_length.
  apply dict_of_items_NoDup.
  change (NoDup (fst <$> drop (length mt - 12) (sorted_items mt))).
  rewrite fmap_drop. eapply sublist_NoDup; [|apply sublist_drop].
  now rewrite sorted_items_perm.
Qed.

(** C8, as the code has it.  The monthly series has at most 12 months;
    its keys increase strictly; each is the month of a dated review; a
    month of a dated review is left out only when the series has 12
    months, and is then before every month of the series in the order
    of the keys; and for dates with a year of four digits the order of
    the keys is the order of the calendar, so that the series is in
    chronological order and a month that is left out is earlier than
    every month that is kept. *)
Theorem monthly_series_recent_sorted (revs : list Review) (stats : TrendStats) :
  analyze_temporal_trends revs = Ok stats ->
  let series := dict_keys (monthly_trends stats) in
  (length series <= 12)%nat
  /\ StronglySorted (fun k1 k2 => String.ltb k1 k2 = true) series
  /\ (forall k, k ∈ series ->
        exists dr, dr ∈ dated_reviews revs /\ k = month_key (fst dr))
  /\ (forall dr, dr ∈ dated_reviews revs ->
        month_key (fst dr) ∉ series -> length series = 12%nat)
  /\ (forall dr k, dr ∈ dated_reviews revs ->
        month_key (fst dr) ∉ series -> k ∈ series ->
        String.ltb (month_key (fst dr)) k = true)
  /\ (forall (d1 d2 : datetime) (i j : nat),
        valid_month d1 -> valid_month d2 ->
        1000 <= year d1 -> 1000 <= year d2 ->
        series !! i = Some (month_key d1) ->
        series !! j = Some (month_key d2) ->
        (i < j)%nat -> month_index d1 < month_index d2)
  /\ (forall dr1 dr2,
        dr1 ∈ dated_reviews revs -> dr2 ∈ dated_reviews revs ->
        valid_month (fst dr1) -> valid_month (fst dr2) ->
        1000 <= year (fst dr1) -> 1000 <= year (fst dr2) ->
        month_key (fst dr1) ∉ series -> month_key (fst dr2) ∈ series ->
        month_index (fst dr1) < month_index (fst dr2)).
Proof.
  intros Hok series.
  destruct (monthly_series_eq revs stats Hok) as (mt & Hmt & Heq).
  destruct (monthly_trends_of_spec revs mt Hmt) as [Hnd Hkeys].
  pose proof (sorted_items_strict mt Hnd) as Hsorted.
  set (n := (length mt - 12)%nat) in *.
  assert (Hseries : series = drop n (dict_keys (sorted_items mt))).
  { unfold series. rewrite Heq. apply (fmap_drop fst). }
  assert (Hlength : length series = (length mt - n)%nat).
  { rewrite Hseries, length_drop. unfold dict_keys.
    now rewrite length_map, sorted_items_length. }
  rewrite <- (take_drop n (dict_keys (sorted_items mt))) in Hsorted.
  rewrite <- Hseries in Hsorted.
  assert (Hperm : forall k, k ∈ dict_keys (sorted_items mt) <-> k ∈ dict_keys mt).
  { intros k. unfold dict_keys. now rewrite sorted_items_perm. }
  assert (Hstrict : StronglySorted (fun k1 k2 => String.ltb k1 k2 = true) series)
    by (eapply StronglySorted_app_1_r; exact Hsorted).
  assert (Hout : forall dr, dr ∈ dated_reviews revs ->
            month_key (fst dr) ∉ series ->
            month_key (fst dr) ∈ take n (dict_keys (sorted_items mt))).
  { intros dr Hdr Hnot.
    assert (Hin : month_key (fst dr) ∈ dict_keys (sorted_items mt)).
    { apply Hperm, Hkeys. eauto. }
    rewrite <- (take_drop n (dict_keys (sorted_items mt))), <- Hseries in Hin.
    apply elem_of_app in Hin as [Hin | Hin]; [assumption | contradiction]. }
  assert (Hbefore : forall dr k, dr ∈ dated_reviews revs ->
            month_key (fst dr) ∉ series -> k ∈ series ->
            String.ltb (month_key (fst dr)) k = true).
  { intros dr k Hdr Hnot Hk.
    eapply (StronglySorted_app_1_elem_of _ _ _ _ _ Hsorted); [|eassumption].
    now apply Hout. }
  split; [|split; [|split; [|split; [|split; [|split]]]]].
  - rewrite Hlength. unfold n. lia.
  - exact Hstrict.
  - intros k Hk. apply Hkeys, Hperm.
    rewrite Hseries in Hk. eapply subseteq_drop, Hk.
  - intros dr Hdr Hnot. apply Hout in Hnot; [|assumption].
    destruct (decide (n = 0%nat)) as [Hz | Hnz].
    + rewrite Hz, take_0 in Hnot. now apply elem_of_nil in Hnot.
    + rewrite Hlength. unfold n in *. lia.
  - exact Hbefore.
  - intros d1 d2 i j Hv1 Hv2 Hy1 Hy2 Hi Hj Hij.
    apply month_key_chronological; [assumption..|].
    exact (StronglySorted_lookup _ _ Hstrict i j _ _ Hi Hj Hij).
  - intros dr1 dr2 Hdr1 Hdr2 Hv1 Hv2 Hy1 Hy2 Hnot Hin.
    apply month_key_chronological; [assumption..|].
    now apply Hbefore.
Qed.

End Trends.

(** ** Worked inputs *)


(** The timestamp of [unrated] parses, and the timestamps of
    [mixed_zones] parse and their ratings convert; still the analysis
    of either raises.  So does the analysis of two reviews of one month
    whose ratings convert, to a one with four hundred zeros and to
    five. *)
Lemma trends_parseable_counterexample :
  (is_Some (Reference.iso_datetime
              (str_replace "Z" "+00:00" (updated Samples.unrated)))
   /\ @analyze_temporal_trends Reference.runtime [Samples.unrated]
      = Raise StatisticsError)
  /\ (Forall (@datable Reference.runtime) Samples.mixed_zones
      /\ @analyze_temporal_trends Reference.runtime Samples.mixed_zones
         = Raise TypeError)
  /\ (Forall (@datable Reference.runtime)
             [Samples.off_the_scale; Samples.five_stars]
      /\ @analyze_temporal_trends Reference.runtime
           [Samples.off_the_scale; Samples.five_stars]
         = Raise OverflowError).
Proof.
  split; [|split]; (split; [|vm_compute; reflexivity]).
  - vm_compute. eauto.
  - repeat constructor; vm_compute; eauto.
  - repeat constructor; vm_compute; eauto.
Qed.

(** The series of a review of December 999 and one of January 1000 has
    the later month first. *)
Lemma monthly_series_year_999_counterexample :
  exists stats d999 d1000,
    @dated_reviews Reference.runtime Samples.years_999_1000
    = [(d999, 4); (d1000, 4)]
    /\ valid_month d999 /\ valid_month d1000
    /\ month_index d999 < month_index d1000
    /\ @analyze_temporal_trends Reference.runtime Samples.years_999_1000
       = Ok stats
    /\ dict_keys (monthly_trends stats) = [month_key d1000; month_key d999].
Proof.
  do 3 eexists. split; [vm_compute; reflexivity|].
  split; [unfold valid_month; cbn; lia|].
  split; [unfold valid_month; cbn; lia|].
  split; [reflexivity|].
  split; vm_compute; reflexivity.
Qed.

Lemma trends_raise_or_return_witness :
  exists stats,
    @analyze_temporal_trends Reference.runtime
      [Samples.two_stars; Samples.five_stars] = Ok stats.
Proof.
  apply (proj1 (proj2 (@trends_raise_or_return Reference.runtime))).
  - exists Samples.two_stars. split; [left|].
    split; vm_compute; eauto.
  - vm_compute. reflexivity.
  - intros r z Hr _ Hz.
    apply elem_of_cons in Hr as [-> | Hr];
      [|apply list_elem_of_singleton in Hr as ->];
      vm_compute in Hz; injection Hz as <-; split; vm_compute; discriminate.
Defined.


Lemma monthly_series_recent_sorted_witness :
  match @analyze_temporal_trends Reference.runtime Samples.thirteen_months with
  | Ok stats =>
      length (dict_keys (monthly_trends stats)) = 12%nat
      /\ StronglySorted (fun k1 k2 => String.ltb k1 k2 = true)
           (dict_keys (monthly_trends stats))
      /\ (forall k, k ∈ dict_keys (monthly_trends stats) ->
            String.ltb "2023-01" k = true)
  | Raise _ => False
  end.
Proof.
  destruct (@analyze_temporal_trends Reference.runtime Samples.thirteen_months)
    as [stats|e] eqn:Hrun; [|vm_compute in Hrun; discriminate].
  destruct (@monthly_series_recent_sorted Reference.runtime
              Samples.thirteen_months stats Hrun)
    as (_ & Hsorted & _ & Hfull & Hbefore & _).
  assert (exists dr, dr ∈ @dated_reviews Reference.runtime Samples.thirteen_months
                     /\ month_key (fst dr) = "2023-01") as (dr & Hdr & Hkey).
  { set (dated := dated_reviews _). vm_compute in dated. subst dated.
    eexists. split; [left | vm_compute; reflexivity]. }
  assert (month_key (fst dr) ∉ dict_keys (monthly_trends stats)) as Hout.
  { rewrite Hkey. clear -Hrun. vm_compute in Hrun. injection Hrun as <-.
    cbn [dict_keys map fst monthly_trends]. compute_done. }
  split; [exact (Hfull dr Hdr Hout)|]. split; [exact Hsorted|].
  intros k Hk. rewrite <- Hkey. exact (Hbefore dr k Hdr Hout Hk).
Defined.

End TrendsSpec.
(* ===================================================================== *)
(** * Properties of the issue and feature-request extraction              *)
(* ===================================================================== *)

Module IssuesSpec.
Import Py PyFacts TextFacts Analyzer.
#[local] Set Warnings "-clear-no-such-hyp".

Section Issues.
Context `{Runtime}.

(** ** The reviews kept for the issues *)

Lemma low_rated_filter (revs low : list Review) :
  low_rated revs = Ok low -> low = List.filter low_rating revs.
Proof.
  revert low. induction revs as [|r revs IH]; intros low; cbn [low_rated].
  - now intros [= <-].
  - intros Hl. apply bind_ok in Hl as (z & Hz & Hl).
    apply bind_ok in Hl as (low' & Hlow' & Hl). injection Hl as <-.
    cbn [List.filter]. unfold low_rating at 1.
    unfold int_rating in Hz.
    destruct (int_of_str (rating r)) as [z'|]; [|discriminate].
    injection Hz as ->. cbn [from_option].
    rewrite (IH low' Hlow'). now destruct (z <=? 3).
Qed.

Lemma low_rated_total (revs : list Review) :
  (forall r, r ∈ revs -> is_Some (int_of_str (rating r))) ->
  exists low, low_rated revs = Ok low.
Proof.
  induction revs as [|r revs IH]; intros Hall; cbn [low_rated]; [eauto|].
  destruct (Hall r) as [z Hz]; [left|].
  unfold int_rating. rewrite Hz. cbn [option_to_result mbind result_bind].
  destruct IH as [low ->]; [intros; apply Hall; now right|].
  cbn [mbind result_bind]. eauto.
Qed.

(** ** What the vocabulary says *)

Lemma low_rating_spec (r : Review) :
  low_rating r = true <-> exists z, int_of_str (rating r) = Some z /\ z <= 3.
Proof.
  unfold low_rating. destruct (int_of_str (rating r)) as [z|]; cbn.
  - rewrite Z.leb_le. split; [eauto | intros (z' & [= <-] & Hz); exact Hz].
  - split; [discriminate | intros (z & [=] & _)].
Qed.

Lemma mentions_spec (keywords : list string) (r : Review) :
  mentions keywords r = true
  <-> exists keyword pre post,
        keyword ∈ keywords
        /\ lower (title r ++ " " ++ content r) = (pre ++ keyword ++ post)%string.
Proof. unfold mentions, text_of. apply any_in_spec. Qed.

Lemma requests_feature_spec (r : Review) :
  requests_feature r = true
  <-> exists pattern pre m post,
        pattern ∈ feature_patterns /\ in_language pattern m
        /\ lower (title r ++ " " ++ content r) = (pre ++ m ++ post)%string.
Proof.
  unfold requests_feature, text_of. rewrite existsb_exists. split.
  - intros (pattern & Hin & Hs).
    apply re_search_spec in Hs as (pre & m & post & Hm & Heq).
    exists pattern, pre, m, post. split; [now apply list_elem_of_In | auto].
  - intros (pattern & pre & m & post & Hin & Hm & Heq). exists pattern.
    split; [now apply list_elem_of_In | apply re_search_spec; eauto].
Qed.

Lemma sample_of_spec (n : nat) (r : Review) :
  sample_rating (sample_of n r) = rating r
  /\ ((char_length (content r) <= n)%nat ->
      sample_excerpt (sample_of n r) = content r)
  /\ ((n < char_length (content r))%nat ->
      exists cut c rest,
        content r = (cut ++ String c rest)%string
        /\ char_length cut = n
        /\ is_continuation c = false
        /\ sample_excerpt (sample_of n r) = (cut ++ "...")%string).
Proof. split; [reflexivity|]. cbn [sample_of sample_excerpt]. apply excerpt_spec. Qed.

(** ** One review against every category *)

Lemma dict_get_upd {V} (dflt : V) k k' f d :
  dict_get k' (dict_upd dflt k f d)
  = if String.eqb k' k then Some (f (default dflt (dict_get k d)))
    else dict_get k' d.
Proof. unfold dict_upd. apply dict_get_set. Qed.

(** The categories being pairwise distinct, the loop over them updates
    each matching category once and leaves the others alone. *)
Lemma categorize_get (cats : list (string * list string)) (review : Review) :
  NoDup (map fst cats) ->
  forall (counts : dict CategoryCount) category keywords,
    (category, keywords) ∈ cats ->
    dict_get category
      (foldl (fun counts ck =>
                if any_in (snd ck) (text_of review)
                then dict_upd {| cat_count := 0; examples := [] |}
                       (fst ck) (note_issue review) counts
                else counts) counts cats)
    = if mentions keywords review
      then Some (note_issue review
                   (default {| cat_count := 0; examples := [] |}
                      (dict_get category counts)))
      else dict_get category counts.
Proof.
  induction cats as [|[c kws] cats IH]; intros Hnd counts category keywords Hin.
  - now apply elem_of_nil in Hin.
  - cbn [map fst] in Hnd. apply NoDup_cons in Hnd as [Hc Hnd].
    cbn [foldl fst snd].
    assert (Hrest : forall counts',
              category ∉ map fst cats ->
              dict_get category
                (foldl (fun counts ck =>
                          if any_in (snd ck) (text_of review)
                          then dict_upd {| cat_count := 0; examples := [] |}
                                 (fst ck) (note_issue review) counts
                          else counts) counts' cats)
              = dict_get category counts').
    { clear. induction cats as [|[c' kws'] cats IH']; intros counts' Hni;
        [reflexivity|].
      cbn [map fst] in Hni. apply not_elem_of_cons in Hni as [Hne Hni].
      cbn [foldl fst snd]. rewrite IH' by assumption.
      destruct (any_in kws' (text_of review)); [|reflexivity].
      rewrite dict_get_upd.
      destruct (String.eqb_spec category c'); [contradiction | reflexivity]. }
    apply elem_of_cons in Hin as [[= -> ->] | Hin].
    + rewrite Hrest by assumption. unfold mentions.
      destruct (any_in kws (text_of review)); [|reflexivity].
      rewrite dict_get_upd, String.eqb_refl. reflexivity.
    + rewrite (IH Hnd _ category keywords Hin).
      assert (Hne : category <> c).
      { intros ->. apply Hc. apply list_elem_of_fmap.
        exists (c, keywords). split; [reflexivity | assumption]. }
      destruct (any_in kws (text_of review)); [|reflexivity].
      rewrite dict_get_upd.
      destruct (String.eqb_spec category c); [contradiction | reflexivity].
Qed.

(** Counting one more review for a category. *)
Lemma tally_snoc (hits : list Review) (review : Review) :
  Some (note_issue review
          (default {| cat_count := 0; examples := [] |} (tally hits)))
  = tally (hits ++ [review]).
Proof.
  unfold tally, note_issue.
  destruct hits as [|h hits]; [reflexivity|].
  cbn [from_option cat_count examples app]. unfold Datatypes.id.
  cbn [cat_count examples].
  f_equal. f_equal.
  - cbn [length]. rewrite length_app. cbn. lia.
  - change (h :: hits ++ [review]) with ((h :: hits) ++ [review]).
    generalize (h :: hits). intros l. rewrite map_app. cbn [map].
    destruct (Nat.ltb_spec (length (take 3 (map (sample_of 200) l))) 3)
      as [Hlt | Hge].
    + rewrite length_take, length_map in Hlt.
      rewrite (take_ge (map _ l)) by (rewrite length_map; lia).
      rewrite take_ge; [reflexivity|].
      rewrite length_app, length_map. cbn. lia.
    + rewrite length_take, length_map in Hge.
      rewrite take_app_le by (rewrite length_map; lia). reflexivity.
Qed.

Lemma issue_categories_NoDup : NoDup (map fst issue_categories).
Proof. compute_done. Qed.

(** After the loop over the kept reviews, each category holds the tally
    of the kept reviews that mention one of its keywords. *)
Lemma categorize_all (low : list Review) category keywords :
  (category, keywords) ∈ issue_categories ->
  dict_get category (foldl categorize [] low)
  = tally (List.filter (mentions keywords) low).
Proof.
  intros Hin. induction low as [|review low IH] using rev_ind; [reflexivity|].
  rewrite foldl_app. cbn [foldl]. unfold categorize at 1.
  rewrite (categorize_get issue_categories review issue_categories_NoDup
             _ category keywords Hin).
  rewrite IH, List.filter_app. cbn [List.filter].
  destruct (mentions keywords review).
  - apply tally_snoc.
  - now rewrite app_nil_r.
Qed.

Lemma filter_filter_and {A} (f g : A -> bool) (l : list A) :
  List.filter g (List.filter f l) = List.filter (fun x => f x && g x) l.
Proof.
  induction l as [|x l IH]; [reflexivity|]. cbn [List.filter].
  destruct (f x); cbn [List.filter andb]; [|assumption].
  destruct (g x); now rewrite IH.
Qed.

(** C7.  The extraction returns when every rating converts.  What it
    returns holds, for each category of the table, the tally of the
    reviews that are rated 3 or less and mention one of the category's
    keywords: their number, whatever other categories they also count
    for, and the samples of the first three.  A review mentions a
    keyword when the keyword occurs in the lower-cased text of its
    title, a space and its content.  A sample has the review's rating
    and its content, cut to its first 200 characters followed by three
    dots when it has more than 200. *)
Theorem issues_tallied_by_category (revs : list Review) :
  ((forall r, r ∈ revs -> is_Some (int_of_str (rating r))) ->
   exists stats, extract_keywords_and_issues revs = Ok stats)
  /\ (forall stats,
        extract_keywords_and_issues revs = Ok stats ->
        forall category keywords,
          (category, keywords) ∈ issue_categories ->
          dict_get category (issue_categories_found stats)
          = tally (List.filter
                     (fun r => low_rating r && mentions keywords r) revs)
          /\ (forall c, dict_get category (issue_categories_found stats)
                        = Some c ->
                        (length (examples c) <= 3)%nat))
  /\ (forall r : Review,
        low_rating r = true
        <-> exists z, int_of_str (rating r) = Some z /\ z <= 3)
  /\ (forall (keywords : list string) (r : Review),
        mentions keywords r = true
        <-> exists keyword pre post,
              keyword ∈ keywords
              /\ lower (title r ++ " " ++ content r)
                 = (pre ++ keyword ++ post)%string)
  /\ (forall r : Review,
        sample_rating (sample_of 200 r) = rating r
        /\ ((char_length (content r) <= 200)%nat ->
            sample_excerpt (sample_of 200 r) = content r)
        /\ ((200 < char_length (content r))%nat ->
            exists cut c rest,
              content r = (cut ++ String c rest)%string
              /\ char_length cut = 200%nat
              /\ is_continuation c = false
              /\ sample_excerpt (sample_of 200 r) = (cut ++ "...")%string)).
Proof.
  split; [|split; [|split; [|split]]].
  - intros Hall. unfold extract_keywords_and_issues.
    destruct (low_rated_total revs Hall) as [low ->].
    cbn [mbind result_bind]. eauto.
  - unfold extract_keywords_and_issues. intros stats Hok category keywords Hin.
    apply bind_ok in Hok as (low & Hlow & Hok). injection Hok as <-.
    cbn [issue_categories_found].
    rewrite (categorize_all low category keywords Hin).
    rewrite (low_rated_filter revs low Hlow), filter_filter_and.
    split; [reflexivity|]. intros c Hc. unfold tally in Hc.
    destruct (List.filter _ revs); [discriminate|]. injection Hc as <-.
    cbn [examples length]. rewrite length_take. lia.
  - apply low_rating_spec.
  - apply mentions_spec.
  - intros r. apply sample_of_spec.
Qed.

(** ** Feature requests *)

Lemma scan_patterns_spec (patterns : list regex) (review : Review)
    (feature_requests : list Sample) :
  scan_patterns patterns review feature_requests
  = if existsb (fun pattern => re_search pattern (text_of review)) patterns
    then feature_requests ++ [sample_of 300 review]
    else feature_requests.
Proof.
  induction patterns as [|pattern rest IH]; cbn [scan_patterns existsb];
    [reflexivity|].
  destruct (re_search pattern (text_of review)); [reflexivity | exact IH].
Qed.

(** The first pattern found decides: the patterns after it are not
    looked at, and one sample is appended. *)
Lemma scan_patterns_first (before after : list regex) (pattern : regex)
    (review : Review) (feature_requests : list Sample) :
  re_search pattern (text_of review) = true ->
  scan_patterns (before ++ pattern :: after) review feature_requests
  = feature_requests ++ [sample_of 300 review].
Proof.
  intros Hfound. induction before as [|p before IH];
    cbn [app scan_patterns].
  - now rewrite Hfound.
  - destruct (re_search p (text_of review)); [reflexivity | exact IH].
Qed.

Lemma feature_requests_spec (revs : list Review) (acc : list Sample) :
  foldl (fun frs review => scan_patterns feature_patterns review frs) acc revs
  = acc ++ map (sample_of 300) (List.filter requests_feature revs).
Proof.
  revert acc. induction revs as [|r revs IH]; intros acc; cbn [foldl].
  - now rewrite app_nil_r.
  - rewrite IH, scan_patterns_spec. cbn [List.filter].
    fold (requests_feature r). destruct (requests_feature r).
    + now rewrite <- app_assoc.
    + reflexivity.
Qed.

(** C9.  The feature-request count is the number of reviews that
    request a feature, each counted once whatever the number of patterns
    found in it and whatever the cap; the samples are those of the first
    five such reviews, each with the review's rating and its content,
    cut to its first 300 characters followed by three dots when it has
    more than 300.  A review requests a feature when a text of one of
    the patterns occurs in the lower-cased text of its title, a space
    and its content; and a pattern that is found ends the scan of its
    review, with one sample appended. *)
Theorem feature_requests_counted_once (revs : list Review) (stats : IssueStats) :
  extract_keywords_and_issues revs = Ok stats ->
  let requests := List.filter requests_feature revs in
  feature_requests_count stats = length requests
  /\ (feature_requests_count stats <= length revs)%nat
  /\ feature_request_samples stats = take 5 (map (sample_of 300) requests)
  /\ (length (feature_request_samples stats) <= 5)%nat
  /\ (forall r : Review,
        requests_feature r = true
        <-> exists pattern pre m post,
              pattern ∈ feature_patterns /\ in_language pattern m
              /\ lower (title r ++ " " ++ content r)
                 = (pre ++ m ++ post)%string)
  /\ (forall r : Review,
        sample_rating (sample_of 300 r) = rating r
        /\ ((char_length (content r) <= 300)%nat ->
            sample_excerpt (sample_of 300 r) = content r)
        /\ ((300 < char_length (content r))%nat ->
            exists cut c rest,
              content r = (cut ++ String c rest)%string
              /\ char_length cut = 300%nat
              /\ is_continuation c = false
              /\ sample_excerpt (sample_of 300 r) = (cut ++ "...")%string))
  /\ (forall before pattern after r frs,
        (exists pre m post,
           in_language pattern m
           /\ lower (title r ++ " " ++ content r) = (pre ++ m ++ post)%string) ->
        scan_patterns (before ++ pattern :: after) r frs
        = frs ++ [sample_of 300 r]).
Proof.
  intros Hok requests. unfold extract_keywords_and_issues in Hok.
  apply bind_ok in Hok as (low & _ & Hok). injection Hok as <-.
  cbn [feature_requests_count feature_request_samples].
  rewrite feature_requests_spec. cbn [app]. fold requests.
  change 5 with (Z.of_nat 5). rewrite slice_first, length_map.
  split; [reflexivity|]. split; [apply List.filter_length_le|].
  split; [reflexivity|]. split; [rewrite length_take; lia|].
  split; [apply requests_feature_spec|].
  split; [intros r; apply sample_of_spec|].
  intros before pattern after r frs Hfound. apply scan_patterns_first.
  unfold text_of. now apply re_search_spec.
Qed.

End Issues.

Lemma issues_tallied_by_category_witness :
  match @extract_keywords_and_issues Reference.runtime
          [Samples.crash_report; Samples.five_stars] with
  | Ok stats =>
      dict_get "crashes_bugs" (issue_categories_found stats)
      = Some {| cat_count := 1;
                examples := [@sample_of 200 Samples.crash_report] |}
  | Raise _ => False
  end.
Proof.
  destruct (@extract_keywords_and_issues Reference.runtime
              [Samples.crash_report; Samples.five_stars])
    as [stats|e] eqn:Hrun; [|vm_compute in Hrun; discriminate].
  destruct (proj1 (proj2 (@issues_tallied_by_category Reference.runtime
                            [Samples.crash_report; Samples.five_stars]))
              stats Hrun "crashes_bugs"
              ["crash"; "bug"; "freeze"; "frozen"; "stuck"; "error";
               "broken"; "fix"; "glitch"]) as [-> _].
  - left.
  - vm_compute. reflexivity.
Defined.

Lemma feature_requests_counted_once_witness :
  match @extract_keywords_and_issues Reference.runtime
          [Samples.crash_report; Samples.five_stars] with
  | Ok stats =>
      feature_requests_count stats = 1%nat
      /\ feature_request_samples stats = [@sample_of 300 Samples.crash_report]
  | Raise _ => False
  end.
Proof.
  destruct (@extract_keywords_and_issues Reference.runtime
              [Samples.crash_report; Samples.five_stars])
    as [stats|e] eqn:Hrun; [|vm_compute in Hrun; discriminate].
  destruct (@feature_requests_counted_once Reference.runtime
              [Samples.crash_report; Samples.five_stars] stats Hrun)
    as (Hcount & _ & Hsamples & _).
  rewrite Hcount, Hsamples. split; vm_compute; reflexivity.
Defined.

End IssuesSpec.
(* ===================================================================== *)
(** * Worked scenarios                                                    *)
(* ===================================================================== *)

Module Scenarios.
Import Py Fetcher Analyzer.

(** A page without a next link: the walk returns after one page. *)
Example walk_single_page :
  exists reviews meta st,
    fetch_all_reviews 1 Samples.single_page "1" "mostrecent" init_session
    = Some (Ok (reviews, meta), st)
    /\ total_pages meta = 1%nat /\ length reviews = 1%nat
    /\ trace st = [Request Samples.page_one].
Proof. do 3 eexists. split; [vm_compute; reflexivity|]. repeat split. Qed.

(** A parse failure is not retried: one request, one error, [None]. *)
Example fetch_url_malformed :
  fetch_url (fun _ _ => JSONDecodeError) "u" init_session
  = (Ok JNull,
     {| pages_fetched := 0; Fetcher.total_reviews := 0; errors := 1;
        requests := 1; trace := [Request "u"] |}).
Proof. reflexivity. Qed.

(** The id "7" in both orderings: one review, the one seen first, tagged
    with the first ordering. *)
Example merge_id_seven :
  get_all_reviews
    {| most_helpful := Some {| snapshot_app_name := None;
                               reviews := [Samples.seven_helpful] |};
       most_recent := Some {| snapshot_app_name := None;
                              reviews := [Samples.seven_recent] |} |}
  = [set_source Samples.seven_helpful "most_helpful"].
Proof. vm_compute. reflexivity. Qed.

(** Ratings 2 and 5: mean and median 3.5, one low, one high. *)
Example two_reviews_aggregated :
  @analyze_ratings_distribution Reference.runtime
    [Samples.two_stars; Samples.five_stars]
  = Ok {| distribution := [("2", 1%nat); ("5", 1%nat)];
          Analyzer.total_reviews := 2;
          average_rating := PFloat (7 # 2);
          median_rating := PFloat (7 # 2);
          low_ratings_count := 1;
          high_ratings_count := 1 |}.
Proof. vm_compute. reflexivity. Qed.

(** Ratings 5, 5 and 4: the mean 14/3 is rounded to the [float] 4.67,
    which is 2628976282477527 / 2 ^ 49, and the median is the [int] 5. *)
Example three_reviews_rounded :
  (fun stats => (average_rating stats, median_rating stats))
    <$> @analyze_ratings_distribution Reference.runtime
          [Samples.five_stars; Samples.five_stars; Samples.seven_helpful]
  = Ok (PFloat (2628976282477527 # 562949953421312), PInt 5).
Proof. vm_compute. reflexivity. Qed.

(** An excerpt counts characters: of 201 accented letters, 402 bytes,
    the first 200 are kept. *)
Example excerpt_counts_characters :
  char_length (content Samples.long_accents) = 201%nat
  /\ String.length (content Samples.long_accents) = 402%nat
  /\ sample_excerpt (sample_of 200 Samples.long_accents)
     = (Samples.accents 200 ++ "...")%string.
Proof. repeat split; vm_compute; reflexivity. Qed.

Example two_reviews_categorized :
  (fun stats => dict_get "crashes_bugs" (issue_categories_found stats))
    <$> (match @extract_keywords_and_issues Reference.runtime
                 [Samples.two_stars; Samples.five_stars] with
         | Ok stats => Some stats
         | Raise _ => None
         end)
  = Some (Some {| cat_count := 1;
                  examples := [{| sample_rating := "2";
                                  sample_excerpt := "app crashes constantly" |}] |}).
Proof. vm_compute. reflexivity. Qed.

End Scenarios.
(* ===================================================================== *)
(** * More on the fetcher                                                 *)
(* ===================================================================== *)

Module FetcherMore.
Import Py PyFacts Fetcher.
#[local] Set Warnings "-clear-no-such-hyp".

(** ** [fetch_url] on any network *)

(** One attempt, by what the network answers. *)
Lemma fetch_attempt_response (net : network) (u : string) (attempt : nat)
    (st : session) :
  fetch_attempt net u attempt st =
    match net u (requests st) with
    | Payload data => (Ok (Leave data), count_page (do_request u st))
    | TransportError =>
        if (attempt <? MAX_RETRIES - 1)%nat
        then (Ok (Continue ()),
              do_sleep (2 ^ Z.of_nat attempt) (count_error (do_request u st)))
        else (Ok (Leave JNull), count_error (do_request u st))
    | JSONDecodeError => (Ok (Leave JNull), count_error (do_request u st))
    | OtherError => (Raise OtherException, do_request u st)
    end.
Proof. reflexivity. Qed.

(** X1.  After [k] transport failures, [k] below 3, a response that
    parses is returned: [k] errors and one page are counted, [k + 1]
    requests are made, and the sleeps between them are of [2 ^ 0], ...,
    [2 ^ (k - 1)] seconds. *)
Theorem fetch_url_recovers (net : network) (u : string) (st : session)
    (k : nat) (data : json) :
  (k < 3)%nat ->
  (forall i, (i < k)%nat -> net u (i + requests st)%nat = TransportError) ->
  net u (k + requests st)%nat = Payload data ->
  fetch_url net u st =
    (Ok data,
     {| pages_fetched := S (pages_fetched st);
        total_reviews := total_reviews st;
        errors := k + errors st;
        requests := S k + requests st;
        trace := trace st
                 ++ flat_map (fun i => [Request u; Sleep (2 ^ Z.of_nat i)])
                             (seq 0 k)
                 ++ [Request u] |}).
Proof.
  intros Hk Hdown Hup.
  destruct k as [|[|[|k]]]; [| | |lia].
  - cbn in Hup. unfold fetch_url, MAX_RETRIES. cbn [seq fetch_attempts].
    rewrite fetch_attempt_response, Hup. reflexivity.
  - pose proof (Hdown 0%nat ltac:(lia)) as H0. cbn in H0, Hup.
    unfold fetch_url, MAX_RETRIES. cbn [seq fetch_attempts].
    rewrite fetch_attempt_response, H0. cbn -[Z.pow].
    rewrite fetch_attempt_response. cbn -[Z.pow]. rewrite Hup.
    unfold count_page, count_error, do_request, do_sleep. cbn -[Z.pow].
    do 2 f_equal. now rewrite <- !app_assoc.
  - pose proof (Hdown 0%nat ltac:(lia)) as H0.
    pose proof (Hdown 1%nat ltac:(lia)) as H1. cbn in H0, H1, Hup.
    unfold fetch_url, MAX_RETRIES. cbn [seq fetch_attempts].
    rewrite fetch_attempt_response, H0. cbn -[Z.pow].
    rewrite fetch_attempt_response. cbn -[Z.pow]. rewrite H1. cbn -[Z.pow].
    rewrite fetch_attempt_response. cbn -[Z.pow]. rewrite Hup.
    unfold count_page, count_error, do_request, do_sleep. cbn -[Z.pow].
    do 2 f_equal. now rewrite <- !app_assoc.
Qed.

(** X2.  A response that does not parse is not retried: after [k]
    transport failures, [k] below 3, it ends the fetch with [None],
    [k + 1] errors and requests, and no page counted. *)
Theorem fetch_url_malformed_not_retried (net : network) (u : string)
    (st : session) (k : nat) :
  (k < 3)%nat ->
  (forall i, (i < k)%nat -> net u (i + requests st)%nat = TransportError) ->
  net u (k + requests st)%nat = JSONDecodeError ->
  fetch_url net u st =
    (Ok JNull,
     {| pages_fetched := pages_fetched st;
        total_reviews := total_reviews st;
        errors := S k + errors st;
        requests := S k + requests st;
        trace := trace st
                 ++ flat_map (fun i => [Request u; Sleep (2 ^ Z.of_nat i)])
                             (seq 0 k)
                 ++ [Request u] |}).
Proof.
  intros Hk Hdown Hbad.
  destruct k as [|[|[|k]]]; [| | |lia].
  - cbn in Hbad. unfold fetch_url, MAX_RETRIES. cbn [seq fetch_attempts].
    rewrite fetch_attempt_response, Hbad. reflexivity.
  - pose proof (Hdown 0%nat ltac:(lia)) as H0. cbn in H0, Hbad.
    unfold fetch_url, MAX_RETRIES. cbn [seq fetch_attempts].
    rewrite fetch_attempt_response, H0. cbn -[Z.pow].
    rewrite fetch_attempt_response. cbn -[Z.pow]. rewrite Hbad.
    unfold count_page, count_error, do_request, do_sleep. cbn -[Z.pow].
    do 2 f_equal. now rewrite <- !app_assoc.
  - pose proof (Hdown 0%nat ltac:(lia)) as H0.
    pose proof (Hdown 1%nat ltac:(lia)) as H1. cbn in H0, H1, Hbad.
    unfold fetch_url, MAX_RETRIES. cbn [seq fetch_attempts].
    rewrite fetch_attempt_response, H0. cbn -[Z.pow].
    rewrite fetch_attempt_response. cbn -[Z.pow]. rewrite H1. cbn -[Z.pow].
    rewrite fetch_attempt_response. cbn -[Z.pow]. rewrite Hbad.
    unfold count_page, count_error, do_request, do_sleep. cbn -[Z.pow].
    do 2 f_equal. now rewrite <- !app_assoc.
Qed.

(** What a fetch does to the session, whatever the network answers. *)
Lemma fetch_url_effect (net : network) (u : string) (st : session) r st' :
  fetch_url net u st = (r, st') ->
  exists new,
    trace st' = trace st ++ new
    /\ (1 <= count_requests new <= 3)%nat
    /\ S (count_sleeps new) = count_requests new
    /\ requests st' = (requests st + count_requests new)%nat
    /\ (errors st <= errors st' <= errors st + count_requests new)%nat
    /\ (pages_fetched st <= pages_fetched st' <= S (pages_fetched st))%nat
    /\ total_reviews st' = total_reviews st
    /\ (forall data, r = Ok data -> truthy data = true ->
          pages_fetched st' = S (pages_fetched st) /\ errors st' = (errors st + count_sleeps new)%nat)
    /\ (forall e, r = Raise e -> e = OtherException).
Proof.
  unfold fetch_url, MAX_RETRIES. cbn [seq fetch_attempts].
  rewrite fetch_attempt_response.
  destruct (net u (requests st)) eqn:R0; cbn -[Z.pow];
    [| rewrite fetch_attempt_response; cbn -[Z.pow];
       destruct (net u (S (requests st))) eqn:R1; cbn -[Z.pow];
       [| rewrite fetch_attempt_response; cbn -[Z.pow];
          destruct (net u (S (S (requests st)))) eqn:R2; cbn -[Z.pow] | |] | |].
  all: intros [= <- <-]; cbn -[Z.pow]; rewrite <- ?app_assoc;
    (eexists; split; [reflexivity|]); cbn;
    repeat split; intros; simplify_eq; cbn in *; try lia; try discriminate;
    try reflexivity.
Qed.

(** X3.  Whatever the network answers, one fetch makes [k + 1]
    requests for the URL, for some [k] of at most 2: the first [k] fail
    at the transport level and each is followed by a sleep of [2 ^ i]
    seconds, [i] counting the requests from 0, and nothing follows the
    last request.  It counts [k] or [k + 1] errors and at most one page,
    leaves the review count alone, and raises nothing but what
    [urlopen] raises beyond the errors it catches. *)
Theorem fetch_url_budget (net : network) (u : string) (st : session) r st' :
  fetch_url net u st = (r, st') ->
  exists k new,
    (k <= 2)%nat
    /\ new = flat_map (fun i => [Request u; Sleep (2 ^ Z.of_nat i)]) (seq 0 k)
             ++ [Request u]
    /\ trace st' = trace st ++ new
    /\ count_requests new = S k
    /\ count_sleeps new = k
    /\ (forall i, (i < k)%nat -> net u (requests st + i)%nat = TransportError)
    /\ requests st' = (requests st + S k)%nat
    /\ (errors st + k <= errors st' <= errors st + S k)%nat
    /\ (pages_fetched st <= pages_fetched st' <= S (pages_fetched st))%nat
    /\ total_reviews st' = total_reviews st
    /\ (forall e, r = Raise e -> e = OtherException).
Proof.
  unfold fetch_url, MAX_RETRIES. cbn [seq fetch_attempts].
  rewrite fetch_attempt_response.
  destruct (net u (requests st)) eqn:R0; cbn -[Z.pow];
    [| rewrite fetch_attempt_response; cbn -[Z.pow];
       destruct (net u (S (requests st))) eqn:R1; cbn -[Z.pow];
       [| rewrite fetch_attempt_response; cbn -[Z.pow];
          destruct (net u (S (S (requests st)))) eqn:R2; cbn -[Z.pow] | |] | |].
  all: intros [= <- <-]; cbn -[Z.pow]; rewrite <- ?app_assoc.
  all: first
    [ exists 0%nat; eexists; split; [lia|]; split; [reflexivity|];
      split; [reflexivity|]
    | exists 1%nat; eexists; split; [lia|]; split; [reflexivity|];
      split; [reflexivity|]
    | exists 2%nat; eexists; split; [lia|]; split; [reflexivity|];
      split; [reflexivity|] ].
  all: split; [reflexivity|]; split; [reflexivity|].
  all: split;
    [ intros i Hi; destruct i as [|[|i]];
      rewrite ?Nat.add_0_r, ?Nat.add_1_r; try assumption; lia |].
  all: cbn; repeat split; intros; simplify_eq; try lia; try reflexivity.
Qed.

Lemma fetch_url_budget_witness :
  exists new,
    trace (snd (fetch_url Samples.unreachable "u" init_session)) = new
    /\ new = [Request "u"; Sleep 1; Request "u"; Sleep 2; Request "u"].
Proof.
  destruct (fetch_url_budget Samples.unreachable "u" init_session
              (fst (fetch_url Samples.unreachable "u" init_session))
              (snd (fetch_url Samples.unreachable "u" init_session)))
    as (k & new & _ & _ & Ht & _).
  - reflexivity.
  - exists new. split; [exact Ht|].
    cbn in Ht. rewrite <- Ht. reflexivity.
Defined.

Lemma fetch_url_recovers_witness :
  fst (fetch_url (fun _ n => if (n <? 2)%nat then TransportError
                            else Payload (JStr "ok")) "u" init_session)
  = Ok (JStr "ok").
Proof.
  rewrite (fetch_url_recovers _ "u" init_session 2 (JStr "ok")).
  - reflexivity.
  - lia.
  - intros i Hi. destruct i as [|[|i]]; [reflexivity..|lia].
  - reflexivity.
Defined.

Lemma fetch_url_malformed_not_retried_witness :
  fetch_url (fun _ _ => JSONDecodeError) "u" init_session
  = (Ok JNull,
     {| pages_fetched := 0; total_reviews := 0; errors := 1; requests := 1;
        trace := [Request "u"] |}).
Proof.
  rewrite (fetch_url_malformed_not_retried _ "u" init_session 0).
  - reflexivity.
  - lia.
  - intros i Hi. lia.
  - reflexivity.
Defined.

End FetcherMore.
(* ===================================================================== *)
(** * Reading a page of the feed                                          *)
(* ===================================================================== *)

Module FeedSpec.
Import Py PyFacts Fetcher.
#[local] Set Warnings "-clear-no-such-hyp".

(** ** [extract_reviews] *)

Lemma label_absent (e : dict json) (k : string) (dflt v : json) :
  label (JObj e) k dflt = Ok v -> dict_get k e = None -> v = dflt.
Proof.
  unfold label. cbn. intros Hl Hk. rewrite Hk in Hl.
  cbn in Hl. now injection Hl.
Qed.

Lemma review_of_entry_dict (entry r : json) :
  review_of_entry entry = Ok r -> exists e, entry = JObj e.
Proof.
  destruct entry; try discriminate. eauto.
Qed.

(** The loop body: nine keys in a fixed order, and the default for a
    field the entry does not have. *)
Lemma review_of_entry_fields (e : dict json) (r : json) :
  review_of_entry (JObj e) = Ok r ->
  exists fields,
    r = JObj fields
    /\ map fst fields = ["id"; "author"; "rating"; "version"; "title";
                         "content"; "updated"; "vote_sum"; "vote_count"]
    /\ (forall k k',
          (k, k') ∈ [("id", "id"); ("author", "author");
                     ("im:rating", "rating"); ("im:version", "version");
                     ("title", "title"); ("content", "content");
                     ("updated", "updated")] ->
          dict_get k e = None -> dict_get k' fields = Some (JStr ""))
    /\ (forall k k',
          (k, k') ∈ [("im:voteSum", "vote_sum"); ("im:voteCount", "vote_count")] ->
          dict_get k e = None -> dict_get k' fields = Some (JStr "0")).
Proof.
  unfold review_of_entry. intros Hr.
  apply bind_ok in Hr as (v_id & Hid & Hr).
  apply bind_ok in Hr as (name & Hname & Hr).
  apply bind_ok in Hr as (v_author & Hauthor & Hr).
  apply bind_ok in Hr as (v_rating & Hrating & Hr).
  apply bind_ok in Hr as (v_version & Hversion & Hr).
  apply bind_ok in Hr as (v_title & Htitle & Hr).
  apply bind_ok in Hr as (v_content & Hcontent & Hr).
  apply bind_ok in Hr as (v_updated & Hupdated & Hr).
  apply bind_ok in Hr as (v_sum & Hsum & Hr).
  apply bind_ok in Hr as (v_count & Hcount & Hr).
  injection Hr as <-. eexists. split; [reflexivity|].
  split; [reflexivity|].
  split; intros k k' Hin Hk; rewrite !elem_of_cons, elem_of_nil in Hin;
    repeat (destruct Hin as [Hin | Hin]); try contradiction;
    injection Hin as -> ->;
    try (match goal with
         | Hl : label (JObj e) ?k ?dflt = Ok ?v |- dict_get _ _ = Some ?dflt =>
             rewrite (label_absent e k dflt v Hl Hk); reflexivity
         end).
  cbn in Hname. rewrite Hk in Hname. cbn in Hname.
  injection Hname as <-. cbn in Hauthor. now injection Hauthor as <-.
Qed.

Lemma py_in_key (d : dict json) (k : string) (v : json) :
  dict_get k d = Some v -> py_in k (JObj d) = Ok true.
Proof. intros Hk. cbn. rewrite Hk. reflexivity. Qed.

Lemma py_in_no_key (d : dict json) (k : string) :
  dict_get k d = None -> py_in k (JObj d) = Ok false.
Proof. intros Hk. cbn. rewrite Hk. reflexivity. Qed.

Lemma getitem_key (d : dict json) (k : string) (v : json) :
  dict_get k d = Some v -> getitem (JObj d) k = Ok v.
Proof. intros Hk. cbn. rewrite Hk. reflexivity. Qed.

Ltac run_bind := cbn [mbind result_bind].

Lemma extract_reviews_entries (d f : dict json) (entries : json) :
  dict_get "feed" d = Some (JObj f) ->
  dict_get "entry" f = Some entries ->
  extract_reviews (JObj d)
  = (items ← iter (as_list entries); map_result review_of_entry items).
Proof.
  intros Hf He. unfold extract_reviews.
  rewrite (py_in_key d _ _ Hf). run_bind.
  rewrite (getitem_key d _ _ Hf). run_bind.
  rewrite (py_in_key f _ _ He). run_bind.
  rewrite (getitem_key f _ _ He). run_bind.
  reflexivity.
Qed.

Lemma extract_reviews_list (d f : dict json) (l : list json) :
  dict_get "feed" d = Some (JObj f) ->
  dict_get "entry" f = Some (JArr l) ->
  extract_reviews (JObj d) = map_result review_of_entry l.
Proof. intros Hf He. now rewrite (extract_reviews_entries d f _ Hf He). Qed.

Lemma extract_reviews_single (d f e : dict json) :
  dict_get "feed" d = Some (JObj f) ->
  dict_get "entry" f = Some (JObj e) ->
  extract_reviews (JObj d) = map_result review_of_entry [JObj e].
Proof. intros Hf He. now rewrite (extract_reviews_entries d f _ Hf He). Qed.

(** X4.  When the feed's entries are a list and the extraction returns,
    it returns one review an entry, in the entries' order; each entry is
    a dictionary and its review has the nine keys 'id', 'author',
    'rating', 'version', 'title', 'content', 'updated', 'vote_sum' and
    'vote_count' in this order; a field the entry does not have is the
    empty string, and '0' for the two vote fields. *)
Theorem extract_reviews_fields (d f : dict json) (l reviews : list json) :
  dict_get "feed" d = Some (JObj f) ->
  dict_get "entry" f = Some (JArr l) ->
  extract_reviews (JObj d) = Ok reviews ->
  Forall2
    (fun entry r =>
       exists e fields,
         entry = JObj e /\ r = JObj fields
         /\ map fst fields = ["id"; "author"; "rating"; "version"; "title";
                              "content"; "updated"; "vote_sum"; "vote_count"]
         /\ (forall k k',
               (k, k') ∈ [("id", "id"); ("author", "author");
                          ("im:rating", "rating"); ("im:version", "version");
                          ("title", "title"); ("content", "content");
                          ("updated", "updated")] ->
               dict_get k e = None -> dict_get k' fields = Some (JStr ""))
         /\ (forall k k',
               (k, k') ∈ [("im:voteSum", "vote_sum");
                          ("im:voteCount", "vote_count")] ->
               dict_get k e = None -> dict_get k' fields = Some (JStr "0")))
    l reviews.
Proof.
  intros Hf He Hx. rewrite (extract_reviews_list d f l Hf He) in Hx.
  apply map_result_ok in Hx.
  eapply Forall2_impl; [exact Hx|].
  intros entry r Hr. cbn beta in Hr.
  destruct (review_of_entry_dict entry r Hr) as [e ->].
  destruct (review_of_entry_fields e r Hr) as (fields & -> & Hkeys & Hdflt & Hvotes).
  exists e, fields. auto.
Qed.

Lemma extract_reviews_fields_witness :
  match extract_reviews (Samples.page "1" "next") with
  | Ok reviews => length reviews = 1%nat
  | Raise _ => False
  end.
Proof.
  destruct (extract_reviews (Samples.page "1" "next")) as [reviews|e] eqn:Hrun;
    [|vm_compute in Hrun; discriminate].
  symmetry.
  apply (Forall2_length _ [Samples.entry "1"] reviews
           (extract_reviews_fields
              [("feed", JObj [("entry", JArr [Samples.entry "1"]);
                              ("link", JArr [Samples.link "first" "first";
                                             Samples.link "next" "next"])])]
              [("entry", JArr [Samples.entry "1"]);
               ("link", JArr [Samples.link "first" "first";
                              Samples.link "next" "next"])]
              [Samples.entry "1"] reviews eq_refl eq_refl Hrun)).
Defined.

(** X5.  A feed whose 'entry' is a single dictionary gives what the
    feed gives with that dictionary as the only element of a list. *)
Theorem extract_reviews_single_entry (d f e : dict json) :
  dict_get "feed" d = Some (JObj f) ->
  dict_get "entry" f = Some (JObj e) ->
  extract_reviews (JObj d)
  = extract_reviews
      (JObj (dict_set "feed" (JObj (dict_set "entry" (JArr [JObj e]) f)) d)).
Proof.
  intros Hf He.
  rewrite (extract_reviews_single d f e Hf He).
  symmetry. eapply extract_reviews_list.
  - rewrite dict_get_set. reflexivity.
  - rewrite dict_get_set. reflexivity.
Qed.

Lemma extract_reviews_single_entry_witness :
  extract_reviews (JObj [("feed", JObj [("entry", Samples.entry "1")])])
  = extract_reviews (JObj [("feed", JObj [("entry", JArr [Samples.entry "1"])])]).
Proof.
  exact (extract_reviews_single_entry
           [("feed", JObj [("entry", Samples.entry "1")])]
           [("entry", Samples.entry "1")] _ eq_refl eq_refl).
Defined.

(** ** When [extract_reviews] raises *)

Lemma map_result_raised {A B} (f : A -> result B) (l : list A) e :
  map_result f l = Raise e -> exists x, x ∈ l /\ f x = Raise e.
Proof.
  induction l as [|x l IH]; cbn [map_result]; [discriminate|].
  destruct (f x) as [y|e'] eqn:Hx; cbn [mbind result_bind].
  - destruct (map_result f l) as [ys|e'] eqn:Hl; cbn [mbind result_bind];
      [discriminate|].
    intros [= ->]. destruct (IH eq_refl) as (x' & Hin & Hx').
    exists x'. split; [now right | assumption].
  - intros [= ->]. exists x. split; [left | assumption].
Qed.

Lemma get_raise (v : json) (k : string) (dflt : json) e :
  get v k dflt = Raise e -> e = AttributeError.
Proof. destruct v; cbn; congruence. Qed.

Lemma label_raise (entry : json) (k : string) (dflt : json) e :
  label entry k dflt = Raise e -> e = AttributeError.
Proof.
  unfold label. destruct (get entry k (JObj [])) as [v|e'] eqn:Hget;
    cbn [mbind result_bind].
  - apply get_raise.
  - intros [= <-]. eapply get_raise, Hget.
Qed.

Lemma review_of_entry_raise (entry : json) e :
  review_of_entry entry = Raise e -> e = AttributeError.
Proof.
  unfold review_of_entry.
  repeat (match goal with
          | |- (mbind _ ?m) = Raise _ -> _ =>
              let H := fresh "H" in
              destruct m eqn:H; cbn [mbind result_bind];
              [|intros [= <-];
                first [eapply label_raise, H | eapply get_raise, H]]
          end).
  discriminate.
Qed.

Lemma py_in_raise (k : string) (v : json) e :
  py_in k v = Raise e -> e = TypeError.
Proof. destruct v; cbn; congruence. Qed.

Lemma getitem_after_in (v : json) (k : string) e :
  py_in k v = Ok true -> getitem v k = Raise e -> e = TypeError.
Proof.
  destruct v as [| | | | |d]; cbn; try congruence.
  intros [= Hin]. apply bool_decide_eq_true in Hin as [x ->]. discriminate.
Qed.

Lemma iter_raise (v : json) e : iter v = Raise e -> e = TypeError.
Proof. destruct v; cbn; congruence. Qed.

(** X20.  The only exceptions that escape [extract_reviews] are
    [TypeError] and [AttributeError]: the keys 'feed' and 'entry' are
    looked up only after they were found, and the fields of an entry
    are read with defaults. *)
Theorem extract_reviews_exceptions (data : json) (e : exn) :
  extract_reviews data = Raise e -> e = TypeError \/ e = AttributeError.
Proof.
  unfold extract_reviews.
  destruct (py_in "feed" data) as [[|]|e'] eqn:Hfeed; cbn [mbind result_bind];
    [|discriminate|intros [= <-]; left; eapply py_in_raise, Hfeed].
  destruct (getitem data "feed") as [feed|e'] eqn:Hget; cbn [mbind result_bind];
    [|intros [= <-]; left; eapply getitem_after_in; eassumption].
  destruct (py_in "entry" feed) as [[|]|e'] eqn:Hentry; cbn [mbind result_bind];
    [|discriminate|intros [= <-]; left; eapply py_in_raise, Hentry].
  destruct (getitem feed "entry") as [entries|e'] eqn:Hget'; cbn [mbind result_bind];
    [|intros [= <-]; left; eapply getitem_after_in; eassumption].
  destruct (iter (as_list entries)) as [items|e'] eqn:Hiter; cbn [mbind result_bind];
    [|intros [= <-]; left; eapply iter_raise, Hiter].
  intros Hmap. apply map_result_raised in Hmap as (entry & _ & Hentry').
  right. eapply review_of_entry_raise, Hentry'.
Qed.

Lemma extract_reviews_exceptions_witness :
  extract_reviews (JNum 1) = Raise TypeError
  /\ (TypeError = TypeError \/ TypeError = AttributeError).
Proof.
  split; [reflexivity|].
  exact (extract_reviews_exceptions (JNum 1) TypeError eq_refl).
Defined.

(** ** Entries that are read without an exception *)

Lemma label_total (e : dict json) (k : string) (dflt : json) :
  (forall v, dict_get k e = Some v -> is_dict v = true) ->
  exists v, label (JObj e) k dflt = Ok v.
Proof.
  intros Hk. unfold label. cbn [get]. cbn [mbind result_bind].
  destruct (dict_get k e) as [v|]; cbn [from_option].
  - specialize (Hk v eq_refl). unfold Datatypes.id.
    destruct v; try discriminate. cbn. eauto.
  - unfold Datatypes.id. cbn. eauto.
Qed.

(** X21.  When the feed's entries are a list of dictionaries whose
    fields are dictionaries, the 'name' of an 'author' too, the
    extraction returns, with one review an entry. *)
Theorem extract_reviews_total (d f : dict json) (l : list json) :
  dict_get "feed" d = Some (JObj f) ->
  dict_get "entry" f = Some (JArr l) ->
  (forall entry, entry ∈ l ->
     exists e,
       entry = JObj e
       /\ (forall k v, dict_get k e = Some v -> is_dict v = true)
       /\ (forall a v, dict_get "author" e = Some (JObj a) ->
                       dict_get "name" a = Some v -> is_dict v = true)) ->
  exists reviews,
    extract_reviews (JObj d) = Ok reviews /\ length reviews = length l.
Proof.
  intros Hf He Hl. rewrite (extract_reviews_list d f l Hf He).
  destruct (map_result_total review_of_entry l) as [reviews Hrun].
  - intros entry Hentry. destruct (Hl entry Hentry) as (e & -> & Hfields & Hname).
    unfold review_of_entry.
    destruct (label_total e "id" (JStr "") (Hfields _)) as [? ->].
    cbn [mbind result_bind].
    assert (exists author,
              (name ← get (JObj e) "author" (JObj []);
               label name "name" (JStr "")) = Ok author) as [author Hauthor].
    { cbn [get mbind result_bind].
      destruct (dict_get "author" e) as [a|] eqn:Ha; cbn [from_option];
        unfold Datatypes.id.
      - pose proof (Hfields _ _ Ha) as Hdict.
        destruct a as [| | | | |a]; try discriminate.
        apply label_total. intros v. apply (Hname a v eq_refl).
      - apply label_total. discriminate. }
    destruct (get (JObj e) "author" (JObj [])) as [name|]; [|discriminate].
    cbn [mbind result_bind] in Hauthor |- *. rewrite Hauthor.
    cbn [mbind result_bind].
    destruct (label_total e "im:rating" (JStr "") (Hfields _)) as [? ->].
    cbn [mbind result_bind].
    destruct (label_total e "im:version" (JStr "") (Hfields _)) as [? ->].
    cbn [mbind result_bind].
    destruct (label_total e "title" (JStr "") (Hfields _)) as [? ->].
    cbn [mbind result_bind].
    destruct (label_total e "content" (JStr "") (Hfields _)) as [? ->].
    cbn [mbind result_bind].
    destruct (label_total e "updated" (JStr "") (Hfields _)) as [? ->].
    cbn [mbind result_bind].
    destruct (label_total e "im:voteSum" (JStr "0") (Hfields _)) as [? ->].
    cbn [mbind result_bind].
    destruct (label_total e "im:voteCount" (JStr "0") (Hfields _)) as [? ->].
    cbn [mbind result_bind]. eauto.
  - exists reviews. split; [exact Hrun|].
    apply map_result_ok in Hrun. symmetry. eapply Forall2_length, Hrun.
Qed.

Lemma extract_reviews_total_witness :
  exists reviews,
    extract_reviews (Samples.page "1" "next") = Ok reviews
    /\ length reviews = 1%nat.
Proof.
  apply (extract_reviews_total
           [("feed", JObj [("entry", JArr [Samples.entry "1"]);
                           ("link", JArr [Samples.link "first" "first";
                                          Samples.link "next" "next"])])]
           [("entry", JArr [Samples.entry "1"]);
            ("link", JArr [Samples.link "first" "first";
                           Samples.link "next" "next"])]
           [Samples.entry "1"] eq_refl eq_refl).
  intros entry Hentry. apply list_elem_of_singleton in Hentry as ->.
  eexists. split; [reflexivity|]. split.
  - intros k v. cbn [dict_get].
    destruct (String.eqb k "id"); [now intros [= <-]|].
    destruct (String.eqb k "im:rating"); [now intros [= <-] | discriminate].
  - intros a v Ha. vm_compute in Ha. discriminate.
Defined.

(** ** [get_next_page_url] *)

Lemma prefix_split_head (sep : string) : forall s p,
  String.prefix p (split_head sep s) = true -> String.prefix p s = true.
Proof.
  induction s as [|c s IH]; intros p.
  - cbn [split_head]. destruct (String.prefix sep ""); auto.
  - cbn [split_head]. destruct (String.prefix sep (String c s)).
    + destruct p; [reflexivity | discriminate].
    + destruct p as [|c' p]; [reflexivity|]. cbn.
      destruct (Ascii.ascii_dec c' c); [apply IH | discriminate].
Qed.

Lemma split_head_no_sep (sep : string) : forall s,
  sep <> "" -> contains sep (split_head sep s) = false.
Proof.
  intros s Hsep. induction s as [|c s IH].
  - cbn. destruct sep; [congruence | reflexivity].
  - cbn [split_head]. destruct (String.prefix sep (String c s)) eqn:Hp.
    + cbn. destruct sep; [congruence | reflexivity].
    + cbn [contains]. rewrite IH, orb_false_r.
      destruct (String.prefix sep (String c (split_head sep s))) eqn:Hp';
        [|reflexivity].
      assert (String.prefix sep (split_head sep (String c s)) = true) as Hq
        by (cbn [split_head]; now rewrite Hp).
      apply prefix_split_head in Hq. congruence.
Qed.

Lemma split_head_prefix (sep : string) : forall s,
  exists tail, s = (split_head sep s ++ tail)%string.
Proof.
  induction s as [|c s [tail IH]].
  - exists "". cbn [split_head]. now destruct (String.prefix sep "").
  - cbn [split_head]. destruct (String.prefix sep (String c s)).
    + now exists (String c s).
    + exists tail.
      change (String c s = String c (split_head sep s ++ tail)%string).
      now rewrite <- IH.
Qed.

Lemma get_next_page_url_links (d f : dict json) (links : json) :
  dict_get "feed" d = Some (JObj f) ->
  dict_get "link" f = Some links ->
  get_next_page_url (JObj d) = (items ← iter (as_list links); find_next items).
Proof.
  intros Hf Hl. unfold get_next_page_url.
  rewrite (py_in_key d _ _ Hf). run_bind.
  rewrite (getitem_key d _ _ Hf). run_bind.
  rewrite (py_in_key f _ _ Hl). run_bind.
  rewrite (getitem_key f _ _ Hl). run_bind.
  reflexivity.
Qed.

Lemma find_next_skip (pre rest : list json) :
  Forall other_link pre -> find_next (pre ++ rest) = find_next rest.
Proof.
  induction 1 as [|link pre (attributes & rel & Ha & Hr & Hne) _ IH];
    [reflexivity|].
  cbn [app find_next]. rewrite Ha. run_bind. rewrite Hr. run_bind.
  now rewrite Hne.
Qed.

Lemma find_next_first (link href : json) (post : list json) :
  next_link link href ->
  find_next (link :: post)
  = (has_xml ← py_in "xml" href;
     if has_xml : bool then
       next_url ← replace href "/xml" "/json";
       Ok (JStr (if contains "?urlDesc=" next_url
                 then split_head "?urlDesc=" next_url
                 else next_url))
     else Ok href).
Proof.
  intros (a & attributes & -> & Ha & Hrel & Hhref).
  cbn [find_next get]. rewrite Ha. cbn [from_option]. run_bind.
  unfold Datatypes.id. cbn [get]. rewrite Hrel. cbn [from_option]. run_bind.
  unfold Datatypes.id. cbn [eq_str String.eqb Ascii.eqb Bool.eqb].
  rewrite (getitem_key a _ _ Ha). run_bind.
  rewrite (getitem_key attributes _ _ Hhref). run_bind.
  reflexivity.
Qed.

(** X6.  The first link with the relation 'next' decides: when the
    links before it are passed, the page's next cursor is that of the
    page whose only link it is, whatever links come after it. *)
Theorem next_link_first_wins (d f : dict json) (pre post : list json)
    (link href : json) :
  dict_get "feed" d = Some (JObj f) ->
  dict_get "link" f = Some (JArr (pre ++ link :: post)) ->
  Forall other_link pre ->
  next_link link href ->
  get_next_page_url (JObj d)
  = get_next_page_url (JObj [("feed", JObj [("link", JArr [link])])]).
Proof.
  intros Hf Hl Hpre Hnext.
  rewrite (get_next_page_url_links d f _ Hf Hl).
  rewrite (get_next_page_url_links [("feed", JObj [("link", JArr [link])])]
             [("link", JArr [link])] (JArr [link]) eq_refl eq_refl).
  cbn [as_list is_dict iter]. run_bind.
  rewrite (find_next_skip pre _ Hpre).
  now rewrite !(find_next_first link href _ Hnext).
Qed.

(** X7.  A page without a feed, a feed without links, and links all of
    which are passed have no next cursor: the result is [None]. *)
Theorem no_next_link_none (d : dict json) :
  dict_get "feed" d = None
  \/ (exists f, dict_get "feed" d = Some (JObj f)
                /\ (dict_get "link" f = None
                    \/ exists l, dict_get "link" f = Some (JArr l)
                                 /\ Forall other_link l)) ->
  get_next_page_url (JObj d) = Ok JNull.
Proof.
  intros [Hf | (f & Hf & [Hl | (l & Hl & Hall)])].
  - unfold get_next_page_url. now rewrite (py_in_no_key d _ Hf).
  - unfold get_next_page_url.
    rewrite (py_in_key d _ _ Hf). run_bind.
    rewrite (getitem_key d _ _ Hf). run_bind.
    now rewrite (py_in_no_key f _ Hl).
  - rewrite (get_next_page_url_links d f _ Hf Hl).
    cbn [as_list is_dict iter]. run_bind.
    rewrite <- (app_nil_r l). now rewrite (find_next_skip l [] Hall).
Qed.

(** X8.  The address [h] of the first 'next' link is returned as it is
    when 'xml' does not occur in it.  When it does, the cursor is a
    prefix of [h] with every '/xml' replaced by '/json', the whole of
    it if that has no '?urlDesc=', and '?urlDesc=' does not occur in
    the cursor. *)
Theorem next_cursor_rewritten (d f : dict json) (pre post : list json)
    (link : json) (h : string) :
  dict_get "feed" d = Some (JObj f) ->
  dict_get "link" f = Some (JArr (pre ++ link :: post)) ->
  Forall other_link pre ->
  next_link link (JStr h) ->
  exists s tail,
    get_next_page_url (JObj d) = Ok (JStr s)
    /\ (if contains "xml" h
        then str_replace "/xml" "/json" h = (s ++ tail)%string
             /\ contains "?urlDesc=" s = false
             /\ (contains "?urlDesc=" (str_replace "/xml" "/json" h) = false
                 -> tail = "")
        else s = h).
Proof.
  intros Hf Hl Hpre Hnext.
  rewrite (get_next_page_url_links d f _ Hf Hl).
  cbn [as_list is_dict iter]. run_bind.
  rewrite (find_next_skip pre _ Hpre), (find_next_first link _ _ Hnext).
  cbn [py_in replace]. run_bind.
  destruct (contains "xml" h); [|exists h, ""; auto].
  run_bind.
  destruct (contains "?urlDesc=" (str_replace "/xml" "/json" h)) eqn:Hdesc.
  - destruct (split_head_prefix "?urlDesc=" (str_replace "/xml" "/json" h))
      as [tail Htail].
    exists (split_head "?urlDesc=" (str_replace "/xml" "/json" h)), tail.
    repeat split; [exact Htail | now apply split_head_no_sep | discriminate].
  - exists (str_replace "/xml" "/json" h), "".
    repeat split; [| exact Hdesc].
    generalize (str_replace "/xml" "/json" h). clear.
    induction s as [|c s IH]; [reflexivity|].
    change (String c s = String c (s ++ "")%string). now f_equal.
Qed.

Lemma sample_next_link (href : string) :
  next_link (Samples.link "next" href) (JStr href).
Proof. eexists _, _. repeat split. Qed.

Lemma sample_other_link :
  Forall other_link [Samples.link "first" "first"].
Proof. repeat constructor. eexists _, _. repeat split. Qed.

Lemma next_link_first_wins_witness :
  get_next_page_url (Samples.page "1" "next")
  = get_next_page_url
      (JObj [("feed", JObj [("link", JArr [Samples.link "next" "next"])])]).
Proof.
  exact (next_link_first_wins
           [("feed", JObj [("entry", JArr [Samples.entry "1"]);
                           ("link", JArr [Samples.link "first" "first";
                                          Samples.link "next" "next"])])]
           [("entry", JArr [Samples.entry "1"]);
            ("link", JArr [Samples.link "first" "first";
                           Samples.link "next" "next"])]
           [Samples.link "first" "first"] [] _ _
           eq_refl eq_refl sample_other_link (sample_next_link "next")).
Defined.

Lemma no_next_link_none_witness :
  get_next_page_url
    (JObj [("feed", JObj [("link", JArr [Samples.link "first" "first"])])])
  = Ok JNull.
Proof.
  apply no_next_link_none. right. eexists. split; [reflexivity|].
  right. eexists. split; [reflexivity|]. exact sample_other_link.
Defined.

Lemma next_cursor_rewritten_witness :
  exists s tail,
    get_next_page_url (Samples.page "1" Samples.href_one) = Ok (JStr s)
    /\ str_replace "/xml" "/json" Samples.href_one = (s ++ tail)%string
    /\ contains "?urlDesc=" s = false.
Proof.
  destruct (next_cursor_rewritten
              [("feed", JObj [("entry", JArr [Samples.entry "1"]);
                              ("link", JArr [Samples.link "first" "first";
                                             Samples.link "next" Samples.href_one])])]
              [("entry", JArr [Samples.entry "1"]);
               ("link", JArr [Samples.link "first" "first";
                              Samples.link "next" Samples.href_one])]
              [Samples.link "first" "first"] [] _ _
              eq_refl eq_refl sample_other_link
              (sample_next_link Samples.href_one))
    as (s & tail & Hget & Hs).
  exists s, tail. split; [exact Hget|].
  change (contains "xml" Samples.href_one) with true in Hs.
  destruct Hs as (Hs & Hno & _). split; assumption.
Defined.

End FeedSpec.
(* ===================================================================== *)
(** * More on the pagination walk                                         *)
(* ===================================================================== *)

Module WalkMore.
Import Py PyFacts Fetcher.
#[local] Set Warnings "-clear-no-such-hyp".

Lemma truthy_str (u : string) : u <> "" -> truthy (JStr u) = true.
Proof.
  intros Hu. cbn. destruct (String.eqb_spec u ""); [contradiction | reflexivity].
Qed.

Lemma first_url_not_empty (app sort : string) : first_url app sort <> "".
Proof. unfold first_url, BASE_URL. discriminate. Qed.

(** The session after a page that is got at the first attempt. *)
Lemma page_session (u : string) (w : walk) (st : session) :
  count_page (do_request u (rate_limit w st))
  = {| pages_fetched := S (pages_fetched st);
       total_reviews := total_reviews st;
       errors := errors st;
       requests := S (requests st);
       trace := trace st
                ++ (if (1 <? page_num w)%nat
                    then [Sleep DELAY_BETWEEN_REQUESTS] else [])
                ++ [Request u] |}.
Proof.
  unfold rate_limit, count_page, do_request, do_sleep.
  destruct (1 <? page_num w)%nat; cbn; f_equal.
  - now rewrite <- app_assoc.
Qed.

Lemma rate_limit_requests (w : walk) (st : session) :
  requests (rate_limit w st) = requests st.
Proof. unfold rate_limit. now destruct (1 <? page_num w)%nat. Qed.

(** One iteration on a page that is served. *)
Lemma walk_body_served (net : network) (u : string) (data v : json)
    (w : walk) (st : session) :
  served net (u, data) ->
  url w = JStr u ->
  get_next_page_url data = Ok v ->
  walk_body net w st
  = (Ok (if truthy v && negb (eq_str v u)
         then Continue {| url := v; page_num := S (page_num w);
                          all_reviews := all_reviews w ++ reviews_of [(u, data)];
                          walk_app_name :=
                            names_of [(u, data)] (walk_app_name w) |}
         else Leave {| url := JStr u; page_num := page_num w;
                       all_reviews := all_reviews w ++ reviews_of [(u, data)];
                       walk_app_name :=
                         names_of [(u, data)] (walk_app_name w) |}),
     count_page (do_request u (rate_limit w st))).
Proof.
  intros (Hnet & Htruthy & [reviews Hrev] & Hname) Hurl Hnext.
  cbn [fst snd] in *. destruct (Hname (walk_app_name w)) as [name' Hname'].
  unfold walk_body. rewrite Hurl.
  rewrite (WalkSpec.fetch_url_payload net u _ data (Hnet _)).
  rewrite Htruthy. cbn [negb]. unfold after_fetch.
  cbn [reviews_of names_of]. rewrite Hrev, Hname', Hnext, Hurl.
  cbn [mbind result_bind]. rewrite app_nil_r.
  now destruct (truthy v && negb (eq_str v u)).
Qed.

Lemma last_cons_default {A} (l : list A) : forall x d,
  List.last (x :: l) d = List.last l x.
Proof.
  induction l as [|y l IH]; intros x d; [reflexivity|].
  change (List.last (y :: l) d = List.last (y :: l) x). now rewrite !IH.
Qed.

Lemma final_cursor_cons (u u' : string) (d' : json) rest :
  final_cursor u ((u', d') :: rest) = final_cursor u' rest.
Proof.
  unfold final_cursor. rewrite last_cons_default.
  destruct rest as [|p rest]; [reflexivity|]. now rewrite !last_cons_default.
Qed.

Lemma final_cursor_served (net : network) (u : string) (data : json) rest :
  Forall (served net) ((u, data) :: rest) ->
  forall n, exists d, net (final_cursor u rest) n = Payload d.
Proof.
  revert u data. induction rest as [|[u' d'] rest IH]; intros u data Hall n.
  - apply Forall_cons in Hall as [(Hnet & _) _]. exists data. apply Hnet.
  - rewrite final_cursor_cons. apply Forall_cons in Hall as [_ Hall].
    now apply (IH u' d').
Qed.

Lemma walk_loop_S (fuel : nat) (net : network) (w : walk) (st : session) :
  walk_loop (S fuel) net w st
  = if truthy (url w) then
      match walk_body net w st with
      | (Ok (Continue w'), st') => walk_loop fuel net w' st'
      | (Ok (Leave w'), st') => Some (Ok w', st')
      | (Raise e, st') => Some (Raise e, st')
      end
    else Some (Ok w, st).
Proof. reflexivity. Qed.

(** A walk over pages that are served and chained: it takes an
    iteration a page, and after the last page it goes on to [last] or
    leaves the loop. *)
Lemma walk_chain (net : network) (last : json) : forall rest u data w st fuel,
  Forall (served net) ((u, data) :: rest) ->
  chained ((u, data) :: rest) last ->
  url w = JStr u -> u <> "" ->
  walk_loop (S (length rest) + fuel) net w st
  = let st_end :=
      {| pages_fetched := (pages_fetched st + S (length rest))%nat;
         total_reviews := total_reviews st;
         errors := errors st;
         requests := (requests st + S (length rest))%nat;
         trace := trace st ++ page_events (page_num w) ((u, data) :: rest) |} in
    let reviews := all_reviews w ++ reviews_of ((u, data) :: rest) in
    let name := names_of ((u, data) :: rest) (walk_app_name w) in
    if truthy last && negb (eq_str last (final_cursor u rest))
    then walk_loop fuel net
           {| url := last; page_num := (page_num w + S (length rest))%nat;
              all_reviews := reviews; walk_app_name := name |} st_end
    else Some (Ok {| url := JStr (final_cursor u rest);
                     page_num := (page_num w + length rest)%nat;
                     all_reviews := reviews; walk_app_name := name |},
               st_end).
Proof.
  induction rest as [|[u' d'] rest IH];
    intros u data w st fuel Hserved Hchain Hurl Hu.
  - apply Forall_cons in Hserved as [Hpage _].
    destruct Hchain as (Hnext & _ & _). cbn [next_of] in Hnext.
    change (S (length []) + fuel)%nat with (S fuel).
    rewrite walk_loop_S, Hurl, (truthy_str u Hu).
    rewrite (walk_body_served net u data last w st Hpage Hurl Hnext).
    rewrite page_session. change (final_cursor u []) with u.
    cbn [page_events]. rewrite Nat.add_0_r, !Nat.add_1_r.
    now destruct (truthy last && negb (eq_str last u)).
  - apply Forall_cons in Hserved as [Hpage Hserved].
    destruct Hchain as (Hnext & [Hu' Hne] & Hchain). cbn [next_of] in Hnext.
    change (S (length ((u', d') :: rest)) + fuel)%nat
      with (S (S (length rest) + fuel)).
    rewrite walk_loop_S, Hurl, (truthy_str u Hu).
    rewrite (walk_body_served net u data (JStr u') w st Hpage Hurl Hnext).
    rewrite (truthy_str u' Hu'). cbn [eq_str].
    destruct (String.eqb_spec u' u) as [|_]; [contradiction|].
    cbn [negb andb].
    rewrite (IH u' d' _ _ fuel Hserved Hchain) by (reflexivity || assumption).
    rewrite page_session, final_cursor_cons.
    cbn [pages_fetched total_reviews errors requests trace page_num
         all_reviews walk_app_name length].
    assert (reviews_of ((u, data) :: (u', d') :: rest)
            = reviews_of [(u, data)] ++ reviews_of ((u', d') :: rest)) as ->.
    { cbn [reviews_of]. destruct (extract_reviews data); [|reflexivity].
      now rewrite app_nil_r. }
    assert (names_of ((u, data) :: (u', d') :: rest) (walk_app_name w)
            = names_of ((u', d') :: rest)
                (names_of [(u, data)] (walk_app_name w))) as ->.
    { cbn [names_of]. now destruct (note_app_name data (walk_app_name w)). }
    assert (page_events (page_num w) ((u, data) :: (u', d') :: rest)
            = ((if (1 <? page_num w)%nat
                then [Sleep DELAY_BETWEEN_REQUESTS] else []) ++ [Request u])
              ++ page_events (S (page_num w)) ((u', d') :: rest)) as ->.
    { cbn [page_events]. now rewrite <- app_assoc. }
    rewrite <- !app_assoc.
    replace (S (pages_fetched st) + S (length rest))%nat
      with (pages_fetched st + S (S (length rest)))%nat by lia.
    replace (S (requests st) + S (length rest))%nat
      with (requests st + S (S (length rest)))%nat by lia.
    replace (S (page_num w) + S (length rest))%nat
      with (page_num w + S (S (length rest)))%nat by lia.
    replace (S (page_num w) + length rest)%nat
      with (page_num w + S (length rest))%nat by lia.
    reflexivity.
Qed.

Lemma fetch_url_down (net : network) (u : string) (st : session) :
  (forall n, net u n = TransportError) ->
  fetch_url net u st
  = (Ok JNull,
     {| pages_fetched := pages_fetched st;
        total_reviews := total_reviews st;
        errors := S (S (S (errors st)));
        requests := S (S (S (requests st)));
        trace := trace st ++ [Request u; Sleep 1; Request u; Sleep 2; Request u] |}).
Proof.
  intros Hdown. unfold fetch_url, MAX_RETRIES. cbn [seq fetch_attempts].
  rewrite !FetcherSpec.fetch_attempt_down by apply Hdown. cbn.
  rewrite !FetcherSpec.fetch_attempt_down by apply Hdown. cbn.
  rewrite !FetcherSpec.fetch_attempt_down by apply Hdown. cbn.
  unfold count_error, do_request, do_sleep. cbn.
  rewrite <- !app_assoc. reflexivity.
Qed.

(** The iteration on a cursor that cannot be reached leaves the loop
    with the variables as they are. *)
Lemma walk_loop_down (net : network) (bad : string) (w : walk) (st : session)
    (fuel : nat) :
  url w = JStr bad -> bad <> "" ->
  (forall n, net bad n = TransportError) ->
  exists st',
    walk_loop (S fuel) net w st = Some (Ok w, st')
    /\ pages_fetched st' = pages_fetched st
    /\ total_reviews st' = total_reviews st
    /\ errors st' = (errors st + 3)%nat
    /\ requests st' = (requests st + 3)%nat.
Proof.
  intros Hurl Hbad Hdown.
  rewrite walk_loop_S, Hurl, (truthy_str bad Hbad). unfold walk_body. rewrite Hurl.
  rewrite (fetch_url_down net bad _ Hdown). cbn [truthy negb].
  eexists. split; [reflexivity|]. cbn. rewrite rate_limit_requests.
  unfold rate_limit. destruct (1 <? page_num w)%nat; cbn; repeat split; lia.
Qed.

(** X9.  A feed of finitely many pages, each served at the first
    attempt and chained to the next, whose last page has no next cursor
    that the walk follows: with fuel for as many iterations as there
    are pages, the walk returns the reviews of all pages in order,
    counts the pages, makes one request a page with no error, and
    sleeps for the delay before every page but the first. *)
Theorem walk_finite_feed (net : network) (app sort : string) (data : json)
    (rest : list (string * json)) (last : json) (st : session) (fuel : nat) :
  Forall (served net) ((first_url app sort, data) :: rest) ->
  chained ((first_url app sort, data) :: rest) last ->
  truthy last && negb (eq_str last (final_cursor (first_url app sort) rest))
    = false ->
  (length rest < fuel)%nat ->
  fetch_all_reviews fuel net app sort st
  = Some (Ok (reviews_of ((first_url app sort, data) :: rest),
              {| app_id := app; sort_by := sort;
                 total_pages := S (length rest);
                 meta_total_reviews :=
                   length (reviews_of ((first_url app sort, data) :: rest));
                 app_name :=
                   names_of ((first_url app sort, data) :: rest) None |}),
          {| pages_fetched := (pages_fetched st + S (length rest))%nat;
             total_reviews :=
               (total_reviews st
                + length (reviews_of ((first_url app sort, data) :: rest)))%nat;
             errors := errors st;
             requests := (requests st + S (length rest))%nat;
             trace := trace st
                      ++ page_events 1 ((first_url app sort, data) :: rest) |}).
Proof.
  intros Hserved Hchain Hlast Hfuel.
  unfold fetch_all_reviews.
  replace fuel with (S (length rest) + (fuel - S (length rest)))%nat by lia.
  rewrite (walk_chain net last rest (first_url app sort) data _ st _
             Hserved Hchain)
    by (reflexivity || apply first_url_not_empty).
  cbv zeta. rewrite Hlast. reflexivity.
Qed.

(** X10.  When the cursor after some served and chained pages cannot
    be reached, the walk still returns: the reviews of the pages before
    it are kept, the page that failed is counted in [total_pages], and
    three requests and three errors are spent on it.  The pages may be
    none, when it is the first page that cannot be reached. *)
Theorem walk_keeps_reviews (net : network) (app sort : string)
    (pages : list (string * json)) (bad : string) (st : session) (fuel : nat) :
  Forall (served net) pages ->
  chained pages (JStr bad) ->
  next_of pages (JStr bad) = JStr (first_url app sort) ->
  bad <> "" ->
  (forall n, net bad n = TransportError) ->
  (length pages < fuel)%nat ->
  exists st',
    fetch_all_reviews fuel net app sort st
    = Some (Ok (reviews_of pages,
                {| app_id := app; sort_by := sort;
                   total_pages := S (length pages);
                   meta_total_reviews := length (reviews_of pages);
                   app_name := names_of pages None |}),
            st')
    /\ pages_fetched st' = (pages_fetched st + length pages)%nat
    /\ total_reviews st' = (total_reviews st + length (reviews_of pages))%nat
    /\ errors st' = (errors st + 3)%nat
    /\ requests st' = (requests st + length pages + 3)%nat.
Proof.
  intros Hserved Hchain Hfirst Hbad Hdown Hfuel.
  unfold fetch_all_reviews. destruct pages as [|[u data] rest].
  - cbn [next_of] in Hfirst. destruct fuel as [|fuel]; [cbn in Hfuel; lia|].
    destruct (walk_loop_down net bad
                {| url := JStr (first_url app sort); page_num := 1;
                   all_reviews := []; walk_app_name := None |} st fuel)
      as (st' & -> & Hp & Ht & He & Hr); [now rewrite <- Hfirst | assumption..|].
    eexists. split; [reflexivity|]. cbn. repeat split; lia.
  - cbn [next_of] in Hfirst. injection Hfirst as ->.
    cbn [length] in Hfuel.
    replace fuel with (S (length rest) + S (fuel - S (S (length rest))))%nat
      by lia.
    rewrite (walk_chain net (JStr bad) rest _ data _ st _ Hserved Hchain)
      by (reflexivity || apply first_url_not_empty).
    cbv zeta. rewrite (truthy_str bad Hbad). cbn [eq_str].
    destruct (String.eqb_spec bad (final_cursor (first_url app sort) rest))
      as [Heq|_].
    { destruct (final_cursor_served net _ data rest Hserved 0%nat) as [d Hd].
      rewrite <- Heq, Hdown in Hd. discriminate. }
    cbn [negb andb].
    match goal with
    | |- context [walk_loop (S ?f) net ?w ?s] =>
        destruct (walk_loop_down net bad w s f)
          as (st' & -> & Hp & Ht & He & Hr); [reflexivity | assumption..|]
    end.
    eexists. split; [reflexivity|]. cbn in *. repeat split; lia.
Qed.

Lemma two_pages_served :
  Forall (served Samples.two_pages)
    [(first_url "1" "mostrecent", Samples.page "1" Samples.href_two);
     (Samples.page_two, Samples.last_page "2")].
Proof.
  repeat constructor; try (intros n; vm_compute; reflexivity);
    try (eexists; vm_compute; reflexivity);
    intros name; exists name; reflexivity.
Qed.

Lemma two_pages_chained :
  chained
    [(first_url "1" "mostrecent", Samples.page "1" Samples.href_two);
     (Samples.page_two, Samples.last_page "2")] JNull.
Proof.
  repeat split; try (vm_compute; reflexivity); vm_compute; discriminate.
Qed.

Lemma walk_finite_feed_witness :
  match fetch_all_reviews 2 Samples.two_pages "1" "mostrecent" init_session with
  | Some (Ok (reviews, meta), st') =>
      length reviews = 2%nat /\ total_pages meta = 2%nat
      /\ requests st' = 2%nat
  | _ => False
  end.
Proof.
  rewrite (walk_finite_feed Samples.two_pages "1" "mostrecent"
             (Samples.page "1" Samples.href_two)
             [(Samples.page_two, Samples.last_page "2")] JNull init_session 2
             two_pages_served two_pages_chained eq_refl).
  - repeat split.
  - cbn. lia.
Defined.

Lemma walk_keeps_reviews_witness :
  exists reviews st',
    fetch_all_reviews 2 Samples.second_page_down "1" "mostrecent" init_session
    = Some (Ok (reviews, {| app_id := "1"; sort_by := "mostrecent";
                            total_pages := 2; meta_total_reviews := 1;
                            app_name := None |}), st')
    /\ length reviews = 1%nat
    /\ pages_fetched st' = 1%nat /\ errors st' = 3%nat
    /\ requests st' = 4%nat.
Proof.
  destruct (walk_keeps_reviews Samples.second_page_down "1" "mostrecent"
              [(Samples.page_one, Samples.page "1" Samples.href_two)]
              Samples.page_two init_session 2)
    as (st' & Hrun & Hp & _ & He & Hr).
  - repeat constructor; try (intros n; vm_compute; reflexivity);
      try (eexists; vm_compute; reflexivity);
      intros name; exists name; reflexivity.
  - repeat split.
  - reflexivity.
  - vm_compute. discriminate.
  - intros n. vm_compute. reflexivity.
  - cbn. lia.
  - eexists _, st'. split; [exact Hrun|]. split; [reflexivity|].
    split; [exact Hp|]. split; [exact He | exact Hr].
Defined.

(** ** What a walk does to the session, on any network *)

Lemma rate_limit_counters (w : walk) (st : session) :
  pages_fetched (rate_limit w st) = pages_fetched st
  /\ total_reviews (rate_limit w st) = total_reviews st
  /\ errors (rate_limit w st) = errors st
  /\ requests (rate_limit w st) = requests st.
Proof. unfold rate_limit. now destruct (1 <? page_num w)%nat. Qed.

Lemma after_fetch_effect (w : walk) (u : string) (data : json) c :
  after_fetch w u data = Ok c ->
  match c with
  | Continue w' =>
      page_num w' = S (page_num w) /\ truthy (url w') = true
      /\ exists more, all_reviews w' = all_reviews w ++ more
  | Leave w' =>
      page_num w' = page_num w /\ url w' = url w
      /\ exists more, all_reviews w' = all_reviews w ++ more
  end.
Proof.
  unfold after_fetch. intros Hc.
  apply bind_ok in Hc as (reviews & _ & Hc).
  apply bind_ok in Hc as (name & _ & Hc).
  apply bind_ok in Hc as (next_url & _ & Hc).
  destruct (truthy next_url) eqn:Ht; cbn [andb] in Hc;
    [destruct (negb (eq_str next_url u))|]; injection Hc as <-; cbn; eauto.
Qed.

Lemma walk_body_effect (net : network) (w : walk) (st : session) c st' :
  walk_body net w st = (Ok c, st') ->
  total_reviews st' = total_reviews st
  /\ (requests st < requests st' <= requests st + 3)%nat
  /\ (errors st <= errors st')%nat
  /\ (errors st' + requests st <= errors st + requests st')%nat
  /\ (pages_fetched st <= pages_fetched st' <= S (pages_fetched st))%nat
  /\ match c with
     | Continue w' =>
         page_num w' = S (page_num w) /\ truthy (url w') = true
         /\ pages_fetched st' = S (pages_fetched st)
         /\ exists more, all_reviews w' = all_reviews w ++ more
     | Leave w' =>
         page_num w' = page_num w /\ url w' = url w
         /\ exists more, all_reviews w' = all_reviews w ++ more
     end.
Proof.
  unfold walk_body. destruct (url w) as [| | |u| |] eqn:Hurl; try discriminate.
  destruct (fetch_url net u (rate_limit w st)) as [[data|e] st2] eqn:Hfetch;
    [|discriminate].
  destruct (FetcherMore.fetch_url_effect net u _ _ _ Hfetch)
    as (new & _ & Hreq & _ & Hr & He & Hp & Ht & Hdata & _).
  destruct (rate_limit_counters w st) as (Rp & Rt & Re & Rr).
  rewrite Rp, Rt, Re, Rr in *.
  destruct (truthy data) eqn:Htruthy; cbn [negb].
  - intros [= Hafter <-]. destruct (Hdata data eq_refl Htruthy) as [Hpage Herr].
    repeat split; try lia.
    apply after_fetch_effect in Hafter.
    destruct c as [w'|w']; [|now rewrite Hurl in Hafter].
    destruct Hafter as (? & ? & ?). auto.
  - intros [= <- <-]. repeat split; try lia; [exact Hurl|].
    exists []. now rewrite app_nil_r.
Qed.

Lemma walk_loop_effect (net : network) : forall fuel w st w' st',
  walk_loop fuel net w st = Some (Ok w', st') ->
  truthy (url w) = true ->
  exists k,
    page_num w' = (page_num w + k)%nat
    /\ (exists more, all_reviews w' = all_reviews w ++ more)
    /\ total_reviews st' = total_reviews st
    /\ (pages_fetched st + k <= pages_fetched st' <= pages_fetched st + k + 1)%nat
    /\ (requests st + k + 1 <= requests st' <= requests st + 3 * (k + 1))%nat
    /\ (errors st <= errors st')%nat
    /\ (errors st' + requests st <= errors st + requests st')%nat.
Proof.
  induction fuel as [|fuel IH]; intros w st w' st' Hrun Hurl; [discriminate|].
  rewrite walk_loop_S, Hurl in Hrun.
  destruct (walk_body net w st) as [[[w1|w1]|e] st1] eqn:Hbody;
    [| |discriminate].
  - apply walk_body_effect in Hbody
      as (Ht & Hr & He & Her & Hp & Hn & Hu & Hp1 & [more Hmore]).
    destruct (IH _ _ _ _ Hrun Hu)
      as (k & Hk & [more' Hmore'] & Ht' & Hp' & Hr' & He' & Her').
    exists (S k). repeat split; try lia.
    exists (more ++ more'). now rewrite Hmore', Hmore, app_assoc.
  - injection Hrun as <- <-.
    apply walk_body_effect in Hbody
      as (Ht & Hr & He & Her & Hp & Hn & _ & Hmore).
    exists 0%nat. repeat split; try lia. exact Hmore.
Qed.

(** X11.  Whenever a walk returns, on any network: the metadata names
    the app and the ordering, its review count is the number of reviews
    returned, which is what the session's count grows by; at least one
    page is counted, the pages fetched are the pages counted or one
    fewer, each page counted took one to three requests, and no more
    errors were counted than requests made. *)
Theorem fetch_all_reviews_accounting (fuel : nat) (net : network)
    (app sort : string) (st : session) reviews meta st' :
  fetch_all_reviews fuel net app sort st = Some (Ok (reviews, meta), st') ->
  app_id meta = app /\ sort_by meta = sort
  /\ meta_total_reviews meta = length reviews
  /\ total_reviews st' = (total_reviews st + length reviews)%nat
  /\ (1 <= total_pages meta)%nat
  /\ (pages_fetched st + total_pages meta <= S (pages_fetched st'))%nat
  /\ (pages_fetched st' <= pages_fetched st + total_pages meta)%nat
  /\ (requests st + total_pages meta <= requests st')%nat
  /\ (requests st' <= requests st + 3 * total_pages meta)%nat
  /\ (errors st <= errors st')%nat
  /\ (errors st' + requests st <= errors st + requests st')%nat.
Proof.
  unfold fetch_all_reviews.
  destruct (walk_loop fuel net _ st) as [[[w|e] st1]|] eqn:Hrun;
    try discriminate.
  intros [= <- <- <-].
  apply walk_loop_effect in Hrun
    as (k & Hk & _ & Ht & Hp & Hr & He & Her);
    [|apply truthy_str, first_url_not_empty].
  cbn in *. repeat split; lia.
Qed.

Lemma fetch_all_reviews_accounting_witness :
  match fetch_all_reviews 2 Samples.two_pages "1" "mostrecent" init_session with
  | Some (Ok (reviews, meta), st') =>
      meta_total_reviews meta = length reviews
      /\ total_reviews st' = length reviews
  | _ => False
  end.
Proof.
  destruct (fetch_all_reviews 2 Samples.two_pages "1" "mostrecent" init_session)
    as [[[[reviews meta]|e] st']|] eqn:Hrun;
    [|vm_compute in Hrun; discriminate..].
  destruct (fetch_all_reviews_accounting _ _ _ _ _ _ _ _ Hrun)
    as (_ & _ & Hm & Ht & _).
  split; [exact Hm | exact Ht].
Defined.

End WalkMore.
(* ===================================================================== *)
(** * Loading the snapshot files                                          *)
(* ===================================================================== *)

Module FilesSpec.
Import Py PyFacts.
#[local] Set Warnings "-clear-no-such-hyp".




End FilesSpec.
(* ===================================================================== *)
(** * More on the analyzer                                                *)
(* ===================================================================== *)

Module MergeMore.
Import Py Analyzer.
#[local] Set Warnings "-clear-no-such-hyp".

(** The loop over one source keeps the order of the source. *)
Lemma merge_source_order src revs : forall all_reviews seen_ids,
  exists new,
    merge_source src (all_reviews, seen_ids) revs
      = (all_reviews ++ new, seen_ids ∪ list_to_set (map id revs))
    /\ new `sublist_of` map (fun r => set_source r src) revs
    /\ NoDup (map id new)
    /\ (forall r, r ∈ new -> id r ∉ seen_ids)
    /\ (NoDup (map id revs) -> (forall r, r ∈ revs -> id r ∉ seen_ids) ->
        new = map (fun r => set_source r src) revs).
Proof.
  induction revs as [|r revs IH]; intros all_reviews seen_ids.
  - exists []. cbn. rewrite app_nil_r.
    split; [f_equal; set_solver|].
    split; [constructor|]. split; [constructor|].
    split; [intros r Hr; now apply elem_of_nil in Hr | reflexivity].
  - unfold merge_source. cbn [foldl]. case_bool_decide as Hseen.
    + destruct (IH all_reviews seen_ids) as (new & Hrun & Hsub & Hnd & Hnew & Hall).
      exists new. unfold merge_source in Hrun. rewrite Hrun.
      repeat split; try assumption.
      * f_equal. cbn [map list_to_set]. set_solver.
      * cbn [map]. now apply sublist_cons.
      * intros _ Hfresh. exfalso. apply (Hfresh r); [left | exact Hseen].
    + destruct (IH (all_reviews ++ [set_source r src]) ({[id r]} ∪ seen_ids))
        as (new & Hrun & Hsub & Hnd & Hnew & Hall).
      exists (set_source r src :: new). unfold merge_source in Hrun.
      rewrite Hrun. repeat split.
      * f_equal; [now rewrite <- app_assoc|]. cbn [map list_to_set]. set_solver.
      * cbn [map]. now apply sublist_skip.
      * cbn [map]. apply NoDup_cons. split; [|assumption].
        intros Hin. apply list_elem_of_fmap in Hin as (r' & Hid & Hr').
        apply Hnew in Hr'. cbn in Hid. set_solver.
      * intros r' Hr'. apply elem_of_cons in Hr' as [-> | Hr'];
          [exact Hseen|]. apply Hnew in Hr'. set_solver.
      * intros Hnd' Hfresh. cbn [map]. f_equal.
        cbn [map] in Hnd'. apply NoDup_cons in Hnd' as [Hr Hnd'].
        apply Hall; [assumption|].
        intros r' Hr'. apply not_elem_of_union. split.
        -- intros Heq. apply elem_of_singleton in Heq. apply Hr.
           rewrite <- Heq. apply list_elem_of_fmap. eauto.
        -- apply Hfresh. now right.
Qed.

(** X14.  Whichever of the two snapshots are loaded, the merged list
    keeps the order of the sources: it is a sublist of the most helpful
    reviews followed by the most recent ones, each tagged with its
    source; no id occurs twice in it; when no id occurs twice in the
    sources it is the whole of that list; and each of its reviews has
    the nine fields of a review of one of the two snapshots and the name
    of that snapshot as its [source]. *)
Theorem get_all_reviews_in_order (rd : ReviewsData) :
  let helpful := from_option reviews [] (most_helpful rd) in
  let recent := from_option reviews [] (most_recent rd) in
  let tagged :=
    map (fun r => set_source r "most_helpful") helpful
    ++ map (fun r => set_source r "most_recent") recent in
  get_all_reviews rd `sublist_of` tagged
  /\ NoDup (map id (get_all_reviews rd))
  /\ (NoDup (map id tagged) -> get_all_reviews rd = tagged)
  /\ (forall r, r ∈ get_all_reviews rd ->
        exists r0,
          (r0 ∈ helpful /\ source r = Some "most_helpful"
           \/ r0 ∈ recent /\ source r = Some "most_recent")
          /\ id r = id r0 /\ author r = author r0
          /\ rating r = rating r0 /\ version r = version r0
          /\ title r = title r0 /\ content r = content r0
          /\ updated r = updated r0 /\ vote_sum r = vote_sum r0
          /\ vote_count r = vote_count r0).
Proof.
  assert (Hgen : forall A B,
            let tagged := map (fun r => set_source r "most_helpful") A
                          ++ map (fun r => set_source r "most_recent") B in
            let merged := fst (merge_source "most_recent"
                                 (merge_source "most_helpful" ([], ∅) A) B) in
            merged `sublist_of` tagged
            /\ NoDup (map id merged)
            /\ (NoDup (map id tagged) -> merged = tagged)).
  { intros A B tagged merged. subst tagged merged.
    destruct (merge_source_order "most_helpful" A [] ∅)
      as (newA & -> & HsubA & HndA & _ & HallA).
    destruct (merge_source_order "most_recent" B ([] ++ newA)
                (∅ ∪ list_to_set (map id A)))
      as (newB & -> & HsubB & HndB & HnewB & HallB).
    cbn [fst app]. repeat split.
    - now apply sublist_app.
    - rewrite map_app. apply NoDup_app. repeat split; try assumption.
      intros i HiA HiB. apply list_elem_of_fmap in HiB as (r & -> & Hr).
      apply (HnewB r Hr). apply elem_of_union_r, elem_of_list_to_set.
      apply list_elem_of_fmap in HiA as (r' & -> & Hr').
      apply (fun H => elem_of_sublist _ _ _ H HsubA) in Hr'.
      apply list_elem_of_fmap in Hr' as (r0 & -> & Hr0).
      apply list_elem_of_fmap. exists r0. split; [reflexivity | assumption].
    - intros Hnd. rewrite !map_app, !map_map in Hnd. cbn in Hnd.
      apply NoDup_app in Hnd as (HA & Hdisj & HB).
      rewrite HallA, HallB; [reflexivity | assumption | | assumption | set_solver].
      intros r Hr Hin. apply elem_of_union in Hin as [Hin | Hin]; [set_solver|].
      apply elem_of_list_to_set in Hin.
      apply (Hdisj (id r) Hin). apply list_elem_of_fmap. eauto. }
  assert (Hthree :
            get_all_reviews rd `sublist_of`
              map (fun r => set_source r "most_helpful")
                  (from_option reviews [] (most_helpful rd))
              ++ map (fun r => set_source r "most_recent")
                     (from_option reviews [] (most_recent rd))
            /\ NoDup (map id (get_all_reviews rd))
            /\ (NoDup (map id
                         (map (fun r => set_source r "most_helpful")
                              (from_option reviews [] (most_helpful rd))
                          ++ map (fun r => set_source r "most_recent")
                                 (from_option reviews [] (most_recent rd)))) ->
                get_all_reviews rd =
                  map (fun r => set_source r "most_helpful")
                      (from_option reviews [] (most_helpful rd))
                  ++ map (fun r => set_source r "most_recent")
                         (from_option reviews [] (most_recent rd)))).
  { unfold get_all_reviews.
    cbn [foldl reviews_data_get String.eqb Ascii.eqb Bool.eqb].
    destruct (most_helpful rd) as [helpful|], (most_recent rd) as [recent|];
      cbn [from_option].
    - apply Hgen.
    - specialize (Hgen (reviews helpful) []). cbn in Hgen. exact Hgen.
    - specialize (Hgen [] (reviews recent)). cbn in Hgen. exact Hgen.
    - cbn. repeat split; [constructor | constructor]. }
  intros helpful recent tagged. subst helpful recent tagged.
  destruct Hthree as (Hsub & Hnd & Hall).
  split; [exact Hsub|]. split; [exact Hnd|]. split; [exact Hall|].
  intros r Hr. apply (fun H => elem_of_sublist _ _ _ H Hsub) in Hr.
  apply elem_of_app in Hr as [Hr | Hr];
    apply list_elem_of_fmap in Hr as (r0 & -> & Hr0); exists r0;
    (split; [(left + right); split; [exact Hr0 | reflexivity]|]);
    repeat split; reflexivity.
Qed.

End MergeMore.
(* ===================================================================== *)
(** * Positive aspects, issue totals and the report                       *)
(* ===================================================================== *)

Module AspectsSpec.
Import Py PyFacts Analyzer.
#[local] Set Warnings "-clear-no-such-hyp".

(** ** Dictionaries with pairwise distinct keys *)

Lemma dict_get_elem {V} (d : dict V) k v :
  NoDup (dict_keys d) -> ((k, v) ∈ d <-> dict_get k d = Some v).
Proof.
  induction d as [|[k' v'] d IH]; cbn [dict_keys map fst dict_get]; intros Hnd.
  - split; [intros Hin; now apply elem_of_nil in Hin | discriminate].
  - apply NoDup_cons in Hnd as [Hk' Hnd]. rewrite elem_of_cons.
    destruct (String.eqb_spec k k') as [-> | Hne].
    + split.
      * intros [[= ->] | Hin]; [reflexivity|]. exfalso. apply Hk'.
        apply list_elem_of_fmap. exists (k', v). auto.
      * intros [= ->]. now left.
    + rewrite <- (IH Hnd). split; [intros [[= -> ->] | Hin] | auto];
        [contradiction | assumption].
Qed.

(** A sum over the values of a dictionary, taken key by key over any
    list of distinct keys that has all of the dictionary's. *)
Lemma sum_over_keys {V} (g : V -> nat) (d : dict V) : forall ks,
  NoDup (dict_keys d) -> NoDup ks ->
  (forall k, k ∈ dict_keys d -> k ∈ ks) ->
  sum_list (map g (dict_values d))
  = sum_list (map (fun k => from_option g 0%nat (dict_get k d)) ks).
Proof.
  unfold dict_values.
  induction d as [|[k v] d IH]; intros ks Hnd Hks Hsub.
  - cbn. induction ks as [|k ks IHks]; [reflexivity|]. cbn.
    apply IHks; [now apply NoDup_cons in Hks as [_ ?]|].
    intros k' Hk'. now apply elem_of_nil in Hk'.
  - cbn [dict_keys map fst] in Hnd, Hsub. apply NoDup_cons in Hnd as [Hk Hnd].
    destruct (proj1 (elem_of_Permutation ks k)) as [ks' Hperm];
      [apply Hsub; left|].
    rewrite Hperm in Hks. apply NoDup_cons in Hks as [Hk' Hks'].
    assert (Hmap : map (fun k0 => from_option g 0%nat (dict_get k0 ((k, v) :: d))) ks
                   ≡ₚ map (fun k0 => from_option g 0%nat (dict_get k0 ((k, v) :: d)))
                          (k :: ks'))
      by now rewrite Hperm.
    rewrite Hmap. cbn [map snd sum_list dict_get].
    rewrite String.eqb_refl. cbn [from_option]. f_equal.
    rewrite (IH ks' Hnd Hks').
    + f_equal. apply map_ext_in. intros k0 Hk0.
      destruct (String.eqb_spec k0 k) as [-> | _]; [|reflexivity].
      exfalso. apply Hk'. now apply list_elem_of_In.
    + intros k0 Hk0. assert (k0 ∈ ks) as Hin by (apply Hsub; now right).
      rewrite Hperm in Hin. apply elem_of_cons in Hin as [-> | Hin];
        [contradiction | assumption].
Qed.

Section Aspects.
Context `{Runtime}.

(** ** The reviews kept for the positive aspects *)

Lemma high_rated_filter (revs high : list Review) :
  high_rated revs = Ok high -> high = List.filter high_rating revs.
Proof.
  revert high. induction revs as [|r revs IH]; intros high; cbn [high_rated].
  - now intros [= <-].
  - intros Hl. apply bind_ok in Hl as (z & Hz & Hl).
    apply bind_ok in Hl as (high' & Hhigh' & Hl). injection Hl as <-.
    cbn [List.filter]. unfold high_rating at 1.
    unfold int_rating in Hz.
    destruct (int_of_str (rating r)) as [z'|]; [|discriminate].
    injection Hz as ->. cbn [from_option].
    rewrite (IH high' Hhigh'). now destruct (4 <=? z).
Qed.

Lemma high_rated_total (revs : list Review) :
  (forall r, r ∈ revs -> is_Some (int_of_str (rating r))) ->
  exists high, high_rated revs = Ok high.
Proof.
  induction revs as [|r revs IH]; intros Hall; cbn [high_rated]; [eauto|].
  destruct (Hall r) as [z Hz]; [left|].
  unfold int_rating. rewrite Hz. cbn [option_to_result mbind result_bind].
  destruct IH as [high ->]; [intros; apply Hall; now right|].
  cbn [mbind result_bind]. eauto.
Qed.

Lemma high_rated_raise (revs : list Review) e :
  high_rated revs = Raise e -> e = ValueError.
Proof.
  induction revs as [|r revs IH]; cbn [high_rated]; [discriminate|].
  unfold int_rating. destruct (int_of_str (rating r)); cbn;
    [|now intros [= <-]].
  destruct (high_rated revs); cbn; [discriminate|].
  intros [= <-]. now apply IH.
Qed.

(** ** One review against every category *)

Lemma positive_keywords_NoDup : NoDup (map fst positive_keywords).
Proof. compute_done. Qed.

Lemma count_positive_other (review : Review) category :
  forall (cats : list (string * list string)) (counts : dict nat),
  category ∉ map fst cats ->
  dict_get category
    (foldl (fun counts ck =>
              if any_in (snd ck) (text_of review)
              then dict_upd 0%nat (fst ck) S counts
              else counts) counts cats)
  = dict_get category counts.
Proof.
  induction cats as [|[c kws] cats IH]; intros counts Hni; [reflexivity|].
  cbn [map fst] in Hni. apply not_elem_of_cons in Hni as [Hne Hni].
  cbn [foldl fst snd]. rewrite IH by assumption.
  destruct (any_in kws (text_of review)); [|reflexivity].
  rewrite IssuesSpec.dict_get_upd.
  destruct (String.eqb_spec category c); [contradiction | reflexivity].
Qed.

Lemma count_positive_get (review : Review) :
  forall (cats : list (string * list string)),
  NoDup (map fst cats) ->
  forall (counts : dict nat) category keywords,
    (category, keywords) ∈ cats ->
    dict_get category
      (foldl (fun counts ck =>
                if any_in (snd ck) (text_of review)
                then dict_upd 0%nat (fst ck) S counts
                else counts) counts cats)
    = if mentions keywords review
      then Some (S (default 0%nat (dict_get category counts)))
      else dict_get category counts.
Proof.
  induction cats as [|[c kws] cats IH]; intros Hnd counts category keywords Hin.
  - now apply elem_of_nil in Hin.
  - cbn [map fst] in Hnd. apply NoDup_cons in Hnd as [Hc Hnd].
    cbn [foldl fst snd].
    apply elem_of_cons in Hin as [[= -> ->] | Hin].
    + rewrite count_positive_other by assumption. unfold mentions.
      destruct (any_in kws (text_of review)); [|reflexivity].
      rewrite IssuesSpec.dict_get_upd, String.eqb_refl. reflexivity.
    + rewrite (IH Hnd _ category keywords Hin).
      assert (Hne : category <> c).
      { intros ->. apply Hc. apply list_elem_of_fmap.
        exists (c, keywords). split; [reflexivity | assumption]. }
      destruct (any_in kws (text_of review)); [|reflexivity].
      rewrite IssuesSpec.dict_get_upd.
      destruct (String.eqb_spec category c); [contradiction | reflexivity].
Qed.

Lemma count_positive_NoDup (counts : dict nat) (review : Review) :
  NoDup (dict_keys counts) -> NoDup (dict_keys (count_positive counts review)).
Proof.
  unfold count_positive. generalize positive_keywords. intros cats.
  revert counts. induction cats as [|[c kws] cats IH]; intros counts Hnd;
    [exact Hnd|].
  cbn [foldl fst snd]. apply IH.
  destruct (any_in kws (text_of review)); [|exact Hnd].
  now apply dict_upd_NoDup.
Qed.

(** After the loop over the kept reviews, a category holds the number
    of kept reviews that mention one of its keywords, and is absent
    when there is none. *)
Lemma positive_counts_get (high : list Review) category keywords :
  (category, keywords) ∈ positive_keywords ->
  dict_get category (foldl count_positive [] high)
  = match length (List.filter (mentions keywords) high) with
    | O => None
    | S n => Some (S n)
    end.
Proof.
  intros Hin. induction high as [|review high IH] using rev_ind; [reflexivity|].
  rewrite foldl_app. cbn [foldl]. unfold count_positive at 1.
  rewrite (count_positive_get review positive_keywords positive_keywords_NoDup
             _ category keywords Hin).
  rewrite IH, List.filter_app, length_app. cbn [List.filter].
  destruct (mentions keywords review); cbn [length].
  - destruct (length (List.filter (mentions keywords) high)); cbn;
      f_equal; lia.
  - now rewrite Nat.add_0_r.
Qed.

Lemma positive_counts_keys (high : list Review) category :
  category ∈ dict_keys (foldl count_positive [] high) ->
  category ∈ map fst positive_keywords.
Proof.
  intros Hin. destruct (decide (category ∈ map fst positive_keywords)) as [|Hni];
    [assumption|]. exfalso. apply dict_get_is_Some in Hin as [n Hn].
  revert Hn. induction high as [|review high IH] using rev_ind; [discriminate|].
  rewrite foldl_app. cbn [foldl]. unfold count_positive at 1.
  now rewrite count_positive_other by assumption.
Qed.

Lemma positive_counts_NoDup (high : list Review) :
  NoDup (dict_keys (foldl count_positive [] high)).
Proof.
  induction high as [|review high IH] using rev_ind; [constructor|].
  rewrite foldl_app. cbn [foldl]. now apply count_positive_NoDup.
Qed.

(** ** The order of the positive aspects *)

Lemma by_count_total (a b : string * nat) :
  (snd b <=? snd a)%nat = true \/ (snd a <=? snd b)%nat = true.
Proof. rewrite !Nat.leb_le. lia. Qed.

Lemma by_count_trans :
  Transitive (leR (fun kv1 kv2 : string * nat => (snd kv2 <=? snd kv1)%nat)).
Proof. unfold leR. intros a b c. rewrite !Nat.leb_le. lia. Qed.

Lemma sorted_by_count_sorted (d : dict nat) :
  StronglySorted (fun a b : string * nat => (snd b <= snd a)%nat)
                 (sorted_by_count d).
Proof.
  pose proof (sorted_sorted _ by_count_total by_count_trans d) as Hs.
  unfold sorted_by_count.
  induction Hs as [|a l _ IH Hall]; constructor; [exact IH|].
  eapply Forall_impl; [exact Hall|].
  intros b. unfold leR. now rewrite Nat.leb_le.
Qed.

Lemma top_aspects_eq (high : list Review) :
  dict_of_items (slice (sorted_by_count (foldl count_positive [] high))
                       None (Some 5))
  = take 5 (sorted_by_count (foldl count_positive [] high)).
Proof.
  rewrite (slice_first _ 5). apply dict_of_items_NoDup.
  eapply sublist_NoDup; [|apply fmap_sublist, sublist_take].
  unfold sorted_by_count.
  rewrite (sorted_perm _ (foldl count_positive [] high)).
  apply positive_counts_NoDup.
Qed.

(** X15.  The positive aspects: the function returns when every rating
    converts; the reviews it counts are those rated 4 or more; it
    lists at most five categories, none twice, by falling count; the
    count of a listed category is the number of reviews rated 4 or more
    that mention one of its keywords, and is not zero; and a category
    that is not listed has no larger count than a listed one.  A review
    is rated 4 or more when its rating converts to such an integer, and
    mentions a keyword when the keyword occurs in the lower-cased text
    of its title, a space and its content. *)
Theorem positive_aspects_counted (revs : list Review) :
  ((forall r, r ∈ revs -> is_Some (int_of_str (rating r))) ->
   exists stats, analyze_positive_aspects revs = Ok stats)
  /\ (forall stats,
        analyze_positive_aspects revs = Ok stats ->
        let top := top_positive_aspects stats in
        let hits keywords :=
          List.filter (fun r => high_rating r && mentions keywords r) revs in
        total_positive_reviews stats = length (List.filter high_rating revs)
        /\ (length top <= 5)%nat
        /\ NoDup (dict_keys top)
        /\ StronglySorted (fun a b => (snd b <= snd a)%nat) top
        /\ (forall category n,
              (category, n) ∈ top ->
              (0 < n)%nat
              /\ exists keywords,
                   (category, keywords) ∈ positive_keywords
                   /\ n = length (hits keywords))
        /\ (forall category keywords entry,
              (category, keywords) ∈ positive_keywords ->
              category ∉ dict_keys top -> entry ∈ top ->
              (length (hits keywords) <= snd entry)%nat))
  /\ (forall r : Review,
        high_rating r = true
        <-> exists z, int_of_str (rating r) = Some z /\ 4 <= z)
  /\ (forall (keywords : list string) (r : Review),
        mentions keywords r = true
        <-> exists keyword pre post,
              keyword ∈ keywords
              /\ lower (title r ++ " " ++ content r)
                 = (pre ++ keyword ++ post)%string).
Proof.
  split; [|split; [|split; [|apply IssuesSpec.mentions_spec]]].
  - intros Hall. unfold analyze_positive_aspects.
    destruct (high_rated_total revs Hall) as [high ->].
    cbn [mbind result_bind]. eauto.
  - intros stats Hrun top hits. subst top hits.
    unfold analyze_positive_aspects in Hrun.
    apply bind_ok in Hrun as (high & Hhigh & Hrun). injection Hrun as <-.
    cbn [top_positive_aspects total_positive_reviews].
    apply high_rated_filter in Hhigh. subst high.
    rewrite top_aspects_eq.
    set (counts := foldl count_positive [] (List.filter high_rating revs)).
    pose proof (positive_counts_NoDup (List.filter high_rating revs)) as Hnd.
    fold counts in Hnd.
    assert (Hperm : sorted_by_count counts ≡ₚ counts) by apply sorted_perm.
    assert (HndS : NoDup (dict_keys (sorted_by_count counts)))
      by (unfold dict_keys; now rewrite Hperm).
    assert (Hcount : forall category keywords,
              (category, keywords) ∈ positive_keywords ->
              dict_get category counts
              = match length (List.filter
                                (fun r => high_rating r && mentions keywords r)
                                revs) with
                | O => None
                | S n => Some (S n)
                end).
    { intros category keywords Hin. unfold counts.
      rewrite (positive_counts_get _ category keywords Hin).
      now rewrite IssuesSpec.filter_filter_and. }
    split; [reflexivity|]. split; [rewrite length_take; lia|].
    split; [eapply sublist_NoDup; [exact HndS | apply fmap_sublist, sublist_take]|].
    split; [apply (StronglySorted_app_1_l _ _ (drop 5 (sorted_by_count counts)));
            rewrite take_drop; apply sorted_by_count_sorted|].
    split.
    + intros category n Hin.
      apply (fun H => elem_of_sublist _ _ _ H (sublist_take _ _)) in Hin.
      rewrite Hperm in Hin.
      assert (category ∈ map fst positive_keywords) as Hcat.
      { apply (positive_counts_keys (List.filter high_rating revs)).
        apply list_elem_of_fmap. exists (category, n). auto. }
      apply list_elem_of_fmap in Hcat as ([c keywords] & -> & Hck).
      cbn [fst] in *. apply (dict_get_elem _ _ _ Hnd) in Hin.
      rewrite (Hcount c keywords Hck) in Hin.
      destruct (length _) eqn:Hlen in Hin; [discriminate|].
      injection Hin as <-. split; [lia|]. exists keywords. auto.
    + intros category keywords entry Hck Hni Hentry.
      specialize (Hcount category keywords Hck).
      destruct (length (List.filter _ revs)) as [|n] eqn:Hlen in Hcount |- *;
        [lia|].
      apply (dict_get_elem _ _ _ Hnd) in Hcount. rewrite <- Hperm in Hcount.
      apply list_elem_of_lookup in Hcount as [j Hj].
      apply list_elem_of_lookup in Hentry as [i Hi].
      pose proof (lookup_lt_Some _ _ _ Hi) as Hlt. rewrite length_take in Hlt.
      rewrite lookup_take_lt in Hi by lia.
      assert (5 <= j)%nat as Hge.
      { destruct (decide (5 <= j)%nat) as [|Hsmall]; [assumption|].
        exfalso. apply Hni. apply list_elem_of_fmap. exists (category, S n).
        split; [reflexivity|]. apply (list_elem_of_lookup_2 _ j).
        rewrite lookup_take_lt by lia. exact Hj. }
      apply (StronglySorted_lookup _ _ (sorted_by_count_sorted counts)
               i j entry (category, S n) Hi Hj). lia.
  - intros r. unfold high_rating.
    destruct (int_of_str (rating r)) as [z|]; cbn.
    + rewrite Z.leb_le. split; [eauto | intros (z' & [= <-] & Hz); exact Hz].
    + split; [discriminate | intros (z & [=] & _)].
Qed.

(** ** The total of the issues *)

Lemma categorize_other (review : Review) category :
  forall (cats : list (string * list string)) (counts : dict CategoryCount),
  category ∉ map fst cats ->
  dict_get category
    (foldl (fun counts ck =>
              if any_in (snd ck) (text_of review)
              then dict_upd {| cat_count := 0; examples := [] |}
                     (fst ck) (note_issue review) counts
              else counts) counts cats)
  = dict_get category counts.
Proof.
  induction cats as [|[c kws] cats IH]; intros counts Hni; [reflexivity|].
  cbn [map fst] in Hni. apply not_elem_of_cons in Hni as [Hne Hni].
  cbn [foldl fst snd]. rewrite IH by assumption.
  destruct (any_in kws (text_of review)); [|reflexivity].
  rewrite IssuesSpec.dict_get_upd.
  destruct (String.eqb_spec category c); [contradiction | reflexivity].
Qed.

Lemma categorize_NoDup (counts : dict CategoryCount) (review : Review) :
  NoDup (dict_keys counts) -> NoDup (dict_keys (categorize counts review)).
Proof.
  unfold categorize. generalize issue_categories. intros cats.
  revert counts. induction cats as [|[c kws] cats IH]; intros counts Hnd;
    [exact Hnd|].
  cbn [foldl fst snd]. apply IH.
  destruct (any_in kws (text_of review)); [|exact Hnd].
  now apply dict_upd_NoDup.
Qed.

Lemma category_counts_NoDup (low : list Review) :
  NoDup (dict_keys (foldl categorize [] low)).
Proof.
  induction low as [|review low IH] using rev_ind; [constructor|].
  rewrite foldl_app. cbn [foldl]. now apply categorize_NoDup.
Qed.

Lemma category_counts_keys (low : list Review) category :
  category ∈ dict_keys (foldl categorize [] low) ->
  category ∈ map fst issue_categories.
Proof.
  intros Hin. destruct (decide (category ∈ map fst issue_categories)) as [|Hni];
    [assumption|]. exfalso. apply dict_get_is_Some in Hin as [n Hn].
  revert Hn. induction low as [|review low IH] using rev_ind; [discriminate|].
  rewrite foldl_app. cbn [foldl]. unfold categorize at 1.
  now rewrite categorize_other by assumption.
Qed.

Lemma sum_list_bound {A} (f : A -> nat) (b : nat) (l : list A) :
  (forall x, f x <= b)%nat -> (sum_list (map f l) <= length l * b)%nat.
Proof.
  intros Hb. induction l as [|x l IH]; cbn; [lia|]. specialize (Hb x). lia.
Qed.

(** X16.  The total of the issues counts a review rated 3 or less once
    for every category it mentions: it is the sum, over the eight
    categories, of the number of such reviews that mention one of the
    category's keywords.  So it is at most eight times the number of
    reviews rated 3 or less, and the categories found are among the
    eight, none twice.  A review is rated 3 or less when its rating
    converts to such an integer, and mentions a keyword when the keyword
    occurs in the lower-cased text of its title, a space and its
    content. *)
Theorem issues_total_by_category (revs : list Review) (stats : IssueStats) :
  extract_keywords_and_issues revs = Ok stats ->
  total_issues_found stats
  = sum_list
      (map (fun ck =>
              length (List.filter
                        (fun r => low_rating r && mentions (snd ck) r) revs))
           issue_categories)
  /\ (total_issues_found stats <= 8 * length (List.filter low_rating revs))%nat
  /\ NoDup (dict_keys (issue_categories_found stats))
  /\ (forall category, category ∈ dict_keys (issue_categories_found stats) ->
        category ∈ map fst issue_categories)
  /\ (forall r : Review,
        low_rating r = true
        <-> exists z, int_of_str (rating r) = Some z /\ z <= 3)
  /\ (forall (keywords : list string) (r : Review),
        mentions keywords r = true
        <-> exists keyword pre post,
              keyword ∈ keywords
              /\ lower (title r ++ " " ++ content r)
                 = (pre ++ keyword ++ post)%string).
Proof.
  intros Hok. unfold extract_keywords_and_issues in Hok.
  apply bind_ok in Hok as (low & Hlow & Hok). injection Hok as <-.
  cbn [total_issues_found issue_categories_found].
  apply IssuesSpec.low_rated_filter in Hlow. subst low.
  assert (Hsum : sum_list (map cat_count
                   (dict_values (foldl categorize []
                                   (List.filter low_rating revs))))
                 = sum_list
                     (map (fun ck =>
                             length (List.filter
                                       (fun r => low_rating r
                                                 && mentions (snd ck) r) revs))
                          issue_categories)).
  { rewrite (sum_over_keys cat_count _ (map fst issue_categories)
               (category_counts_NoDup _) IssuesSpec.issue_categories_NoDup
               (category_counts_keys _)).
    rewrite map_map. f_equal. apply map_ext_in. intros [c kws] Hin.
    apply list_elem_of_In in Hin. cbn [fst snd].
    rewrite (IssuesSpec.categorize_all _ c kws Hin).
    rewrite IssuesSpec.filter_filter_and. unfold tally.
    now destruct (List.filter _ revs). }
  split; [exact Hsum|]. split; [|split; [|split; [|split]]].
  - rewrite Hsum. apply (sum_list_bound _ _ issue_categories).
    intros ck. rewrite <- IssuesSpec.filter_filter_and.
    apply List.filter_length_le.
  - apply category_counts_NoDup.
  - apply category_counts_keys.
  - apply IssuesSpec.low_rating_spec.
  - apply IssuesSpec.mentions_spec.
Qed.

(** ** The report *)

Lemma ratings_counts (revs : list Review) (ratings : list Z) :
  map_result int_rating revs = Ok ratings ->
  length ratings = length revs
  /\ length (List.filter (fun r => (r <=? 3)%Z) ratings)
     = length (List.filter low_rating revs)
  /\ length (List.filter (fun r => (4 <=? r)%Z) ratings)
     = length (List.filter high_rating revs).
Proof.
  intros Hm. apply map_result_ok in Hm.
  induction Hm as [|r z revs ratings Hz _ IH]; [repeat split|].
  destruct IH as (Hlen & Hlow & Hhigh).
  apply RatingsSpec.int_rating_ok in Hz.
  cbn [List.filter length]. unfold low_rating at 1, high_rating at 1.
  rewrite Hz. cbn [from_option].
  destruct (z <=? 3), (4 <=? z); cbn [length]; repeat split; congruence.
Qed.

Lemma ratings_stats_counts (revs : list Review) (stats : RatingStats) :
  analyze_ratings_distribution revs = Ok stats ->
  total_reviews stats = length revs
  /\ (0 < length revs)%nat
  /\ low_ratings_count stats = length (List.filter low_rating revs)
  /\ high_ratings_count stats = length (List.filter high_rating revs).
Proof.
  unfold analyze_ratings_distribution. intros Hok.
  apply bind_ok in Hok as (ratings & Hratings & Hok).
  apply bind_ok in Hok as (average & Haverage & Hok).
  apply bind_ok in Hok as (rounded & _ & Hok).
  apply bind_ok in Hok as (med & _ & Hok).
  injection Hok as <-.
  cbn [total_reviews low_ratings_count high_ratings_count].
  destruct (ratings_counts revs ratings Hratings) as (Hlen & Hlow & Hhigh).
  repeat split; try assumption.
  rewrite <- Hlen. destruct ratings; [discriminate | cbn; lia].
Qed.

Lemma low_high_reviews (revs : list Review) :
  (forall r, r ∈ revs -> is_Some (int_of_str (rating r))) ->
  (length (List.filter low_rating revs)
   + length (List.filter high_rating revs))%nat = length revs.
Proof.
  induction revs as [|r revs IH]; intros Hall; [reflexivity|].
  cbn [List.filter length]. unfold low_rating at 1, high_rating at 1.
  destruct (Hall r) as [z Hz]; [left|]. rewrite Hz. cbn [from_option].
  assert (IH' := IH (fun r' Hr' => Hall r' (proj2 (elem_of_cons _ _ _) (or_intror Hr')))).
  destruct (Z.leb_spec z 3), (Z.leb_spec 4 z); cbn [length]; lia.
Qed.

Lemma feature_requests_bound (revs : list Review) (stats : IssueStats) :
  extract_keywords_and_issues revs = Ok stats ->
  (feature_requests_count stats <= length revs)%nat.
Proof.
  intros Hok. unfold extract_keywords_and_issues in Hok.
  apply bind_ok in Hok as (low & _ & Hok).
  apply (f_equal (fun r => match r with
                           | Ok s => feature_requests_count s
                           | Raise _ => 0%nat
                           end)) in Hok.
  cbn [feature_requests_count] in Hok. rewrite <- Hok.
  rewrite IssuesSpec.feature_requests_spec.
  cbn [app]. rewrite length_map. apply List.filter_length_le.
Qed.

(** X17.  A report that is returned is consistent across its parts:
    the number of reviews analysed is the number of merged reviews,
    which is not zero and is the total of the rating statistics; the
    reviews counted as positive are those counted as rated high, and
    with those rated low they are all reviews; the feature requests are
    no more than the reviews; each part is what its analysis returns on
    the merged reviews; there are LLM insights only when the LLM is
    used and its answer is truthy; and the app name is present exactly
    when the most helpful snapshot is, 'Unknown' standing for a missing
    name. *)
Theorem report_consistent (app now : string) (use_llm : bool)
    (llm_analyze_issues : list Review -> json) (rd : ReviewsData)
    (report : Report) :
  generate_summary_report app now use_llm llm_analyze_issues rd = Ok report ->
  let all_reviews := get_all_reviews rd in
  report_app_id report = app
  /\ analysis_date report = now
  /\ total_reviews_analyzed report = length all_reviews
  /\ (0 < total_reviews_analyzed report)%nat
  /\ total_reviews (ratings report) = total_reviews_analyzed report
  /\ total_positive_reviews (positives report)
     = high_ratings_count (ratings report)
  /\ (low_ratings_count (ratings report)
      + total_positive_reviews (positives report))%nat
     = total_reviews_analyzed report
  /\ (feature_requests_count (issues report)
      <= total_reviews_analyzed report)%nat
  /\ analyze_ratings_distribution all_reviews = Ok (ratings report)
  /\ analyze_temporal_trends all_reviews = Ok (trends report)
  /\ extract_keywords_and_issues all_reviews = Ok (issues report)
  /\ analyze_positive_aspects all_reviews = Ok (positives report)
  /\ llm_insights report
     = (if use_llm && truthy (llm_analyze_issues all_reviews)
        then Some (llm_analyze_issues all_reviews) else None)
  /\ report_app_name report
     = match most_helpful rd with
       | Some snapshot => Some (default "Unknown" (snapshot_app_name snapshot))
       | None => None
       end.
Proof.
  intros Hok all_reviews. unfold generate_summary_report in Hok.
  cbv zeta in Hok. fold all_reviews in Hok.
  apply bind_ok in Hok as (rating_stats & Hrs & Hok).
  apply bind_ok in Hok as (trend_stats & Hts & Hok).
  apply bind_ok in Hok as (issue_stats & His & Hok).
  apply bind_ok in Hok as (positive_stats & Hps & Hok).
  injection Hok as <-.
  cbn [report_app_id analysis_date total_reviews_analyzed ratings trends
       issues positives llm_insights report_app_name].
  destruct (ratings_stats_counts _ _ Hrs) as (Htotal & Hpos & Hlow & Hhigh).
  pose proof Hps as Hps'. unfold analyze_positive_aspects in Hps'.
  apply bind_ok in Hps' as (high & Hhigh' & Hps'). injection Hps' as <-.
  cbn [total_positive_reviews].
  apply high_rated_filter in Hhigh'. subst high.
  assert (Hall : forall r, r ∈ all_reviews -> is_Some (int_of_str (rating r))).
  { unfold analyze_ratings_distribution in Hrs.
    apply bind_ok in Hrs as (zs & Hzs & _). apply map_result_ok in Hzs.
    intros r Hr. apply list_elem_of_lookup in Hr as [i Hi].
    destruct (Forall2_lookup_l _ _ _ _ _ Hzs Hi) as (z & _ & Hz).
    apply RatingsSpec.int_rating_ok in Hz. eauto. }
  split; [reflexivity|]. split; [reflexivity|]. split; [reflexivity|].
  split; [exact Hpos|]. split; [exact Htotal|].
  split; [now rewrite Hhigh|].
  split; [rewrite Hlow; apply (low_high_reviews _ Hall)|].
  split; [exact (feature_requests_bound _ _ His)|].
  split; [exact Hrs|]. split; [exact Hts|]. split; [exact His|].
  split; [exact Hps|].
  split; [now destruct use_llm | now destruct (most_helpful rd)].
Qed.

(** X18.  No report is made of no reviews or of a rating that does not
    convert: the rating statistics come first and raise
    [StatisticsError] when the merged list is empty, and [ValueError]
    when some merged review's rating is not an [int] literal. *)
Theorem report_raises (app now : string) (use_llm : bool)
    (llm_analyze_issues : list Review -> json) (rd : ReviewsData) :
  (get_all_reviews rd = [] ->
   generate_summary_report app now use_llm llm_analyze_issues rd
   = Raise StatisticsError)
  /\ (forall r, r ∈ get_all_reviews rd -> int_of_str (rating r) = None ->
      generate_summary_report app now use_llm llm_analyze_issues rd
      = Raise ValueError).
Proof.
  split.
  - intros Hnil. unfold generate_summary_report. cbv zeta. rewrite Hnil.
    reflexivity.
  - intros r Hr Hrating. unfold generate_summary_report. cbv zeta.
    unfold analyze_ratings_distribution.
    rewrite (map_result_raise int_rating _ r ValueError Hr).
    + reflexivity.
    + unfold int_rating. now rewrite Hrating.
    + intros y e _ Hy. now apply RatingsSpec.int_rating_raise in Hy as [_ ->].
Qed.

End Aspects.

Lemma positive_aspects_counted_witness :
  match @analyze_positive_aspects Reference.runtime
          [Samples.two_stars; Samples.five_stars] with
  | Ok stats =>
      total_positive_reviews stats = 1%nat
      /\ (length (top_positive_aspects stats) <= 5)%nat
  | Raise _ => False
  end.
Proof.
  destruct (@analyze_positive_aspects Reference.runtime
              [Samples.two_stars; Samples.five_stars])
    as [stats|e] eqn:Hrun; [|vm_compute in Hrun; discriminate].
  destruct (proj1 (proj2 (@positive_aspects_counted Reference.runtime _))
              stats Hrun)
    as (Htotal & Hlen & _).
  split; [rewrite Htotal; reflexivity | exact Hlen].
Defined.

(** One review rated 3 or less that counts for two categories. *)
Lemma issues_total_by_category_witness :
  match @extract_keywords_and_issues Reference.runtime
          [Samples.crash_report; Samples.five_stars] with
  | Ok stats =>
      total_issues_found stats = 2%nat
      /\ length (List.filter (@low_rating Reference.runtime)
                   [Samples.crash_report; Samples.five_stars]) = 1%nat
  | Raise _ => False
  end.
Proof.
  destruct (@extract_keywords_and_issues Reference.runtime
              [Samples.crash_report; Samples.five_stars])
    as [stats|e] eqn:Hrun; [|vm_compute in Hrun; discriminate].
  destruct (@issues_total_by_category Reference.runtime _ stats Hrun)
    as (Htotal & _).
  split; [rewrite Htotal|]; vm_compute; reflexivity.
Defined.

Lemma report_consistent_witness :
  match @generate_summary_report Reference.runtime "1" "now" false
          (fun _ => JNull) Samples.two_snapshots with
  | Ok report =>
      total_reviews_analyzed report = 3%nat
      /\ total_reviews (ratings report) = total_reviews_analyzed report
      /\ llm_insights report = None
      /\ report_app_name report = Some "Sample"
  | Raise _ => False
  end.
Proof.
  destruct (@generate_summary_report Reference.runtime "1" "now" false
              (fun _ => JNull) Samples.two_snapshots)
    as [report|e] eqn:Hrun; [|vm_compute in Hrun; discriminate].
  destruct (@report_consistent Reference.runtime _ _ _ _ _ report Hrun)
    as (_ & _ & Hn & _ & Ht & _ & _ & _ & _ & _ & _ & _ & Hllm & Hname).
  repeat split; [rewrite Hn; reflexivity | exact Ht | exact Hllm | exact Hname].
Defined.

Lemma report_raises_witness :
  @generate_summary_report Reference.runtime "1" "now" false (fun _ => JNull)
    {| most_helpful := None;
       most_recent := Some {| snapshot_app_name := None; reviews := [] |} |}
  = Raise StatisticsError.
Proof.
  apply (proj1 (@report_raises Reference.runtime "1" "now" false
                  (fun _ => JNull) _)).
  reflexivity.
Defined.

End AspectsSpec.
(* ===================================================================== *)
(** * The monthly counts                                                  *)
(* ===================================================================== *)

Module TrendsMore.
Import Py PyFacts Analyzer.
#[local] Set Warnings "-clear-no-such-hyp".

Lemma filter_length_perm {A} (p : A -> bool) (l l' : list A) :
  l ≡ₚ l' -> length (List.filter p l) = length (List.filter p l').
Proof.
  induction 1 as [|x l l' _ IH|x y l|l l' l'' _ IH _ IH'];
    cbn [List.filter]; [reflexivity | | | congruence].
  - destruct (p x); cbn [length]; congruence.
  - destruct (p x), (p y); reflexivity.
Qed.

(** Each element counts for at most one of pairwise distinct keys. *)
Lemma sum_list_cons (a : nat) (l : list nat) :
  sum_list (a :: l) = (a + sum_list l)%nat.
Proof. reflexivity. Qed.

Lemma one_key_each {A} (f : A -> string) (x : A) (ks : list string) :
  NoDup ks ->
  (sum_list (map (fun k => length (List.filter (fun y => String.eqb (f y) k) [x]))
                 ks) <= 1)%nat.
Proof.
  induction 1 as [|k ks Hk _ IH]; [cbn; lia|].
  cbn [map]. rewrite sum_list_cons. cbn [List.filter] in *.
  destruct (String.eqb_spec (f x) k) as [<- | _]; cbn [length]; [|lia].
  enough (sum_list (map (fun k => length (if String.eqb (f x) k then [x] else []))
                        ks) = 0)%nat as -> by lia.
  clear IH. induction ks as [|k' ks IH]; [reflexivity|].
  cbn [map]. rewrite sum_list_cons.
  apply not_elem_of_cons in Hk as [Hne Hk].
  destruct (String.eqb_spec (f x) k'); [congruence|]. cbn [length].
  now rewrite IH.
Qed.

Lemma disjoint_counts {A} (f : A -> string) (l : list A) (ks : list string) :
  NoDup ks ->
  (sum_list (map (fun k => length (List.filter (fun y => String.eqb (f y) k) l))
                 ks) <= length l)%nat.
Proof.
  intros Hks. induction l as [|x l IH].
  - clear Hks. induction ks as [|k ks IHks]; [reflexivity|].
    cbn [map]. rewrite sum_list_cons. cbn [List.filter length] in *. lia.
  - pose proof (one_key_each f x ks Hks) as Hone.
    assert (Hsplit : forall ks : list string,
              sum_list (map (fun k => length (List.filter
                                               (fun y => String.eqb (f y) k)
                                               (x :: l))) ks)
              = (sum_list (map (fun k => length (List.filter
                                                  (fun y => String.eqb (f y) k)
                                                  [x])) ks)
                 + sum_list (map (fun k => length (List.filter
                                                     (fun y => String.eqb (f y) k)
                                                     l)) ks))%nat).
    { clear. induction ks as [|k ks IH]; [reflexivity|].
      cbn [map]. rewrite !sum_list_cons, IH. cbn [List.filter].
      destruct (String.eqb (f x) k); cbn [length]; lia. }
    rewrite Hsplit. cbn [length]. lia.
Qed.

Section Counts.
Context `{Runtime}.

(** The grouping counts, for each month, the dated reviews that fall in
    it. *)
Lemma group_by_month_count (dated : list (datetime * Z)) (k : string) :
  from_option stats_count 0%nat (dict_get k (group_by_month dated))
  = length (List.filter (fun dr => String.eqb (month_key (fst dr)) k) dated).
Proof.
  unfold group_by_month.
  induction dated as [|dr dated IH] using rev_ind; [reflexivity|].
  rewrite foldl_app. cbn [foldl]. rewrite IssuesSpec.dict_get_upd.
  rewrite List.filter_app, length_app. cbn [List.filter].
  rewrite (String.eqb_sym k). rewrite <- IH.
  destruct (String.eqb (month_key (fst dr)) k) eqn:Hk; cbn [length].
  - apply String.eqb_eq in Hk. subst k. cbn [from_option].
    destruct (dict_get _ _); cbn; lia.
  - lia.
Qed.

(** The loop over the months keeps each month's count. *)
Lemma monthly_averages_count (items : list (string * MonthStats)) :
  forall acc mt,
    monthly_averages items acc = Ok mt ->
    NoDup (map fst items) ->
    forall k trend,
      dict_get k mt = Some trend ->
      (exists stats, dict_get k items = Some stats
                     /\ count trend = stats_count stats)
      \/ (dict_get k items = None /\ dict_get k acc = Some trend).
Proof.
  induction items as [|[month stats] items IH]; intros acc mt Hm Hnd k trend Hk.
  - cbn in Hm. injection Hm as <-. now right.
  - cbn [monthly_averages] in Hm. apply bind_ok in Hm as (average & _ & Hm).
    apply bind_ok in Hm as (rounded & _ & Hm).
    cbn [map fst] in Hnd. apply NoDup_cons in Hnd as [Hmonth Hnd].
    cbn [dict_get].
    destruct (IH _ _ Hm Hnd k trend Hk) as [(st & Hst & Hcount) | [Hnone Hacc]].
    + left. exists st. split; [|exact Hcount].
      destruct (String.eqb_spec k month) as [-> | _]; [|exact Hst].
      exfalso. apply Hmonth. apply (dict_get_is_Some month items). eauto.
    + rewrite dict_get_set in Hacc.
      destruct (String.eqb_spec k month) as [-> | _].
      * left. exists stats. injection Hacc as <-. auto.
      * right. auto.
Qed.

(** X19.  The monthly series counts right: the count of a month of the
    series is the number of reviews that got through the parsing and
    are dated in that month, which is not zero; so the counts of the
    series add up to no more than the number of such reviews. *)
Theorem monthly_counts (revs : list Review) (stats : TrendStats) :
  analyze_temporal_trends revs = Ok stats ->
  (forall month trend,
     (month, trend) ∈ monthly_trends stats ->
     count trend
     = length (List.filter (fun dr => String.eqb (month_key (fst dr)) month)
                           (dated_reviews revs))
     /\ (0 < count trend)%nat)
  /\ (sum_list (map (fun kv => count (snd kv)) (monthly_trends stats))
      <= length (dated_reviews revs))%nat.
Proof.
  intros Hok.
  destruct (TrendsSpec.monthly_series_eq revs stats Hok) as (mt & Hmt & Hseries).
  destruct (TrendsSpec.monthly_trends_of_spec revs mt Hmt) as [Hnd Hkeys].
  assert (Hmonth : forall month trend,
            (month, trend) ∈ monthly_trends stats ->
            count trend
            = length (List.filter
                        (fun dr => String.eqb (month_key (fst dr)) month)
                        (dated_reviews revs))
              /\ (0 < count trend)%nat).
  { intros month trend Hin. rewrite Hseries in Hin.
    apply (fun H => elem_of_sublist _ _ _ H (sublist_drop _ _)) in Hin.
    rewrite sorted_items_perm in Hin.
    assert (month ∈ dict_keys mt) as Hkey
      by (apply list_elem_of_fmap; exists (month, trend); auto).
    apply (AspectsSpec.dict_get_elem _ _ _ Hnd) in Hin.
    unfold monthly_trends_of in Hmt.
    apply bind_ok in Hmt as (dated & Hsort & Hmt).
    apply TrendsSpec.sort_by_date_perm in Hsort.
    destruct (TrendsSpec.group_by_month_spec dated) as (Hgnd & _ & _).
    destruct (monthly_averages_count _ _ _ Hmt Hgnd month trend Hin)
      as [(st & Hst & Hcount) | [_ Hnil]]; [|discriminate].
    pose proof (group_by_month_count dated month) as Hg.
    rewrite Hst in Hg. cbn [from_option] in Hg.
    rewrite Hcount, Hg, (filter_length_perm _ _ _ Hsort).
    split; [reflexivity|].
    apply Hkeys in Hkey as (dr & Hdr & ->).
    assert (dr ∈ List.filter
                   (fun dr' => String.eqb (month_key (fst dr')) (month_key (fst dr)))
                   (dated_reviews revs)) as Hhit.
    { apply list_elem_of_In, filter_In. split; [now apply list_elem_of_In|].
      apply String.eqb_refl. }
    destruct (List.filter _ (dated_reviews revs));
      [now apply elem_of_nil in Hhit | cbn; lia]. }
  split; [exact Hmonth|].
  transitivity
    (sum_list (map (fun k => length (List.filter
                                       (fun dr => String.eqb (month_key (fst dr)) k)
                                       (dated_reviews revs)))
                   (dict_keys (monthly_trends stats)))).
  - unfold dict_keys. rewrite map_map. apply Nat.eq_le_incl. f_equal.
    apply map_ext_in. intros [month trend] Hin. apply list_elem_of_In in Hin.
    cbn [fst snd]. now apply Hmonth.
  - apply (disjoint_counts (fun dr => month_key (fst dr))).
    rewrite Hseries. unfold dict_keys.
    change (NoDup (fst <$> drop (length mt - 12) (sorted_items mt))).
    rewrite fmap_drop. eapply sublist_NoDup; [|apply sublist_drop].
    now rewrite sorted_items_perm.
Qed.

End Counts.

Lemma monthly_counts_witness :
  match @analyze_temporal_trends Reference.runtime Samples.four_months with
  | Ok stats =>
      (sum_list (map (fun kv => count (snd kv)) (monthly_trends stats)) <= 4)%nat
  | Raise _ => False
  end.
Proof.
  destruct (@analyze_temporal_trends Reference.runtime Samples.four_months)
    as [stats|e] eqn:Hrun; [|vm_compute in Hrun; discriminate].
  destruct (@monthly_counts Reference.runtime _ stats Hrun) as [_ Hsum].
  exact Hsum.
Defined.

End TrendsMore.
(* ===================================================================== *)
(** * The range of the rating statistics                                  *)
(* ===================================================================== *)

Module RatingsMore.
Import Py PyFacts NumberFacts Analyzer.
#[local] Set Warnings "-clear-no-such-hyp".

Section Range.
Context `{Runtime}.

(** X22.  When every rating converts to an [int] between [lo] and
    [hi], two integers of at most 53 bits, the average and the median
    that are returned lie between [lo] and [hi] too, the conversions to
    [float] and the rounding of the average included. *)
Theorem rating_statistics_in_range (revs : list Review) (stats : RatingStats)
    (lo hi : Z) :
  analyze_ratings_distribution revs = Ok stats ->
  - 2 ^ 53 <= lo -> hi <= 2 ^ 53 ->
  (forall r, r ∈ revs ->
     exists z, int_of_str (rating r) = Some z /\ lo <= z <= hi) ->
  (inject_Z lo <= value (average_rating stats))%Q
  /\ (value (average_rating stats) <= inject_Z hi)%Q
  /\ (inject_Z lo <= value (median_rating stats))%Q
  /\ (value (median_rating stats) <= inject_Z hi)%Q.
Proof.
  unfold analyze_ratings_distribution. intros Hok Hlo Hhi Hrange.
  apply bind_ok in Hok as (ratings & Hratings & Hok).
  apply bind_ok in Hok as (average & Haverage & Hok).
  apply bind_ok in Hok as (rounded & Hrounded & Hok).
  apply bind_ok in Hok as (med & Hmed & Hok).
  injection Hok as <-. cbn [average_rating median_rating].
  assert (Hall : forall z, z ∈ ratings -> lo <= z <= hi).
  { apply map_result_ok in Hratings. intros z Hz.
    apply list_elem_of_lookup in Hz as [i Hi].
    destruct (Forall2_lookup_r _ _ _ _ _ Hratings Hi) as (r & Hr & Hrz).
    apply RatingsSpec.int_rating_ok in Hrz.
    destruct (Hrange r (list_elem_of_lookup_2 _ _ _ Hr)) as (z' & Hz' & Hb).
    congruence. }
  assert (Hne : ratings <> []) by (intros ->; discriminate).
  pose proof (fun q => to_float_in_range q lo hi Hlo Hhi) as Hclosed.
  destruct (mean_in_range lo hi Hclosed (map PInt ratings))
    as (average' & Haverage' & Hal & Hah).
  { destruct ratings; [contradiction | discriminate]. }
  { intros x Hx. apply list_elem_of_fmap in Hx as (z & -> & Hz).
    cbn [value]. rewrite <- !Zle_Qle. auto. }
  assert (average' = average) as -> by congruence.
  destruct (round2_in_range lo hi Hclosed average Hal Hah)
    as (rounded' & Hrounded' & Hrl & Hrh).
  assert (rounded' = rounded) as -> by congruence.
  destruct (median_in_range lo hi Hclosed ratings Hne Hall)
    as (med' & Hmed' & Hml & Hmh).
  assert (med' = med) as -> by congruence.
  auto.
Qed.

End Range.

Lemma rating_statistics_in_range_witness :
  match @analyze_ratings_distribution Reference.runtime
          [Samples.two_stars; Samples.five_stars] with
  | Ok stats =>
      (inject_Z 1 <= value (average_rating stats))%Q
      /\ (value (average_rating stats) <= inject_Z 5)%Q
      /\ (inject_Z 1 <= value (median_rating stats))%Q
      /\ (value (median_rating stats) <= inject_Z 5)%Q
  | Raise _ => False
  end.
Proof.
  destruct (@analyze_ratings_distribution Reference.runtime
              [Samples.two_stars; Samples.five_stars])
    as [stats|e] eqn:Hrun; [|vm_compute in Hrun; discriminate].
  apply (@rating_statistics_in_range Reference.runtime _ stats 1 5 Hrun).
  - vm_compute. discriminate.
  - vm_compute. discriminate.
  - intros r Hr. apply elem_of_cons in Hr as [-> | Hr].
    + exists 2. split; [reflexivity | lia].
    + apply list_elem_of_singleton in Hr as ->.
      exists 5. split; [reflexivity | lia].
Defined.

End RatingsMore.
